(** * peon-ping: the hook dispatcher of [peon.py]

    A shallow embedding of the event-routing and session-state engine of
    [peon.py] (function [main]), of [extract_project_name], of the
    pack-switch and pause commands, of the update check and of the slot
    loop and script text of [send_notification], followed by the properties
    of the specification that concern them.

    Conventions of the embedding.
    - Python [str] values are Rocq strings holding the UTF-8 encoding.  The
      functions used here ([basename], the character class of [re.sub],
      [lower] compared with an ASCII literal) act on ASCII characters only,
      and no byte of a multi-byte UTF-8 sequence is an ASCII character, so
      the byte-wise reading agrees with the code-point reading.
    - JSON objects used as dictionaries are [gmap]s, the agent-session list
      (only ever read through [set(...)]) is a [gset].  A key that is absent
      from the state document reads as the empty container, as
      [state.get(key, {})] does.
    - [time.time()] is read from the environment as an integer number of
      clock ticks; [annoyed_window_seconds] is expressed in the same unit.
    - [random.choice] takes its index from the environment.
    - The external collaborators (audio player, popup, focus probe, file
      system) appear as fields of the environment and as the calls recorded
      in the outcome of an invocation.
    - [os.path.basename] is [posixpath.basename], the one in force on the
      platforms whose [cwd] is a POSIX path (mac, wsl, linux).  On native
      Windows [os.path] is [ntpath], which also splits at backslashes and
      after a drive; the embedding does not follow it there, so that for
      [PLATFORM = Windows] the project name is the one of a POSIX [cwd].
    - The standard input is classified by what [sys.stdin.read] and
      [json.loads] do with it: the two failures that [main] catches, the
      two that it does not catch (an exception of [json.loads] other than
      [JSONDecodeError], and a JSON value that is not an object), and an
      object, whose five keys are read as strings.
    - The calls that [main] makes after the routing without a [try] (writing
      the state document, writing the title, the player, the popup) are
      taken to return: an unwritable state file or a standard output that
      rejects the title is a failure of the environment that the embedding
      does not describe.  The files that exist are readable.
    - The update check started by [main] on [SessionStart] runs in a daemon
      thread of its own; [check_for_updates] is embedded as a function of
      its own on the three files, and [main] reads these files as the
      environment presents them.
    - Left out: the dispatch of the command-line subcommands, [cmd_packs],
      [cmd_help], [detect_platform], the commands run by [play_sound] and
      the volume handed to it.  The documents are taken well typed: a
      configuration or a state that is not a JSON object, or a field of an
      unexpected JSON type, is outside the embedding. *)

From Stdlib Require Import ZArith Ascii String List Bool Lia Sorted.
From stdpp Require Import gmap strings list fin_maps pretty.

Local Open Scope string_scope.

(** ** Python string helpers *)

Module PyStr.

Definition truthy (s : string) : bool := negb (String.eqb s "").

(** [c.lower()] on an ASCII letter. *)
Definition lower_ascii (c : ascii) : ascii :=
  let n := nat_of_ascii c in
  if Nat.leb 65 n && Nat.leb n 90 then ascii_of_nat (n + 32) else c.

Fixpoint lower (s : string) : string :=
  match s with
  | EmptyString => EmptyString
  | String c r => String (lower_ascii c) (lower r)
  end.

(** [s.rfind(c)]: index of the last occurrence, [-1] when there is none. *)
Fixpoint rfind_from (c : ascii) (s : string) (i last : Z) : Z :=
  match s with
  | EmptyString => last
  | String a r => rfind_from c r (i + 1) (if Ascii.eqb a c then i else last)
  end.

Definition rfind (c : ascii) (s : string) : Z := rfind_from c s 0 (-1).

(** [s[n:]] *)
Fixpoint drop (n : nat) (s : string) : string :=
  match n, s with
  | O, _ => s
  | S _, EmptyString => EmptyString
  | S k, String _ r => drop k r
  end.

(** [posixpath.basename]: [i = p.rfind('/') + 1; return p[i:]]. *)
Definition basename (p : string) : string :=
  let i := (rfind "/"%char p + 1)%Z in
  drop (Z.to_nat i) p.

(** The character class [[a-zA-Z0-9 ._-]] of [extract_project_name]. *)
Definition in_class (c : ascii) : bool :=
  let n := nat_of_ascii c in
  (Nat.leb 97 n && Nat.leb n 122) || (Nat.leb 65 n && Nat.leb n 90)
  || (Nat.leb 48 n && Nat.leb n 57)
  || Ascii.eqb c " " || Ascii.eqb c "." || Ascii.eqb c "_" || Ascii.eqb c "-".

(** [re.sub(r'[^a-zA-Z0-9 ._-]', '', s)] *)
Fixpoint sub_outside_class (s : string) : string :=
  match s with
  | EmptyString => EmptyString
  | String c r =>
      if in_class c then String c (sub_outside_class r) else sub_outside_class r
  end.

(** ASCII white space, as removed by [str.strip()]. *)
Definition is_space (c : ascii) : bool :=
  let n := nat_of_ascii c in
  (Nat.leb 9 n && Nat.leb n 13) || (Nat.leb 28 n && Nat.leb n 32).

Fixpoint all_space (s : string) : bool :=
  match s with
  | EmptyString => true
  | String c r => is_space c && all_space r
  end.

(** Truth value of [s.strip()]. *)
Definition strip_truthy (s : string) : bool := negb (all_space s).

(** [sep.join(l)] *)
Fixpoint join (sep : string) (l : list string) : string :=
  match l with
  | [] => ""
  | [x] => x
  | x :: r => x +:+ sep +:+ join sep r
  end.

(** [random.choice(l)] with the index drawn by the environment;
    [None] stands for the [IndexError] raised on an empty sequence. *)
Definition choice {A} (rnd : nat) (l : list A) : option A :=
  match l with
  | [] => None
  | _ => l !! (rnd mod length l)
  end.

End PyStr.

(** ** Project name extraction *)

Definition extract_project_name (cwd : string) : string :=
  if negb (PyStr.truthy cwd) then "claude"
  else
    let name := PyStr.basename cwd in
    if negb (PyStr.truthy name) then "claude"
    else
      let cleaned := PyStr.sub_outside_class name in
      if PyStr.truthy cleaned then cleaned else "claude".

(** ** Data model *)

(** Scalar JSON values, as found under [enabled] and under the
    per-category flags of the configuration. *)
Inductive jval :=
  | JNull
  | JBool (b : bool)
  | JNum (n : Z)
  | JStr (s : string).

(** [str(v)] *)
Definition py_str (v : jval) : string :=
  match v with
  | JNull => "None"
  | JBool true => "True"
  | JBool false => "False"
  | JNum n => pretty n
  | JStr s => s
  end.

(** The configuration document, [config.json].  A field with a default in
    the code is an [option]; [None] is an absent key. *)
Record config := {
  enabled : option jval;
  active_pack : option string;
  pack_rotation : list string;
  annoyed_threshold : option Z;
  annoyed_window_seconds : option Z;
  categories : gmap string jval;
}.

(** The legacy state format kept the prompt timestamps in a list; [main]
    reads such a value as an empty dictionary. *)
Inductive ts_doc :=
  | TsLegacy (l : list Z)
  | TsDict (m : gmap string (list Z)).

(** The state document, [.state.json]. *)
Record state := {
  agent_sessions : gset string;
  session_packs : gmap string string;
  prompt_timestamps : ts_doc;
  last_played : gmap string string;
}.

Definition empty_state : state :=
  {| agent_sessions := ∅; session_packs := ∅;
     prompt_timestamps := TsDict ∅; last_played := ∅ |}.

Definition set_agent_sessions (a : gset string) (st : state) : state :=
  {| agent_sessions := a; session_packs := session_packs st;
     prompt_timestamps := prompt_timestamps st; last_played := last_played st |}.

Definition set_session_packs (m : gmap string string) (st : state) : state :=
  {| agent_sessions := agent_sessions st; session_packs := m;
     prompt_timestamps := prompt_timestamps st; last_played := last_played st |}.

Definition set_prompt_timestamps (m : gmap string (list Z)) (st : state) : state :=
  {| agent_sessions := agent_sessions st; session_packs := session_packs st;
     prompt_timestamps := TsDict m; last_played := last_played st |}.

Definition set_last_played (m : gmap string string) (st : state) : state :=
  {| agent_sessions := agent_sessions st; session_packs := session_packs st;
     prompt_timestamps := prompt_timestamps st; last_played := m |}.

(** The event descriptor; an absent key reads as the empty string. *)
Record event := {
  hook_event_name : string;
  notification_type : string;
  cwd : string;
  session_id : string;
  permission_mode : string;
}.

(** What [sys.stdin.read()] followed by [json.loads] can give. *)
Inductive stdin_data :=
  | StdinUnreadable   (* sys.stdin.read() raises *)
  | StdinBlank        (* nothing but white space *)
  | StdinMalformed    (* json.loads raises JSONDecodeError *)
  | StdinLoadError    (* json.loads raises another exception: RecursionError
                         on deep nesting, ValueError on an integer literal
                         beyond the digit limit *)
  | StdinNotObject    (* a JSON value without .get: list, string, number,
                         boolean, null *)
  | StdinEvent (ev : event).

Record sound := { file : string; line : string }.

(** [manifest['categories'][c]['sounds']], the empty list when absent. *)
Abbreviation manifest := (gmap string (list sound)).

Inductive platform := Mac | Windows | Wsl | Linux | UnknownPlatform.

#[global] Instance platform_eq_dec : EqDecision platform.
Proof. solve_decision. Defined.

(** The three files of the update check.  The text files are held as read
    and stripped; the content of [.last_update_check] is held as [int()]
    reads it. *)
Record update_files := {
  last_update_check : option (option Z);
    (* None: no file; Some None: a content that int() rejects *)
  VERSION : option string;
  update_available : option string;
}.

(** What one invocation reads from outside the two documents. *)
Record environment := {
  PLATFORM : platform;
  paused : bool;                        (* os.path.isfile(PAUSED_FILE) *)
  now : Z;                              (* time.time() *)
  frontmost_is_terminal : bool;         (* answer of the focus probe *)
  manifests : string -> option manifest; (* None: json.load raises *)
  sound_isfile : string -> string -> bool; (* packs/<pack>/sounds/<file> *)
  rnd_pack : nat;
  rnd_sound : nat;
  updates : update_files;               (* VERSION and .update_available *)
}.

(** The call [send_notification(msg, title, color)]. *)
Record popup := { popup_msg : string; popup_title : string; popup_color : string }.

(** What one invocation leaves behind. *)
Record outcome := {
  exit_code : Z;
  disk : state;                         (* .state.json afterwards *)
  category : string;                    (* the category finally retained *)
  sound_file : option (string * string); (* pack and file picked *)
  played : bool;                        (* play_sound was called *)
  title : option string;                (* title written to the terminal *)
  notification : option popup;
  stderr : list string;                 (* lines on the error stream *)
}.

(** [sys.exit(code)] before anything was emitted. *)
Definition silent_exit (code : Z) (st : state) : outcome :=
  {| exit_code := code; disk := st; category := ""; sound_file := None;
     played := false; title := None; notification := None; stderr := [] |}.

(** An exception that nothing catches: the interpreter prints the
    traceback, of which the first line is kept, and ends with status 1. *)
Definition traceback : string := "Traceback (most recent call last):".

Definition uncaught (st : state) : outcome :=
  {| exit_code := 1; disk := st; category := ""; sound_file := None;
     played := false; title := None; notification := None;
     stderr := [traceback] |}.

(** ** Main hook logic *)

Definition default_config : config :=
  {| enabled := None; active_pack := None; pack_rotation := [];
     annoyed_threshold := None; annoyed_window_seconds := None;
     categories := ∅ |}.

(** [str(cfg.get('enabled', True)).lower() == 'false'] *)
Definition hook_disabled (cfg : config) : bool :=
  String.eqb (PyStr.lower (py_str (default (JBool true) (enabled cfg)))) "false".

Definition category_names : list string :=
  ["greeting"; "acknowledge"; "complete"; "error"; "permission";
   "resource_limit"; "annoyed"].

(** The dictionary [cat_enabled] built by the loop over [category_names]. *)
Definition cat_enabled (cfg : config) : gmap string bool :=
  foldl
    (fun m c =>
       <[c := String.eqb
                (PyStr.lower (py_str (default (JBool true) (categories cfg !! c))))
                "true"]> m)
    ∅ category_names.

(** [cat_enabled.get(c, True)] *)
Definition cat_get (cfg : config) (c : string) : bool :=
  default true (cat_enabled cfg !! c).

Definition agent_modes : list string := ["delegate"].

(** Agent detection.  [Some o]: the invocation ends with outcome [o]. *)
Definition agent_detection (st : state) (ev : event) : option outcome :=
  let perm_mode := permission_mode ev in
  if PyStr.truthy perm_mode && bool_decide (perm_mode ∈ agent_modes) then
    Some (silent_exit 0
            (set_agent_sessions ({[session_id ev]} ∪ agent_sessions st) st))
  else if bool_decide (session_id ev ∈ agent_sessions st) then
    Some (silent_exit 0 st)
  else None.

(** The state held in memory and its [state_dirty] flag. *)
Record memory := { mem : state; state_dirty : bool }.

(** Pack rotation: the pack used by this invocation and the memory after
    the step.  [None] stands for an exception of [random.choice]. *)
Definition pin_pack (cfg : config) (env : environment) (sid : string)
    (m : memory) : option (string * memory) :=
  let configured := default "peon" (active_pack cfg) in
  match pack_rotation cfg with
  | [] => Some (configured, m)
  | _ =>
      let sp := session_packs (mem m) in
      let redraw :=
        match PyStr.choice (rnd_pack env) (pack_rotation cfg) with
        | None => None
        | Some drawn =>
            Some (drawn,
                  {| mem := set_session_packs (<[sid := drawn]> sp) (mem m);
                     state_dirty := true |})
        end in
      match sp !! sid with
      | Some p => if bool_decide (p ∈ pack_rotation cfg) then Some (p, m) else redraw
      | None => redraw
      end
  end.

(** The variables set by the event routing. *)
Record routing := {
  r_category : string;
  r_status : string;
  r_marker : string;
  r_notify : string;
  r_notify_color : string;
  r_msg : string;
}.

Definition bullet : string := "● ".
Definition dash : string := "  —  ".

(** [state.get('prompt_timestamps', {})], a legacy list read as [{}]. *)
Definition all_ts (st : state) : gmap string (list Z) :=
  match prompt_timestamps st with
  | TsLegacy _ => ∅
  | TsDict m => m
  end.

Definition window_of (cfg : config) : Z := default 10%Z (annoyed_window_seconds cfg).
Definition threshold_of (cfg : config) : Z := default 3%Z (annoyed_threshold cfg).

(** The list [ts] of the rapid-prompt check: the timestamps of the session
    still inside the window, followed by the current one. *)
Definition recent_prompts (cfg : config) (t : Z) (sid : string) (st : state) : list Z :=
  List.filter (fun t0 => (t - t0 <? window_of cfg)%Z) (default [] (all_ts st !! sid))
  ++ [t].

(** Event routing.  [None]: the invocation leaves with [sys.exit(0)]. *)
Definition route (cfg : config) (env : environment) (ev : event)
    (project : string) (m : memory) : option (routing * memory) :=
  let event := hook_event_name ev in
  let ntype := notification_type ev in
  let sid := session_id ev in
  if String.eqb event "SessionStart" then
    Some ({| r_category := "greeting"; r_status := "ready"; r_marker := "";
             r_notify := ""; r_notify_color := ""; r_msg := "" |}, m)
  else if String.eqb event "UserPromptSubmit" then
    if cat_get cfg "annoyed" then
      let ts := recent_prompts cfg (now env) sid (mem m) in
      let m' := {| mem := set_prompt_timestamps (<[sid := ts]> (all_ts (mem m))) (mem m);
                   state_dirty := true |} in
      Some ({| r_category :=
                 if (threshold_of cfg <=? Z.of_nat (length ts))%Z then "annoyed" else "";
               r_status := "working"; r_marker := "";
               r_notify := ""; r_notify_color := ""; r_msg := "" |}, m')
    else
      Some ({| r_category := ""; r_status := "working"; r_marker := "";
               r_notify := ""; r_notify_color := ""; r_msg := "" |}, m)
  else if String.eqb event "Stop" then
    Some ({| r_category := "complete"; r_status := "done"; r_marker := bullet;
             r_notify := "1"; r_notify_color := "blue";
             r_msg := project +:+ dash +:+ "Task complete" |}, m)
  else if String.eqb event "Notification" then
    if String.eqb ntype "permission_prompt" then
      Some ({| r_category := "permission"; r_status := "needs approval";
               r_marker := bullet; r_notify := "1"; r_notify_color := "red";
               r_msg := project +:+ dash +:+ "Permission needed" |}, m)
    else if String.eqb ntype "idle_prompt" then
      Some ({| r_category := ""; r_status := "done"; r_marker := bullet;
               r_notify := "1"; r_notify_color := "yellow";
               r_msg := project +:+ dash +:+ "Waiting for input" |}, m)
    else None
  else if String.eqb event "PermissionRequest" then
    Some ({| r_category := "permission"; r_status := "needs approval";
             r_marker := bullet; r_notify := "1"; r_notify_color := "red";
             r_msg := project +:+ dash +:+ "Permission needed" |}, m)
  else None.

(** The category retained after the per-category flag was consulted. *)
Definition enabled_category (cfg : config) (c : string) : string :=
  if PyStr.truthy c && negb (cat_get cfg c) then "" else c.

(** The candidate pool of the sound selector. *)
Definition candidates (sounds : list sound) (last_file : string) : list sound :=
  if Nat.leb (length sounds) 1 then sounds
  else List.filter (fun s => negb (String.eqb (file s) last_file)) sounds.

(** The body of the [try] block that picks a sound: the sound picked and
    the state with [last_played] updated.  [None]: no sound, either because
    the list is empty or because an exception was swallowed. *)
Definition pick_sound (env : environment) (pack c : string) (st : state)
    : option (sound * state) :=
  match manifests env pack with
  | None => None
  | Some manifest =>
      let sounds := default [] (manifest !! c) in
      match sounds with
      | [] => None
      | _ =>
          let last_file := default "" (last_played st !! c) in
          match PyStr.choice (rnd_sound env) (candidates sounds last_file) with
          | None => None
          | Some pick =>
              Some (pick, set_last_played (<[c := file pick]> (last_played st)) st)
          end
      end
  end.

Definition terminal_is_focused (env : environment) : bool :=
  match PLATFORM env with
  | Mac | Windows => frontmost_is_terminal env
  | _ => false
  end.

(** The update notice printed by [main] on [SessionStart]. *)
Definition update_notice (fs : update_files) : option string :=
  match update_available fs with
  | None => None
  | Some new_ver =>
      let cur_ver := default "?" (VERSION fs) in
      if PyStr.truthy new_ver
      then Some ("peon-ping update available: " +:+ cur_ver +:+ " → " +:+ new_ver
                 +:+ " — run: curl -fsSL https://raw.githubusercontent.com/tonyyont/peon-ping/main/install.sh | bash")
      else None
  end.

Definition pause_notice : string :=
  "peon-ping: sounds paused — run 'peon --resume' or '/peon-ping-toggle' to unpause".

(** What [main] prints to the error stream once the event has been routed
    and the state written: the update notice, then the pause notice, both
    on [SessionStart] only. *)
Definition session_start_notices (ev : event) (env : environment) : list string :=
  (if String.eqb (hook_event_name ev) "SessionStart"
   then match update_notice (updates env) with Some l => [l] | None => [] end
   else [])
  ++ (if String.eqb (hook_event_name ev) "SessionStart" && paused env
      then [pause_notice] else []).

(** [main] from the point where the event has been parsed. *)
Definition handle_event (cfg : config) (env : environment) (st : state)
    (ev : event) : outcome :=
  match agent_detection st ev with
  | Some o => o
  | None =>
      match pin_pack cfg env (session_id ev) {| mem := st; state_dirty := false |} with
      | None => uncaught st
      | Some (pack, m1) =>
          let project := extract_project_name (cwd ev) in
          match route cfg env ev project m1 with
          | None => silent_exit 0 st
          | Some (r, m2) =>
              let c := enabled_category cfg (r_category r) in
              let picked :=
                if PyStr.truthy c && negb (paused env)
                then pick_sound env pack c (mem m2) else None in
              let m3 :=
                match picked with
                | Some (_, st') => {| mem := st'; state_dirty := true |}
                | None => m2
                end in
              let ttl := r_marker r +:+ project +:+ ": " +:+ r_status r in
              {| exit_code := 0;
                 disk := if state_dirty m3 then mem m3 else st;
                 category := c;
                 sound_file := (fun p => (pack, file (fst p))) <$> picked;
                 played :=
                   match picked with
                   | Some (s, _) => sound_isfile env pack (file s)
                   | None => false
                   end;
                 title := if PyStr.strip_truthy ttl then Some ttl else None;
                 notification :=
                   if PyStr.truthy (r_notify r) && negb (paused env)
                      && negb (bool_decide (PLATFORM env = Windows))
                   then
                     if negb (terminal_is_focused env)
                     then Some {| popup_msg := r_msg r; popup_title := ttl;
                                  popup_color :=
                                    if PyStr.truthy (r_notify_color r)
                                    then r_notify_color r else "red" |}
                     else None
                   else None;
                 stderr := session_start_notices ev env |}
          end
      end
  end.

(** The hook path of [main] (no command-line subcommand). *)
Definition main (cfg : config) (env : environment) (st : state)
    (input : stdin_data) : outcome :=
  match input with
  | StdinUnreadable | StdinBlank => silent_exit 0 st
  | _ =>
      if hook_disabled cfg then silent_exit 0 st
      else
        match input with
        | StdinEvent ev => handle_event cfg env st ev
        | StdinLoadError | StdinNotObject => uncaught st
        | _ => silent_exit 0 st
        end
  end.

(** ** The installation used by the test suite *)

Module Fixture.

Definition snd_ (f l : string) : sound := {| file := f; line := l |}.

Definition PEON_MANIFEST : manifest :=
  list_to_map
    [("greeting", [snd_ "Hello1.wav" "Ready to work?"; snd_ "Hello2.wav" "Yes?"]);
     ("acknowledge", [snd_ "Ack1.wav" "Work, work."]);
     ("complete", [snd_ "Done1.wav" "Something need doing?";
                   snd_ "Done2.wav" "Ready to work?"]);
     ("error", [snd_ "Error1.wav" "Me not that kind of orc!"]);
     ("permission", [snd_ "Perm1.wav" "Something need doing?"; snd_ "Perm2.wav" "Hmm?"]);
     ("annoyed", [snd_ "Angry1.wav" "Me busy, leave me alone!"])].

Definition KERRIGAN_MANIFEST : manifest :=
  list_to_map
    [("greeting", [snd_ "Hello1.wav" "What now?"]);
     ("complete", [snd_ "Done1.wav" "I gotcha."])].

Definition packs (name : string) : option manifest :=
  if String.eqb name "peon" then Some PEON_MANIFEST
  else if String.eqb name "sc_kerrigan" then Some KERRIGAN_MANIFEST
  else None.

Definition DEFAULT_CONFIG : config :=
  {| enabled := Some (JBool true);
     active_pack := Some "peon";
     pack_rotation := [];
     annoyed_threshold := Some 3%Z;
     annoyed_window_seconds := Some 10%Z;
     categories :=
       list_to_map ((fun c => (c, JBool true)) <$> category_names) |}.

(** The installation holds a [VERSION] file and no trace of an update
    check. *)
Definition VERSION_ONLY : update_files :=
  {| last_update_check := None; VERSION := Some "1.0.0"; update_available := None |}.

Definition env_at (t : Z) : environment :=
  {| PLATFORM := Linux; paused := false; now := t;
     frontmost_is_terminal := false; manifests := packs;
     sound_isfile := fun _ _ => true; rnd_pack := 0; rnd_sound := 0;
     updates := VERSION_ONLY |}.

Definition ev (name ntype sid mode : string) : event :=
  {| hook_event_name := name; notification_type := ntype;
     cwd := "/tmp/myproject"; session_id := sid; permission_mode := mode |}.

Definition with_enabled (v : jval) (cfg : config) : config :=
  {| enabled := Some v; active_pack := active_pack cfg;
     pack_rotation := pack_rotation cfg;
     annoyed_threshold := annoyed_threshold cfg;
     annoyed_window_seconds := annoyed_window_seconds cfg;
     categories := categories cfg |}.

Definition with_rotation (l : list string) (cfg : config) : config :=
  {| enabled := enabled cfg; active_pack := active_pack cfg;
     pack_rotation := l;
     annoyed_threshold := annoyed_threshold cfg;
     annoyed_window_seconds := annoyed_window_seconds cfg;
     categories := categories cfg |}.

End Fixture.

(** ** Sequences of invocations *)

(** One run of the hook: the two documents it reads besides the state, and
    its standard input. *)
Record invocation := {
  inv_cfg : config;
  inv_env : environment;
  inv_input : stdin_data;
}.

Definition invoke (st : state) (i : invocation) : outcome :=
  main (inv_cfg i) (inv_env i) st (inv_input i).

(** The hook is started once per event, one run after the other, each run
    reading the state document left by the previous one. *)
Fixpoint run (st : state) (invs : list invocation) : list outcome :=
  match invs with
  | [] => []
  | i :: rest => let o := invoke st i in o :: run (disk o) rest
  end.

Definition state_after (st : state) (invs : list invocation) : state :=
  foldl (fun s i => disk (invoke s i)) st invs.

(** ** The pack-switch command *)

Section PackSwitch.

(** The values of the configuration document are kept as they are; the
    command only needs to build a string value and to recognise one. *)
Context {value : Type}.
Variable of_str : string -> value.
Variable to_str : value -> option string.

(** What [cmd_pack] reads from the installation directory. *)
Record pack_fs := {
  config_file : option (gmap string value);  (* None: json.load raises *)
  installed : list string;        (* directories matched by the glob *)
  display_name : string -> option (option string);
    (* manifest of a pack: None when json.load raises, else its
       display_name key *)
}.

Record cli_result := {
  cli_exit : Z;
  cli_config : option (gmap string value);  (* config.json afterwards *)
  cli_stdout : list string;
  cli_stderr : list string;
}.

(** The double-quote character. *)
Definition dquote : string := String (ascii_of_nat 34) EmptyString.

Fixpoint insert_sorted (x : string) (l : list string) : list string :=
  match l with
  | [] => [x]
  | y :: r => if String.leb x y then x :: l else y :: insert_sorted x r
  end.

(** [sorted(l)] *)
Definition sorted (l : list string) : list string := foldr insert_sorted [] l.

(** [l.index(x)], [None] for [ValueError]. *)
Fixpoint index (x : string) (l : list string) : option nat :=
  match l with
  | [] => None
  | y :: r => if String.eqb y x then Some 0 else S <$> index x r
  end.

Definition cmd_pack (fs : pack_fs) (pack_arg : option string) : cli_result :=
  let cfg := default ∅ (config_file fs) in
  let names := sorted (installed fs) in
  match names with
  | [] =>
      {| cli_exit := 1; cli_config := config_file fs; cli_stdout := [];
         cli_stderr := ["Error: no packs found"] |}
  | first :: _ =>
      let chosen :=
        match pack_arg with
        | None =>
            let active := default (of_str "peon") (cfg !! "active_pack") in
            match to_str active ≫= fun a => index a names with
            | Some idx => Some (nth ((idx + 1) mod length names) names first)
            | None => Some first
            end
        | Some a => if bool_decide (a ∈ names) then Some a else None
        end in
      match chosen with
      | None =>
          {| cli_exit := 1; cli_config := config_file fs; cli_stdout := [];
             cli_stderr :=
               ["Error: pack " +:+ dquote +:+ default "" pack_arg +:+ dquote +:+ " not found.";
                "Available packs: " +:+ PyStr.join ", " names] |}
      | Some next_pack =>
          let cfg' := <["active_pack" := of_str next_pack]> cfg in
          match display_name fs next_pack with
          | None =>
              (* the traceback of the uncaught exception *)
              {| cli_exit := 1; cli_config := Some cfg'; cli_stdout := [];
                 cli_stderr := ["Traceback (most recent call last):"] |}
          | Some d =>
              {| cli_exit := 0; cli_config := Some cfg';
                 cli_stdout :=
                   ["peon-ping: switched to " +:+ next_pack +:+ " ("
                    +:+ default next_pack d +:+ ")"];
                 cli_stderr := [] |}
          end
      end
  end.

End PackSwitch.

(** The installation of the test suite, as [cmd_pack] sees it. *)
Module PackFixture.

Definition as_str (v : jval) : option string :=
  match v with
  | JStr s => Some s
  | _ => None
  end.

Definition config_json : gmap string jval :=
  <["active_pack" := JStr "peon"]>
    (<["enabled" := JBool true]> (<["annoyed_threshold" := JNum 3]> ∅)).

Definition peon_dir : pack_fs :=
  {| config_file := Some config_json;
     installed := ["sc_kerrigan"; "peon"];
     display_name := fun n =>
       if String.eqb n "peon" then Some (Some "Orc Peon")
       else if String.eqb n "sc_kerrigan" then Some (Some "Sarah Kerrigan (StarCraft)")
       else None |}.

End PackFixture.

(** ** Vocabulary of the specification *)

Definition known_event_names : list string :=
  ["SessionStart"; "UserPromptSubmit"; "Stop"; "Notification"; "PermissionRequest"].

(** An event whose name is not recognised, or a [Notification] whose
    subtype is neither [permission_prompt] nor [idle_prompt]. *)
Definition unrouted (ev : event) : bool :=
  negb (bool_decide (hook_event_name ev ∈ known_event_names))
  || (String.eqb (hook_event_name ev) "Notification"
      && negb (String.eqb (notification_type ev) "permission_prompt")
      && negb (String.eqb (notification_type ev) "idle_prompt")).


(** Input on which [main] raises an exception that it does not catch. *)
Definition raising_input (input : stdin_data) : bool :=
  match input with
  | StdinLoadError | StdinNotObject => true
  | _ => false
  end.

(** The event carries the delegated marker. *)
Definition delegate_marked (ev : event) : bool :=
  String.eqb (permission_mode ev) "delegate".

(** The state document after the session of [ev] was recorded as an agent
    session. *)
Definition record_agent (ev : event) (st : state) : state :=
  set_agent_sessions ({[session_id ev]} ∪ agent_sessions st) st.

(** The notifying events of the routing table. *)
Definition notifying (ev : event) : bool :=
  String.eqb (hook_event_name ev) "Stop"
  || (String.eqb (hook_event_name ev) "Notification"
      && (String.eqb (notification_type ev) "permission_prompt"
          || String.eqb (notification_type ev) "idle_prompt"))
  || String.eqb (hook_event_name ev) "PermissionRequest".

Definition is_idle_prompt (ev : event) : bool :=
  String.eqb (hook_event_name ev) "Notification"
  && String.eqb (notification_type ev) "idle_prompt".

(** Columns of the routing table, for a notifying event. *)
Definition label_of (ev : event) : string :=
  if String.eqb (hook_event_name ev) "Stop" then "Task complete"
  else if is_idle_prompt ev then "Waiting for input"
  else "Permission needed".

Definition status_of (ev : event) : string :=
  if String.eqb (hook_event_name ev) "Stop" then "done"
  else if is_idle_prompt ev then "done"
  else "needs approval".

Definition color_of (ev : event) : string :=
  if String.eqb (hook_event_name ev) "Stop" then "blue"
  else if is_idle_prompt ev then "yellow"
  else "red".

Definition routed_category_of (ev : event) : string :=
  if String.eqb (hook_event_name ev) "Stop" then "complete"
  else if is_idle_prompt ev then ""
  else "permission".

(** The project name in the words of the specification: the last path
    segment of [cwd], the characters outside [A-Za-z0-9 ._-] removed,
    and "claude" when [cwd] or the name left is empty. *)
Fixpoint split_on (sep : ascii) (s : string) : list string :=
  match s with
  | EmptyString => [EmptyString]
  | String c r =>
      if Ascii.eqb c sep then EmptyString :: split_on sep r
      else
        match split_on sep r with
        | seg :: rest => String c seg :: rest
        | [] => [String c EmptyString]
        end
  end.

Definition last_segment (path : string) : string :=
  List.last (split_on "/" path) "".

Definition allowed_chars : list ascii :=
  list_ascii_of_string
    "abcdefghijklmnopqrstuvwxyzABCDEFGHIJKLMNOPQRSTUVWXYZ0123456789 ._-".

Definition keep_allowed (s : string) : string :=
  string_of_list_ascii
    (List.filter (fun c => bool_decide (c ∈ allowed_chars)) (list_ascii_of_string s)).

Definition spec_project (cwd : string) : string :=
  let name := keep_allowed (last_segment cwd) in
  if String.eqb cwd "" || String.eqb name "" then "claude" else name.

(** The variables set by the event routing, when the invocation gets as
    far as the routing and is not ended by it. *)
Definition routed (cfg : config) (env : environment) (st : state)
    (input : stdin_data) : option routing :=
  match input with
  | StdinEvent ev =>
      if hook_disabled cfg then None
      else
        match agent_detection st ev with
        | Some _ => None
        | None =>
            match pin_pack cfg env (session_id ev)
                    {| mem := st; state_dirty := false |} with
            | None => None
            | Some (_, m1) =>
                fst <$> route cfg env ev (extract_project_name (cwd ev)) m1
            end
        end
  | _ => None
  end.

(** The configuration with the flag of category [c] set to [v]. *)
Definition with_category_flag (c : string) (v : jval) (cfg : config) : config :=
  {| enabled := enabled cfg; active_pack := active_pack cfg;
     pack_rotation := pack_rotation cfg;
     annoyed_threshold := annoyed_threshold cfg;
     annoyed_window_seconds := annoyed_window_seconds cfg;
     categories := <[c := v]> (categories cfg) |}.

(** A [UserPromptSubmit] event of session [sid] without the delegated
    marker. *)
Definition is_prompt_of (sid : string) (ev : event) : bool :=
  String.eqb (hook_event_name ev) "UserPromptSubmit"
  && String.eqb (session_id ev) sid
  && negb (delegate_marked ev).

(** The timestamps recorded for session [sid]. *)
Definition recorded_prompts (sid : string) (st : state) : list Z :=
  default [] (all_ts st !! sid).

(** The file selected for category [c] by an invocation, if it selected
    one for that category. *)
Definition selected (c : string) (o : outcome) : option string :=
  if String.eqb (category o) c then snd <$> sound_file o else None.

(** The file most recently selected for [c] along a sequence of outcomes;
    [init] when the sequence has no selection for [c]. *)
Definition last_selected (c : string) (init : option string)
    (outs : list outcome) : option string :=
  foldl (fun acc o => match selected c o with Some f => Some f | None => acc end)
        init outs.

(** The text [n] occurs in [line]. *)
Definition mentions (n line : string) : Prop :=
  exists pre post, line = pre +:+ n +:+ post.

(** The value stored under [c] by the loop that builds [cat_enabled]. *)
Definition flag_of (cfg : config) (c : string) : bool :=
  String.eqb (PyStr.lower (py_str (default (JBool true) (categories cfg !! c)))) "true".

(** Suffix of [p] that follows its last slash ([acc] when there is none). *)
Fixpoint after_last (acc s : string) : string :=
  match s with
  | EmptyString => acc
  | String a r => if Ascii.eqb a "/" then after_last r r else after_last acc r
  end.

(** ** The pause marker commands *)

(** The commands act on the existence of [PAUSED_FILE] alone. *)
Record marker_result := {
  marker_after : bool;                  (* PAUSED_FILE exists afterwards *)
  marker_stdout : list string;
}.

Definition cmd_pause (marker : bool) : marker_result :=
  {| marker_after := true; marker_stdout := ["peon-ping: sounds paused"] |}.

(** [os.remove] fails on a missing file; the [OSError] is swallowed. *)
Definition cmd_resume (marker : bool) : marker_result :=
  {| marker_after := false; marker_stdout := ["peon-ping: sounds resumed"] |}.

Definition cmd_toggle (marker : bool) : marker_result :=
  if marker then cmd_resume marker else cmd_pause marker.

Definition cmd_status (marker : bool) : marker_result :=
  {| marker_after := marker;
     marker_stdout := [if marker then "peon-ping: paused" else "peon-ping: active"] |}.

(** ** Cycling through the packs *)

(** The installation after a run of [cmd_pack]. *)
Definition after_cmd_pack {value : Type} (fs : @pack_fs value)
    (r : @cli_result value) : @pack_fs value :=
  {| config_file := cli_config r; installed := installed fs;
     display_name := display_name fs |}.

(** [n] runs of [peon --pack], one after the other. *)
Fixpoint cycle_packs {value : Type} (of_str : string -> value)
    (to_str : value -> option string) (n : nat) (fs : @pack_fs value)
    : @pack_fs value :=
  match n with
  | O => fs
  | S k =>
      cycle_packs of_str to_str k
        (after_cmd_pack fs (cmd_pack of_str to_str fs None))
  end.

(** [cfg.get('active_pack', 'peon')] when it is a string. *)
Definition active_name {value : Type} (to_str : value -> option string)
    (fs : @pack_fs value) : option string :=
  match default ∅ (config_file fs) !! "active_pack" with
  | Some v => to_str v
  | None => Some "peon"
  end.

(** ** Update check *)

(** What [urllib.request.urlopen] gives: an exception, or the remote
    [VERSION] decoded and stripped. *)
Inductive fetch_result :=
  | FetchFailed
  | Fetched (remote_version : string).

Definition stamp (t : Z) (fs : update_files) : update_files :=
  {| last_update_check := Some (Some t); VERSION := VERSION fs;
     update_available := update_available fs |}.

Definition set_update_available (v : option string) (fs : update_files)
    : update_files :=
  {| last_update_check := last_update_check fs; VERSION := VERSION fs;
     update_available := v |}.

(** [check_for_updates] at time [t] (in seconds): the files afterwards, and
    whether the remote version was requested. *)
Definition check_for_updates (t : Z) (fetch : fetch_result) (fs : update_files)
    : update_files * bool :=
  let last_check :=
    match last_update_check fs with
    | Some (Some n) => n
    | _ => 0%Z
    end in
  if (t - last_check <=? 86400)%Z then (fs, false)
  else
    let fs1 := stamp t fs in
    let local_version := default "" (VERSION fs) in
    match fetch with
    | FetchFailed => (fs1, true)
    | Fetched remote_version =>
        if PyStr.truthy remote_version && PyStr.truthy local_version
           && negb (String.eqb remote_version local_version)
        then (set_update_available (Some remote_version) fs1, true)
        else (set_update_available None fs1, true)
    end.

(** ** Popups *)

(** The directory of the popup slots: the slots that exist, and the slots
    that [os.mkdir] refuses for another reason (no permission, no space, a
    directory that cannot be written at all). *)
Record slot_dir := {
  taken : gset nat;
  refused : nat -> bool;
}.

(** [os.mkdir(slot_path)] returns; otherwise it raises [OSError]. *)
Definition mkdir_ok (d : slot_dir) (slot : nat) : bool :=
  negb (bool_decide (slot ∈ taken d)) && negb (refused d slot).

(** The directory after [os.mkdir] has created a slot. *)
Definition with_slot (s : nat) (d : slot_dir) : slot_dir :=
  {| taken := {[s]} ∪ taken d; refused := refused d |}.

(** The slot loop of [send_notification], [while True] with a [break] on the
    first [os.mkdir] that returns, run for at most [fuel] iterations from
    [slot]; [None]: the loop is still running after [fuel] iterations. *)
Fixpoint find_slot_from (fuel : nat) (d : slot_dir) (slot : nat) : option nat :=
  match fuel with
  | O => None
  | S k => if mkdir_ok d slot then Some slot else find_slot_from k d (S slot)
  end.

Definition find_slot (fuel : nat) (d : slot_dir) : option nat :=
  find_slot_from fuel d 0.

Definition y_offset (slot : nat) : nat := 40 + slot * 90.

(** [s.replace("'", "''")] *)
Fixpoint double_single_quotes (s : string) : string :=
  match s with
  | EmptyString => EmptyString
  | String c r =>
      if Ascii.eqb c "'" then String c (String c (double_single_quotes r))
      else String c (double_single_quotes r)
  end.

(** The AppleScript line of the mac branch. *)
Definition mac_script (msg ttl : string) : string :=
  "display notification " +:+ dquote +:+ msg +:+ dquote +:+ " with title "
  +:+ dquote +:+ ttl +:+ dquote.

(** The label assignment of the PowerShell popup. *)
Definition ps_label_text (msg : string) : string :=
  "  $label.Text = '" +:+ double_single_quotes msg +:+ "'; ".

(** Number of occurrences of a character. *)
Fixpoint count_char (c : ascii) (s : string) : nat :=
  match s with
  | EmptyString => 0
  | String a r => (if Ascii.eqb a c then 1 else 0) + count_char c r
  end.

(** The title decided by the routing table for a parsed event. *)
Definition title_of (ev : event) : option string :=
  let project := extract_project_name (cwd ev) in
  if String.eqb (hook_event_name ev) "SessionStart" then Some (project +:+ ": ready")
  else if String.eqb (hook_event_name ev) "UserPromptSubmit"
  then Some (project +:+ ": working")
  else if notifying ev then Some (bullet +:+ project +:+ ": " +:+ status_of ev)
  else None.

(** The gates in front of the routing. *)
Definition reaches_routing (cfg : config) (st : state) (ev : event) : bool :=
  negb (hook_disabled cfg) && negb (delegate_marked ev)
  && negb (bool_decide (session_id ev ∈ agent_sessions st)).

(** A [SessionStart] that gets past the kill switch and agent detection. *)
Definition routed_session_start (cfg : config) (st : state)
    (input : stdin_data) : bool :=
  match input with
  | StdinEvent ev =>
      String.eqb (hook_event_name ev) "SessionStart" && reaches_routing cfg st ev
  | _ => false
  end.

(** A decimal digit or the minus sign: the characters of [str(n)] for an
    integer [n]. *)
Definition digit_or_dash (c : ascii) : bool :=
  (Nat.leb 48 (nat_of_ascii c) && Nat.leb (nat_of_ascii c) 57) || Ascii.eqb c "-".

(** The conditions under which [main] calls [send_notification]. *)
Definition popup_due (cfg : config) (env : environment) (st : state)
    (input : stdin_data) : bool :=
  match input with
  | StdinEvent ev =>
      negb (hook_disabled cfg)
      && negb (delegate_marked ev)
      && negb (bool_decide (session_id ev ∈ agent_sessions st))
      && notifying ev
      && negb (paused env)
      && negb (bool_decide (PLATFORM env = Windows))
      && negb (terminal_is_focused env)
  | _ => false
  end.

(** The outcome put together by [main] once the event has been routed:
    the part of [handle_event] that follows the routing. *)
Definition assemble (cfg : config) (env : environment) (st : state)
    (ev : event) (pack : string) (r : routing) (m2 : memory) : outcome :=
  let project := extract_project_name (cwd ev) in
  let c := enabled_category cfg (r_category r) in
  let picked :=
    if PyStr.truthy c && negb (paused env)
    then pick_sound env pack c (mem m2) else None in
  let m3 :=
    match picked with
    | Some (_, st') => {| mem := st'; state_dirty := true |}
    | None => m2
    end in
  let ttl := r_marker r +:+ project +:+ ": " +:+ r_status r in
  {| exit_code := 0;
     disk := if state_dirty m3 then mem m3 else st;
     category := c;
     sound_file := (fun p => (pack, file (fst p))) <$> picked;
     played :=
       match picked with
       | Some (s, _) => sound_isfile env pack (file s)
       | None => false
       end;
     title := if PyStr.strip_truthy ttl then Some ttl else None;
     notification :=
       if PyStr.truthy (r_notify r) && negb (paused env)
          && negb (bool_decide (PLATFORM env = Windows))
       then
         if negb (terminal_is_focused env)
         then Some {| popup_msg := r_msg r; popup_title := ttl;
                      popup_color :=
                        if PyStr.truthy (r_notify_color r)
                        then r_notify_color r else "red" |}
         else None
       else None;
     stderr := session_start_notices ev env |}.

(** * Properties *)

(** ** The embedding on the inputs of the test suite *)

Example project_name_unix :
  extract_project_name "/Users/dev/my-cool-project" = "my-cool-project".
Proof. reflexivity. Qed.

Example project_name_trailing_slash : extract_project_name "/tmp/p/" = "claude".
Proof. reflexivity. Qed.

Example project_name_stripped : extract_project_name "/tmp/my$proj(1)" = "myproj1".
Proof. reflexivity. Qed.

Example stop_picks_complete_sound :
  let o := main Fixture.DEFAULT_CONFIG (Fixture.env_at 100) empty_state
             (StdinEvent (Fixture.ev "Stop" "" "s1" "default")) in
  last_played (disk o) !! "complete" = Some "Done1.wav"
  /\ title o = Some "● myproject: done".
Proof. vm_compute. split; reflexivity. Qed.

Example idle_prompt_no_sound :
  let o := main Fixture.DEFAULT_CONFIG (Fixture.env_at 100) empty_state
             (StdinEvent (Fixture.ev "Notification" "idle_prompt" "s1" "default")) in
  last_played (disk o) = ∅ /\ sound_file o = None.
Proof. vm_compute. split; reflexivity. Qed.

(** ** Auxiliary facts *)

Ltac case_eqb :=
  match goal with
  | |- context [String.eqb ?a ?b] => destruct (String.eqb_spec a b)
  | H : context [String.eqb ?a ?b] |- _ => destruct (String.eqb_spec a b)
  end.

Ltac case_eqb_goal :=
  match goal with
  | |- context [String.eqb ?a ?b] => destruct (String.eqb_spec a b)
  end.

Lemma truthy_false s : PyStr.truthy s = false <-> s = "".
Proof.
  unfold PyStr.truthy. destruct (String.eqb_spec s ""); simpl; split; congruence.
Qed.

Lemma truthy_true s : PyStr.truthy s = true <-> s <> "".
Proof.
  unfold PyStr.truthy. destruct (String.eqb_spec s ""); simpl; split; congruence.
Qed.

Lemma choice_cons {A} rnd (x : A) l :
  exists y, PyStr.choice rnd (x :: l) = Some y /\ y ∈ x :: l.
Proof.
  unfold PyStr.choice.
  destruct (lookup_lt_is_Some_2 (x :: l) (rnd mod length (x :: l))) as [y Hy].
  - apply Nat.mod_upper_bound. simpl. lia.
  - exists y. split; [exact Hy|]. eapply list_elem_of_lookup_2, Hy.
Qed.

Lemma choice_elem {A} rnd (l : list A) y : PyStr.choice rnd l = Some y -> y ∈ l.
Proof.
  destruct l as [|x l]; [discriminate|].
  unfold PyStr.choice. intros H. eapply list_elem_of_lookup_2, H.
Qed.

(** The pack-rotation step never fails and touches [session_packs] only. *)
Lemma pin_pack_total cfg env sid m :
  exists pack m1,
    pin_pack cfg env sid m = Some (pack, m1)
    /\ agent_sessions (mem m1) = agent_sessions (mem m)
    /\ prompt_timestamps (mem m1) = prompt_timestamps (mem m)
    /\ last_played (mem m1) = last_played (mem m).
Proof.
  unfold pin_pack. destruct (pack_rotation cfg) as [|x l] eqn:Hrot.
  - eauto 10.
  - destruct (choice_cons (rnd_pack env) x l) as (y & Hy & _).
    rewrite Hy. simpl.
    destruct (session_packs (mem m) !! sid) as [p|]; [|eauto 10].
    case_bool_decide; eauto 10.
Qed.

(** The routing touches [prompt_timestamps] only. *)
Lemma route_frame cfg env ev project m r m' :
  route cfg env ev project m = Some (r, m') ->
  agent_sessions (mem m') = agent_sessions (mem m)
  /\ session_packs (mem m') = session_packs (mem m)
  /\ last_played (mem m') = last_played (mem m).
Proof.
  unfold route. intros H.
  repeat (case_eqb; lazy iota beta in H);
    try destruct (cat_get cfg "annoyed");
    try discriminate; inversion H; subst; auto.
Qed.

(** The sound selector touches [last_played] only. *)
Lemma pick_sound_frame env pack c st s st' :
  pick_sound env pack c st = Some (s, st') ->
  agent_sessions st' = agent_sessions st
  /\ session_packs st' = session_packs st
  /\ prompt_timestamps st' = prompt_timestamps st
  /\ last_played st' = <[c := file s]> (last_played st).
Proof.
  unfold pick_sound. intros H.
  destruct (manifests env pack) as [mf|]; [|discriminate].
  cbv zeta in H.
  destruct (default [] (mf !! c)) as [|x l]; [discriminate|].
  destruct (PyStr.choice _ _) as [pick|]; [|discriminate].
  inversion H; subst. auto.
Qed.

(** The runs of a sequence, one by one. *)
Lemma run_lookup st invs k i :
  invs !! k = Some i ->
  run st invs !! k = Some (invoke (state_after st (take k invs)) i).
Proof.
  revert st k. induction invs as [|j invs IH]; intros st k H; [discriminate|].
  destruct k as [|k]; simpl in *.
  - inversion H; subst. reflexivity.
  - apply IH, H.
Qed.

Lemma run_length st invs : length (run st invs) = length invs.
Proof. revert st. induction invs; intros; simpl; auto. Qed.

Lemma take_run st invs k : take k (run st invs) = run st (take k invs).
Proof.
  revert st k. induction invs as [|j invs IH]; intros st [|k]; simpl; auto.
  f_equal. apply IH.
Qed.

Lemma state_after_snoc st invs i :
  state_after st (invs ++ [i]) = disk (invoke (state_after st invs) i).
Proof. unfold state_after. rewrite foldl_app. reflexivity. Qed.

(** When agent detection lets the event through, the outcome is assembled
    from the three later steps. *)
Lemma handle_event_passed cfg env st ev :
  agent_detection st ev = None ->
  exists pack m1,
    pin_pack cfg env (session_id ev) {| mem := st; state_dirty := false |}
      = Some (pack, m1)
    /\ agent_sessions (mem m1) = agent_sessions st
    /\ prompt_timestamps (mem m1) = prompt_timestamps st
    /\ last_played (mem m1) = last_played st
    /\ handle_event cfg env st ev =
       match route cfg env ev (extract_project_name (cwd ev)) m1 with
       | None => silent_exit 0 st
       | Some (r, m2) =>
           let c := enabled_category cfg (r_category r) in
           let picked :=
             if PyStr.truthy c && negb (paused env)
             then pick_sound env pack c (mem m2) else None in
           let m3 :=
             match picked with
             | Some (_, st') => {| mem := st'; state_dirty := true |}
             | None => m2
             end in
           let ttl := r_marker r +:+ extract_project_name (cwd ev) +:+ ": "
                      +:+ r_status r in
           {| exit_code := 0;
              disk := if state_dirty m3 then mem m3 else st;
              category := c;
              sound_file := (fun p => (pack, file (fst p))) <$> picked;
              played :=
                match picked with
                | Some (s, _) => sound_isfile env pack (file s)
                | None => false
                end;
              title := if PyStr.strip_truthy ttl then Some ttl else None;
              notification :=
                if PyStr.truthy (r_notify r) && negb (paused env)
                   && negb (bool_decide (PLATFORM env = Windows))
                then
                  if negb (terminal_is_focused env)
                  then Some {| popup_msg := r_msg r; popup_title := ttl;
                               popup_color :=
                                 if PyStr.truthy (r_notify_color r)
                                 then r_notify_color r else "red" |}
                  else None
                else None;
              stderr := session_start_notices ev env |}
       end.
Proof.
  intros Ha.
  destruct (pin_pack_total cfg env (session_id ev) {| mem := st; state_dirty := false |})
    as (pack & m1 & Hp & H1 & H2 & H3).
  exists pack, m1. repeat split; auto.
  unfold handle_event. rewrite Ha, Hp. reflexivity.
Qed.

(** Agent detection, case by case. *)
Lemma agent_detection_delegate st ev :
  permission_mode ev = "delegate" ->
  agent_detection st ev =
    Some (silent_exit 0
            (set_agent_sessions ({[session_id ev]} ∪ agent_sessions st) st)).
Proof. intros H. unfold agent_detection. rewrite H. reflexivity. Qed.

Lemma agent_detection_known st ev :
  session_id ev ∈ agent_sessions st ->
  agent_detection st ev =
    Some (silent_exit 0
            (if bool_decide (permission_mode ev = "delegate")
             then set_agent_sessions ({[session_id ev]} ∪ agent_sessions st) st
             else st)).
Proof.
  intros H. case_bool_decide as Hd.
  - apply agent_detection_delegate, Hd.
  - unfold agent_detection.
    assert (bool_decide (permission_mode ev ∈ agent_modes) = false) as ->.
    { apply bool_decide_eq_false. unfold agent_modes.
      rewrite list_elem_of_singleton. assumption. }
    rewrite andb_false_r. rewrite bool_decide_eq_true_2; auto.
Qed.

Lemma agent_detection_none st ev :
  permission_mode ev <> "delegate" ->
  session_id ev ∉ agent_sessions st ->
  agent_detection st ev = None.
Proof.
  intros Hd Hs. unfold agent_detection.
  assert (bool_decide (permission_mode ev ∈ agent_modes) = false) as ->.
  { apply bool_decide_eq_false. unfold agent_modes.
    rewrite list_elem_of_singleton. assumption. }
  rewrite andb_false_r. rewrite bool_decide_eq_false_2; auto.
Qed.

Lemma delegate_marked_true ev : delegate_marked ev = true <-> permission_mode ev = "delegate".
Proof. unfold delegate_marked. destruct (String.eqb_spec (permission_mode ev) "delegate"); split; congruence. Qed.

Lemma agent_detection_cases st ev :
  agent_detection st ev =
    if delegate_marked ev then Some (silent_exit 0 (record_agent ev st))
    else if bool_decide (session_id ev ∈ agent_sessions st)
         then Some (silent_exit 0 st) else None.
Proof.
  unfold delegate_marked.
  destruct (String.eqb_spec (permission_mode ev) "delegate") as [Hd|Hd].
  - apply agent_detection_delegate, Hd.
  - case_bool_decide as Hs.
    + rewrite (agent_detection_known _ _ Hs). rewrite bool_decide_eq_false_2; auto.
    + apply agent_detection_none; auto.
Qed.

Lemma route_unrouted cfg env ev project m :
  unrouted ev = true -> route cfg env ev project m = None.
Proof.
  unfold unrouted, route, known_event_names. intros H.
  repeat (case_eqb_goal; lazy iota beta);
    try reflexivity;
    exfalso;
    repeat match goal with
           | E : hook_event_name ev = _ |- _ => rewrite E in H; clear E
           | E : notification_type ev = _ |- _ => rewrite E in H; clear E
           end;
    vm_compute in H; discriminate.
Qed.

(** What an event that passed agent detection leaves in [agent_sessions]. *)
Lemma handle_event_agent_sessions cfg env st ev :
  agent_detection st ev = None ->
  agent_sessions (disk (handle_event cfg env st ev)) = agent_sessions st.
Proof.
  intros Ha.
  destruct (handle_event_passed cfg env st ev Ha) as (pack & m1 & _ & H1 & _ & _ & ->).
  destruct (route _ _ _ _ _) as [[r m2]|] eqn:Hr; [|reflexivity].
  apply route_frame in Hr as (Hr & _). cbv zeta.
  destruct (PyStr.truthy _ && negb _); simpl.
  - destruct (pick_sound _ _ _ _) as [[s st']|] eqn:Hp; simpl.
    + apply pick_sound_frame in Hp as (Hp & _). congruence.
    + destruct (state_dirty m2); congruence.
  - destruct (state_dirty m2); congruence.
Qed.

(** [agent_sessions] only grows. *)
Lemma agent_sessions_grow st i :
  agent_sessions st ⊆ agent_sessions (disk (invoke st i)).
Proof.
  unfold invoke, main.
  destruct (inv_input i) as [| | | | |ev]; try reflexivity;
    try (destruct (hook_disabled _); reflexivity).
  destruct (hook_disabled _); [reflexivity|].
  destruct (agent_detection st ev) as [o|] eqn:Ha.
  - unfold handle_event. rewrite Ha.
    rewrite agent_detection_cases in Ha.
    destruct (delegate_marked ev).
    + inversion Ha; subst. simpl. apply union_subseteq_r.
    + case_bool_decide; inversion Ha; subst. reflexivity.
  - rewrite handle_event_agent_sessions; [reflexivity|exact Ha].
Qed.

Lemma agent_sessions_grow_run st invs sid :
  sid ∈ agent_sessions st -> sid ∈ agent_sessions (state_after st invs).
Proof.
  revert st. induction invs as [|i invs IH]; intros st H; [exact H|].
  simpl. apply IH. eapply agent_sessions_grow, H.
Qed.

(** An event of a recorded agent session ends at agent detection. *)
Lemma recorded_session_short_circuits cfg env st ev :
  session_id ev ∈ agent_sessions st ->
  let o := main cfg env st (StdinEvent ev) in
  exit_code o = 0%Z /\ category o = "" /\ sound_file o = None /\ played o = false
  /\ notification o = None /\ title o = None
  /\ agent_sessions (disk o) = agent_sessions st
  /\ last_played (disk o) = last_played st
  /\ session_packs (disk o) = session_packs st
  /\ prompt_timestamps (disk o) = prompt_timestamps st.
Proof.
  intros Hs. simpl.
  destruct (hook_disabled cfg); [repeat split; reflexivity|].
  unfold handle_event. rewrite (agent_detection_known _ _ Hs).
  case_bool_decide; simpl; repeat split; try reflexivity.
  apply set_eq. intros x. rewrite elem_of_union, elem_of_singleton.
  split; [intros [->|H']; assumption | auto].
Qed.

(** ** The kill switch *)

(** C10.  When the [enabled] field of the configuration stringifies,
    ignoring case, to "false", a hook invocation exits with code 0 whatever
    its input is (the event is not looked at) and leaves the state document
    as it was; in particular an event that carries the delegated marker is
    not recorded in [agent_sessions]. *)
Theorem kill_switch_stops_every_invocation cfg env st input :
  PyStr.lower (py_str (default (JBool true) (enabled cfg))) = "false" ->
  main cfg env st input = silent_exit 0 st
  /\ exit_code (main cfg env st input) = 0%Z
  /\ disk (main cfg env st input) = st
  /\ (forall ev, input = StdinEvent ev -> delegate_marked ev = true ->
        session_id ev ∉ agent_sessions st ->
        session_id ev ∉ agent_sessions (disk (main cfg env st input))).
Proof.
  intros H.
  assert (hook_disabled cfg = true) as Hk.
  { unfold hook_disabled. rewrite H. reflexivity. }
  assert (main cfg env st input = silent_exit 0 st) as E.
  { unfold main. rewrite Hk. destruct input; reflexivity. }
  rewrite E. simpl. auto.
Qed.

Lemma kill_switch_witness :
  let cfg := Fixture.with_enabled (JStr "FALSE") Fixture.DEFAULT_CONFIG in
  let input := StdinEvent (Fixture.ev "SessionStart" "" "agent1" "delegate") in
  PyStr.lower (py_str (default (JBool true) (enabled cfg))) = "false"
  /\ main cfg (Fixture.env_at 100) empty_state input = silent_exit 0 empty_state.
Proof.
  split; [reflexivity|].
  apply (kill_switch_stops_every_invocation
           (Fixture.with_enabled (JStr "FALSE") Fixture.DEFAULT_CONFIG)
           (Fixture.env_at 100) empty_state
           (StdinEvent (Fixture.ev "SessionStart" "" "agent1" "delegate"))).
  reflexivity.
Defined.

(** ** Agent detection *)

(** C3, as stated, fails: the kill switch is consulted before the event is
    parsed, so that under [enabled = false] an event that carries the
    delegated marker is not recorded in [agent_sessions]. *)
Lemma delegate_event_unrecorded_when_disabled :
  let cfg := Fixture.with_enabled (JBool false) Fixture.DEFAULT_CONFIG in
  let ev := Fixture.ev "SessionStart" "" "agent1" "delegate" in
  let o := main cfg (Fixture.env_at 100) empty_state (StdinEvent ev) in
  delegate_marked ev = true
  /\ (session_id ev ∉ agent_sessions (disk o))
  /\ disk o = empty_state.
Proof.
  cbv zeta. split; [reflexivity|]. split; [|reflexivity].
  apply not_elem_of_empty.
Qed.

(** C3, amended.  While the hook is enabled, an event whose
    [permission_mode] is the delegated marker has its session id added to
    [agent_sessions] and the invocation stops there: exit code 0, no
    category, sound, notification or title, and [last_played],
    [session_packs] and [prompt_timestamps] exactly as before.  Every later
    invocation that carries the same session id, after any runs in between
    and whatever its configuration, leaves these three fields as it found
    them and yields no category, sound, notification or title. *)
Theorem delegated_session_is_recorded_and_silent cfg env st ev :
  PyStr.lower (py_str (default (JBool true) (enabled cfg))) <> "false" ->
  delegate_marked ev = true ->
  let o := main cfg env st (StdinEvent ev) in
  (session_id ev ∈ agent_sessions (disk o)
   /\ exit_code o = 0%Z /\ category o = "" /\ sound_file o = None
   /\ played o = false /\ notification o = None /\ title o = None
   /\ last_played (disk o) = last_played st
   /\ session_packs (disk o) = session_packs st
   /\ prompt_timestamps (disk o) = prompt_timestamps st)
  /\ forall invs k i ev',
       invs !! k = Some i ->
       inv_input i = StdinEvent ev' ->
       session_id ev' = session_id ev ->
       let before := state_after (disk o) (take k invs) in
       let o' := invoke before i in
       run (disk o) invs !! k = Some o'
       /\ exit_code o' = 0%Z /\ category o' = "" /\ sound_file o' = None
       /\ played o' = false /\ notification o' = None /\ title o' = None
       /\ last_played (disk o') = last_played before
       /\ session_packs (disk o') = session_packs before
       /\ prompt_timestamps (disk o') = prompt_timestamps before.
Proof.
  intros Hen0 Hd. cbv zeta.
  assert (hook_disabled cfg = false) as Hen
    by (unfold hook_disabled; apply String.eqb_neq; exact Hen0).
  assert (main cfg env st (StdinEvent ev) = silent_exit 0 (record_agent ev st)) as E.
  { unfold main. rewrite Hen. unfold handle_event.
    rewrite agent_detection_cases, Hd. reflexivity. }
  rewrite E. simpl.
  assert (session_id ev ∈ {[session_id ev]} ∪ agent_sessions st) as Hin.
  { apply elem_of_union_l, elem_of_singleton. reflexivity. }
  split; [repeat split; auto|].
  intros invs k i ev' Hk Hi Hsid.
  split; [apply run_lookup, Hk|].
  unfold invoke. rewrite Hi.
  pose proof (recorded_session_short_circuits (inv_cfg i) (inv_env i)
                (state_after (record_agent ev st) (take k invs)) ev') as R.
  cbv zeta in R. rewrite Hsid in R.
  destruct R as (R1 & R2 & R3 & R4 & R5 & R6 & _ & R8 & R9 & R10).
  { apply agent_sessions_grow_run. exact Hin. }
  repeat split; assumption.
Qed.

Lemma delegated_session_witness :
  let ev := Fixture.ev "SessionStart" "" "agent2" "delegate" in
  let later := Fixture.ev "Notification" "permission_prompt" "agent2" "" in
  let o := main Fixture.DEFAULT_CONFIG (Fixture.env_at 100) empty_state (StdinEvent ev) in
  let o' := main Fixture.DEFAULT_CONFIG (Fixture.env_at 101) (disk o) (StdinEvent later) in
  PyStr.lower (py_str (default (JBool true) (enabled Fixture.DEFAULT_CONFIG))) <> "false"
  /\ delegate_marked ev = true
  /\ "agent2" ∈ agent_sessions (disk o)
  /\ last_played (disk o') = last_played (disk o)
  /\ title o' = None.
Proof.
  assert (PyStr.lower (py_str (default (JBool true) (enabled Fixture.DEFAULT_CONFIG)))
          <> "false") as Hen by (vm_compute; discriminate).
  pose proof (delegated_session_is_recorded_and_silent Fixture.DEFAULT_CONFIG
                (Fixture.env_at 100) empty_state
                (Fixture.ev "SessionStart" "" "agent2" "delegate")
                Hen eq_refl) as [H1 H2].
  specialize (H2 [{| inv_cfg := Fixture.DEFAULT_CONFIG;
                     inv_env := Fixture.env_at 101;
                     inv_input := StdinEvent
                       (Fixture.ev "Notification" "permission_prompt" "agent2" "") |}]
                0 _ _ eq_refl eq_refl eq_refl).
  cbv zeta. split; [exact Hen|]. split; [reflexivity|].
  split; [apply H1|]. split; apply H2.
Defined.

(** ** Inputs that are not routed *)




(** ** Project name *)

Lemma append_nil_l (s : string) : "" +:+ s = s.
Proof. reflexivity. Qed.

Lemma append_cons a (s t : string) : String a s +:+ t = String a (s +:+ t).
Proof. reflexivity. Qed.

Lemma append_assoc (a b c : string) : (a +:+ b) +:+ c = a +:+ (b +:+ c).
Proof.
  induction a as [|x a IH]; [reflexivity|].
  rewrite !append_cons, IH. reflexivity.
Qed.

Lemma drop_app_length (a b : string) : PyStr.drop (String.length a) (a +:+ b) = b.
Proof.
  induction a as [|x a IH]; [destruct b; reflexivity|].
  rewrite append_cons. simpl. exact IH.
Qed.

Lemma length_snoc (a : string) c :
  String.length (a +:+ String c EmptyString) = S (String.length a).
Proof.
  induction a as [|x a IH]; [reflexivity|].
  rewrite append_cons. simpl. congruence.
Qed.

Lemma rfind_from_drop s : forall pre i last,
  i = Z.of_nat (String.length pre) ->
  (-1 <= last < i)%Z ->
  PyStr.drop (Z.to_nat (PyStr.rfind_from "/" s i last + 1)) (pre +:+ s)
  = after_last (PyStr.drop (Z.to_nat (last + 1)) (pre +:+ s)) s.
Proof.
  induction s as [|a r IH]; intros pre i last Hi Hl; simpl; [reflexivity|].
  replace (pre +:+ String a r) with ((pre +:+ String a EmptyString) +:+ r)
    by (rewrite append_assoc; reflexivity).
  destruct (Ascii.eqb a "/") eqn:E.
  - rewrite (IH (pre +:+ String a EmptyString) (i + 1)%Z i).
    + replace (Z.to_nat (i + 1)) with (String.length (pre +:+ String a EmptyString))
        by (rewrite length_snoc; lia).
      rewrite drop_app_length. reflexivity.
    + rewrite length_snoc. lia.
    + lia.
  - apply IH.
    + rewrite length_snoc. lia.
    + lia.
Qed.

Lemma basename_after_last p : PyStr.basename p = after_last p p.
Proof.
  unfold PyStr.basename, PyStr.rfind.
  pose proof (rfind_from_drop p EmptyString 0%Z (-1)%Z eq_refl) as H.
  simpl in H. apply H. lia.
Qed.

Lemma split_on_cons sep s : exists seg rest, split_on sep s = seg :: rest.
Proof.
  induction s as [|a r (seg & rest & IH)]; simpl; [eauto|].
  destruct (Ascii.eqb a sep); [eauto|]. rewrite IH. eauto.
Qed.

Lemma split_on_single sep s x : split_on sep s = [x] -> x = s.
Proof.
  revert x. induction s as [|a r IH]; simpl; intros x H.
  - congruence.
  - destruct (Ascii.eqb a sep).
    + destruct (split_on_cons sep r) as (seg & rest & E). rewrite E in H. discriminate.
    + destruct (split_on_cons sep r) as (seg & rest & E). rewrite E in *.
      inversion H; subst. f_equal. apply IH. reflexivity.
Qed.

Lemma after_last_split s : forall acc,
  after_last acc s =
    match split_on "/" s with
    | [] | [_] => acc
    | l => List.last l ""
    end.
Proof.
  induction s as [|a r IH]; intros acc; simpl; [reflexivity|].
  destruct (Ascii.eqb a "/").
  - rewrite IH.
    destruct (split_on "/" r) as [|seg [|seg' rest]] eqn:E.
    + destruct (split_on_cons "/" r) as (? & ? & E'). congruence.
    + simpl. symmetry. apply split_on_single with (sep := "/"%char), E.
    + reflexivity.
  - rewrite IH.
    destruct (split_on "/" r) as [|seg [|seg' rest]] eqn:E; reflexivity.
Qed.

Lemma basename_last_segment p : PyStr.basename p = last_segment p.
Proof.
  rewrite basename_after_last, after_last_split. unfold last_segment.
  destruct (split_on "/" p) as [|seg [|seg' rest]] eqn:E.
  - destruct (split_on_cons "/" p) as (? & ? & E'). congruence.
  - simpl. symmetry. apply split_on_single with (sep := "/"%char), E.
  - reflexivity.
Qed.

Lemma in_class_allowed c : PyStr.in_class c = bool_decide (c ∈ allowed_chars).
Proof.
  destruct c as [[] [] [] [] [] [] [] []]; vm_compute; reflexivity.
Qed.

Lemma sub_outside_class_keep_allowed s : PyStr.sub_outside_class s = keep_allowed s.
Proof.
  unfold keep_allowed. induction s as [|c r IH]; simpl; [reflexivity|].
  rewrite in_class_allowed. destruct (bool_decide _); simpl; congruence.
Qed.

(** [extract_project_name] computes the project name of the specification. *)
Lemma extract_project_name_spec cwd : extract_project_name cwd = spec_project cwd.
Proof.
  unfold extract_project_name, spec_project, PyStr.truthy.
  rewrite <- basename_last_segment, <- sub_outside_class_keep_allowed.
  destruct (String.eqb_spec cwd "") as [->|Hc]; simpl; [reflexivity|].
  destruct (String.eqb_spec (PyStr.basename cwd) "") as [->|Hn]; simpl; [reflexivity|].
  destruct (String.eqb_spec (PyStr.sub_outside_class (PyStr.basename cwd)) "");
    reflexivity.
Qed.

(** ** Notifying events *)

(** The rows of the routing table that notify. *)
Lemma route_notifying cfg env ev project m :
  notifying ev = true ->
  route cfg env ev project m =
    Some ({| r_category := routed_category_of ev; r_status := status_of ev;
             r_marker := bullet; r_notify := "1";
             r_notify_color := color_of ev;
             r_msg := project +:+ dash +:+ label_of ev |}, m).
Proof.
  unfold notifying, route, routed_category_of, status_of, color_of, label_of,
    is_idle_prompt.
  repeat (case_eqb_goal; lazy iota beta);
    simpl; intros H; try discriminate H; try congruence; reflexivity.
Qed.

Lemma marked_title_not_blank (s : string) : PyStr.strip_truthy (bullet +:+ s) = true.
Proof. reflexivity. Qed.

(** What a notifying event that passed agent detection produces. *)
Lemma notifying_event_outcome cfg env st ev :
  agent_detection st ev = None ->
  notifying ev = true ->
  let o := handle_event cfg env st ev in
  let project := extract_project_name (cwd ev) in
  let ttl := bullet +:+ project +:+ ": " +:+ status_of ev in
  exit_code o = 0%Z
  /\ title o = Some ttl
  /\ (paused env = true -> sound_file o = None /\ played o = false)
  /\ notification o =
       if negb (paused env) && negb (bool_decide (PLATFORM env = Windows))
          && negb (terminal_is_focused env)
       then Some {| popup_msg := project +:+ dash +:+ label_of ev;
                    popup_title := ttl; popup_color := color_of ev |}
       else None.
Proof.
  intros Ha Hn.
  destruct (handle_event_passed cfg env st ev Ha) as (pack & m1 & _ & _ & _ & _ & E).
  cbv zeta. rewrite E. rewrite (route_notifying _ _ _ _ _ Hn). cbv zeta.
  cbn [exit_code title sound_file played notification r_marker r_status r_notify
       r_notify_color r_msg r_category].
  rewrite marked_title_not_blank.
  split; [reflexivity|]. split; [reflexivity|]. split.
  - intros ->. rewrite andb_false_r. split; reflexivity.
  - assert (PyStr.truthy "1" = true) as -> by reflexivity.
    assert (PyStr.truthy (color_of ev) = true) as ->.
    { unfold color_of. destruct (String.eqb _ _); [reflexivity|].
      destruct (is_idle_prompt ev); reflexivity. }
    destruct (paused env), (bool_decide (PLATFORM env = Windows)),
      (terminal_is_focused env); reflexivity.
Qed.

Lemma agent_detection_passes st ev :
  delegate_marked ev = false ->
  session_id ev ∉ agent_sessions st ->
  agent_detection st ev = None.
Proof.
  intros Hd Hs. rewrite agent_detection_cases, Hd.
  rewrite bool_decide_eq_false_2; auto.
Qed.

Lemma reaching_passes cfg st ev :
  reaches_routing cfg st ev = true ->
  hook_disabled cfg = false /\ agent_detection st ev = None.
Proof.
  unfold reaches_routing. intros H.
  apply andb_true_iff in H as [H H3]. apply andb_true_iff in H as [H1 H2].
  apply negb_true_iff in H1, H2, H3. split; [exact H1|].
  apply agent_detection_passes; [exact H2|].
  apply bool_decide_eq_false in H3. exact H3.
Qed.

(** An event stopped by the kill switch or by agent detection. *)
Lemma not_reaching_exits cfg env st ev :
  reaches_routing cfg st ev = false ->
  main cfg env st (StdinEvent ev) =
    silent_exit 0
      (if negb (hook_disabled cfg) && delegate_marked ev
       then record_agent ev st else st).
Proof.
  unfold reaches_routing, main. intros H.
  destruct (hook_disabled cfg); [reflexivity|].
  unfold handle_event. rewrite agent_detection_cases.
  destruct (delegate_marked ev); [reflexivity|].
  case_bool_decide; [reflexivity|discriminate H].
Qed.

(** The events of the routing table are routed. *)
Lemma route_routed cfg env ev project m :
  unrouted ev = false -> exists r m', route cfg env ev project m = Some (r, m').
Proof.
  unfold unrouted. intros H. apply orb_false_iff in H as [H1 H2].
  apply negb_false_iff, bool_decide_eq_true in H1.
  unfold known_event_names in H1. unfold route.
  repeat (apply elem_of_cons in H1 as [H1|H1]);
    [| | | | |apply elem_of_nil in H1; contradiction];
    rewrite H1 in *; cbn in H2 |- *.
  - eauto.
  - destruct (cat_get cfg "annoyed"); eauto.
  - eauto.
  - destruct (String.eqb (notification_type ev) "permission_prompt"); [eauto|].
    destruct (String.eqb (notification_type ev) "idle_prompt"); [eauto|].
    discriminate H2.
  - eauto.
Qed.

(** C9, as stated, fails: a notifying event of a session recorded in
    [agent_sessions] ends at agent detection, before the routing, so that
    no title is written for it, with or without the pause marker. *)
Lemma paused_agent_session_writes_no_title :
  let env := {| PLATFORM := Mac; paused := true; now := 100;
                frontmost_is_terminal := false; manifests := Fixture.packs;
                sound_isfile := fun _ _ => true; rnd_pack := 0; rnd_sound := 0;
                updates := Fixture.VERSION_ONLY |} in
  let st := set_agent_sessions {["bg1"]} empty_state in
  let ev := Fixture.ev "Stop" "" "bg1" "default" in
  let o := main Fixture.DEFAULT_CONFIG env st (StdinEvent ev) in
  paused env = true /\ notifying ev = true /\ title o = None.
Proof. cbv zeta. split; [reflexivity|]. split; [reflexivity|]. vm_compute. reflexivity. Qed.

(** C9, amended.  With the pause marker present, a notifying event (Stop,
    Notification/permission_prompt, Notification/idle_prompt,
    PermissionRequest) sends no popup and picks and plays no sound,
    whatever the configuration and the state are.  The terminal title of
    the event is still written when the event gets as far as the routing,
    that is when the hook is enabled, the event does not carry the
    delegated marker and its session is not recorded in [agent_sessions];
    otherwise no title is written. *)
Theorem paused_mutes_popup_and_sound_not_title cfg env st ev :
  paused env = true ->
  notifying ev = true ->
  let o := main cfg env st (StdinEvent ev) in
  notification o = None /\ sound_file o = None /\ played o = false
  /\ title o =
       if negb (hook_disabled cfg) && negb (delegate_marked ev)
          && negb (bool_decide (session_id ev ∈ agent_sessions st))
       then Some (bullet +:+ extract_project_name (cwd ev) +:+ ": " +:+ status_of ev)
       else None.
Proof.
  intros Hp Hn. cbv zeta.
  change (negb (hook_disabled cfg) && negb (delegate_marked ev)
          && negb (bool_decide (session_id ev ∈ agent_sessions st)))
    with (reaches_routing cfg st ev).
  destruct (reaches_routing cfg st ev) eqn:Hreach.
  - destruct (reaching_passes _ _ _ Hreach) as [Hen Ha].
    unfold main. rewrite Hen.
    pose proof (notifying_event_outcome cfg env st ev Ha Hn) as H.
    cbv zeta in H. destruct H as (_ & Ht & Hsnd & Hpop).
    destruct (Hsnd Hp) as [H1 H2].
    rewrite Hpop, Hp. simpl. auto.
  - rewrite (not_reaching_exits cfg env st ev Hreach). repeat split; reflexivity.
Qed.

Lemma paused_witness :
  let env := {| PLATFORM := Mac; paused := true; now := 100;
                frontmost_is_terminal := false; manifests := Fixture.packs;
                sound_isfile := fun _ _ => true; rnd_pack := 0; rnd_sound := 0;
                updates := Fixture.VERSION_ONLY |} in
  let ev := Fixture.ev "Notification" "permission_prompt" "s1" "default" in
  let o := main Fixture.DEFAULT_CONFIG env empty_state (StdinEvent ev) in
  paused env = true
  /\ notifying ev = true
  /\ notification o = None /\ sound_file o = None
  /\ title o = Some "● myproject: needs approval".
Proof.
  cbv zeta.
  pose proof (paused_mutes_popup_and_sound_not_title Fixture.DEFAULT_CONFIG
                {| PLATFORM := Mac; paused := true; now := 100;
                   frontmost_is_terminal := false; manifests := Fixture.packs;
                   sound_isfile := fun _ _ => true; rnd_pack := 0; rnd_sound := 0;
                   updates := Fixture.VERSION_ONLY |}
                empty_state
                (Fixture.ev "Notification" "permission_prompt" "s1" "default")
                eq_refl eq_refl) as H.
  cbv zeta in H. destruct H as (H1 & H2 & _ & H4).
  split; [reflexivity|]. split; [reflexivity|].
  split; [exact H1|]. split; [exact H2|]. rewrite H4. reflexivity.
Defined.

(** C6, as stated, fails: the message separates the project name from the
    label by two spaces, an em dash and two spaces, not by single spaces. *)
Lemma notification_message_is_not_single_spaced :
  let ev := Fixture.ev "Stop" "" "s1" "default" in
  let o := main Fixture.DEFAULT_CONFIG (Fixture.env_at 100) empty_state (StdinEvent ev) in
  notifying ev = true
  /\ spec_project (cwd ev) = "myproject"
  /\ label_of ev = "Task complete"
  /\ popup_msg <$> notification o = Some "myproject  —  Task complete"
  /\ popup_msg <$> notification o <> Some "myproject — Task complete".
Proof. cbv zeta. repeat split; try reflexivity. vm_compute. discriminate. Qed.

(** C6, amended.  For every notifying event the message built by the
    routing, which is the message of any popup the invocation sends, is the
    project name, two spaces, an em dash, two spaces, and the label of the
    event ("Task complete" for Stop, "Permission needed" for
    Notification/permission_prompt and PermissionRequest, "Waiting for
    input" for Notification/idle_prompt); the project name is the last path
    segment of [cwd] without the characters outside [A-Za-z0-9 ._-], and
    "claude" when [cwd] or the name so obtained is empty. *)
Theorem notification_message_format cfg env st ev :
  notifying ev = true ->
  extract_project_name (cwd ev) = spec_project (cwd ev)
  /\ (forall m, exists r,
        route cfg env ev (extract_project_name (cwd ev)) m = Some (r, m)
        /\ r_notify r = "1"
        /\ r_msg r = spec_project (cwd ev) +:+ "  —  " +:+ label_of ev)
  /\ (forall p, notification (main cfg env st (StdinEvent ev)) = Some p ->
        popup_msg p = spec_project (cwd ev) +:+ "  —  " +:+ label_of ev).
Proof.
  intros Hn. split; [apply extract_project_name_spec|]. split.
  - intros m. eexists. split; [apply route_notifying, Hn|].
    rewrite extract_project_name_spec. split; reflexivity.
  - intros p. unfold main. destruct (hook_disabled cfg); [discriminate|].
    destruct (agent_detection st ev) as [o|] eqn:Ha.
    + unfold handle_event. rewrite Ha. rewrite agent_detection_cases in Ha.
      destruct (delegate_marked ev); [inversion Ha; subst; discriminate|].
      case_bool_decide; inversion Ha; subst; discriminate.
    + pose proof (notifying_event_outcome cfg env st ev Ha Hn) as H.
      cbv zeta in H. destruct H as (_ & _ & _ & ->).
      destruct (_ && _); [|discriminate].
      intros E. inversion E; subst. simpl.
      rewrite extract_project_name_spec. reflexivity.
Qed.

Lemma notification_message_witness :
  let ev := {| hook_event_name := "Notification"; notification_type := "idle_prompt";
               cwd := "/home/dev/my proj#1"; session_id := "s1";
               permission_mode := "default" |} in
  notifying ev = true
  /\ popup_msg <$> notification (main Fixture.DEFAULT_CONFIG (Fixture.env_at 100)
                                  empty_state (StdinEvent ev))
     = Some "my proj1  —  Waiting for input".
Proof.
  cbv zeta. split; [reflexivity|].
  pose proof (notification_message_format Fixture.DEFAULT_CONFIG (Fixture.env_at 100)
                empty_state
                {| hook_event_name := "Notification"; notification_type := "idle_prompt";
                   cwd := "/home/dev/my proj#1"; session_id := "s1";
                   permission_mode := "default" |} eq_refl) as (_ & _ & H).
  destruct (notification _) as [p|] eqn:E; [|discriminate E].
  simpl. f_equal. apply (H p eq_refl).
Defined.

(** ** Per-category flags *)

Lemma foldl_insert_lookup {V} (f : string -> V) (l : list string) :
  forall (m : gmap string V) c,
    foldl (fun m c => <[c := f c]> m) m l !! c
    = if bool_decide (c ∈ l) then Some (f c) else m !! c.
Proof.
  induction l as [|x l IH]; intros m c; cbn [foldl].
  - rewrite bool_decide_eq_false_2; [reflexivity|]. apply not_elem_of_nil.
  - rewrite IH. destruct (decide (c ∈ l)) as [Hin|Hin].
    + rewrite !bool_decide_eq_true_2; auto. now apply list_elem_of_further.
    + rewrite (bool_decide_eq_false_2 _ Hin).
      destruct (decide (x = c)) as [->|Hne].
      * rewrite lookup_insert_eq. rewrite bool_decide_eq_true_2; [reflexivity|].
        apply list_elem_of_here.
      * rewrite lookup_insert_ne by exact Hne.
        rewrite bool_decide_eq_false_2; [reflexivity|].
        rewrite elem_of_cons. intros [->|?]; auto.
Qed.

Lemma cat_get_flag cfg c :
  cat_get cfg c = if bool_decide (c ∈ category_names) then flag_of cfg c else true.
Proof.
  unfold cat_get, cat_enabled.
  rewrite (foldl_insert_lookup (flag_of cfg) category_names ∅ c).
  case_bool_decide; reflexivity.
Qed.

Lemma cat_get_with_flag_same cfg c :
  cat_get (with_category_flag c (JBool true) cfg) c = true.
Proof.
  rewrite cat_get_flag. case_bool_decide; [|reflexivity].
  unfold flag_of. simpl. rewrite lookup_insert_eq. reflexivity.
Qed.

Lemma cat_get_with_flag_other cfg c v c' :
  c <> c' -> cat_get (with_category_flag c v cfg) c' = cat_get cfg c'.
Proof.
  intros Hne. rewrite !cat_get_flag. case_bool_decide; [|reflexivity].
  unfold flag_of. simpl. rewrite lookup_insert_ne by exact Hne. reflexivity.
Qed.

(** The routing reads the configuration through the flag of [annoyed], the
    window and the threshold only. *)
Lemma route_ext cfg cfg' env ev project m :
  cat_get cfg "annoyed" = cat_get cfg' "annoyed" ->
  annoyed_window_seconds cfg = annoyed_window_seconds cfg' ->
  annoyed_threshold cfg = annoyed_threshold cfg' ->
  route cfg env ev project m = route cfg' env ev project m.
Proof.
  intros Ha Hw Ht. unfold route, recent_prompts, window_of, threshold_of.
  rewrite Ha, Hw, Ht. reflexivity.
Qed.

Lemma pin_pack_ext cfg cfg' env sid m :
  active_pack cfg = active_pack cfg' ->
  pack_rotation cfg = pack_rotation cfg' ->
  pin_pack cfg env sid m = pin_pack cfg' env sid m.
Proof. intros Ha Hr. unfold pin_pack. rewrite Ha, Hr. reflexivity. Qed.

Lemma route_annoyed cfg env ev project m r m' :
  route cfg env ev project m = Some (r, m') ->
  r_category r = "annoyed" -> cat_get cfg "annoyed" = true.
Proof.
  unfold route. intros H Hc.
  repeat (case_eqb; lazy iota beta in H);
    try destruct (cat_get cfg "annoyed");
    try discriminate; try reflexivity;
    inversion H; subst; simpl in Hc; discriminate.
Qed.

Lemma all_space_colon (a b : string) : PyStr.all_space (a +:+ String ":" b) = false.
Proof.
  induction a as [|c a IH]; [reflexivity|].
  rewrite append_cons. simpl. rewrite IH. apply andb_false_r.
Qed.

(** The title of a routed event is never blank: it is always written. *)
Lemma title_not_blank (marker project status : string) :
  PyStr.strip_truthy (marker +:+ project +:+ ": " +:+ status) = true.
Proof.
  unfold PyStr.strip_truthy. rewrite <- append_assoc.
  change (": " +:+ status) with (String ":" (" " +:+ status)).
  rewrite all_space_colon. reflexivity.
Qed.

(** C5.  When the routing of an event resolves to a non-empty category
    whose flag is disabled in the configuration, the category retained is
    empty, no sound is picked or played and [last_played] is unchanged,
    while the exit code, the terminal title (which is written) and the
    notification are exactly those of the same invocation with the flag of
    that category enabled, where the category is retained. *)
Theorem disabled_category_is_dropped cfg env st input r :
  routed cfg env st input = Some r ->
  r_category r <> "" ->
  cat_get cfg (r_category r) = false ->
  let o := main cfg env st input in
  let o' := main (with_category_flag (r_category r) (JBool true) cfg) env st input in
  category o = "" /\ sound_file o = None /\ played o = false
  /\ last_played (disk o) = last_played st
  /\ category o' = r_category r
  /\ exit_code o = exit_code o'
  /\ is_Some (title o)
  /\ title o = title o'
  /\ notification o = notification o'.
Proof.
  intros H Hne Hflag. cbv zeta.
  destruct input as [| | | | |ev]; try discriminate H.
  unfold routed in H. unfold main.
  change (hook_disabled (with_category_flag (r_category r) (JBool true) cfg))
    with (hook_disabled cfg).
  destruct (hook_disabled cfg); [discriminate|].
  destruct (agent_detection st ev) as [?|] eqn:Ha; [discriminate|].
  destruct (handle_event_passed cfg env st ev Ha)
    as (pack & m1 & Hp & _ & _ & Hlp & ->).
  destruct (handle_event_passed (with_category_flag (r_category r) (JBool true) cfg)
              env st ev Ha) as (pack' & m1' & Hp' & _ & _ & _ & ->).
  rewrite (pin_pack_ext _ cfg) in Hp' by reflexivity.
  rewrite Hp in Hp'. inversion Hp'; subst pack' m1'. clear Hp'.
  rewrite Hp in H.
  destruct (route cfg env ev _ m1) as [[r' m2]|] eqn:Hr; [|discriminate].
  simpl in H. inversion H; subst r'. clear H.
  assert (r_category r <> "annoyed") as Hna.
  { intros E. pose proof (route_annoyed _ _ _ _ _ _ _ Hr E) as Hon.
    rewrite E in Hflag. congruence. }
  rewrite (route_ext _ cfg), Hr.
  2:{ apply cat_get_with_flag_other, Hna. }
  2,3: reflexivity.
  cbv zeta. unfold enabled_category.
  rewrite cat_get_with_flag_same, Hflag.
  apply truthy_true in Hne. rewrite Hne. simpl.
  rewrite title_not_blank.
  apply route_frame in Hr as (_ & _ & Hlp2).
  repeat split; try reflexivity.
  - destruct (state_dirty m2); congruence.
  - eexists; reflexivity.
Qed.

Lemma disabled_category_witness :
  let cfg := with_category_flag "greeting" (JBool false) Fixture.DEFAULT_CONFIG in
  let input := StdinEvent (Fixture.ev "SessionStart" "" "s1" "default") in
  let o := main cfg (Fixture.env_at 100) empty_state input in
  (r_category <$> routed cfg (Fixture.env_at 100) empty_state input) = Some "greeting"
  /\ cat_get cfg "greeting" = false
  /\ category o = "" /\ last_played (disk o) = ∅
  /\ title o = Some "myproject: ready".
Proof.
  cbv zeta.
  destruct (routed (with_category_flag "greeting" (JBool false) Fixture.DEFAULT_CONFIG)
              (Fixture.env_at 100) empty_state
              (StdinEvent (Fixture.ev "SessionStart" "" "s1" "default")))
    as [r|] eqn:Hr; [|discriminate Hr].
  assert (r_category r = "greeting") as Hc by (inversion Hr; reflexivity).
  assert (r_category r <> "") as Hne by (rewrite Hc; discriminate).
  assert (cat_get (with_category_flag "greeting" (JBool false) Fixture.DEFAULT_CONFIG)
            (r_category r) = false) as Hf by (rewrite Hc; reflexivity).
  pose proof (disabled_category_is_dropped _ _ _ _ r Hr Hne Hf) as H.
  cbv zeta in H. destruct H as (H1 & _ & _ & H4 & _).
  split; [simpl; f_equal; exact Hc|]. split; [reflexivity|].
  split; [exact H1|]. split; [exact H4|reflexivity].
Defined.

(** ** Rapid prompts *)

Lemma is_prompt_of_true sid ev :
  is_prompt_of sid ev = true ->
  hook_event_name ev = "UserPromptSubmit" /\ session_id ev = sid
  /\ delegate_marked ev = false.
Proof.
  unfold is_prompt_of. intros H.
  apply andb_true_iff in H as [H H3]. apply andb_true_iff in H as [H1 H2].
  apply String.eqb_eq in H1, H2. apply negb_true_iff in H3. auto.
Qed.

(** One [UserPromptSubmit] handled with the [annoyed] category enabled. *)
Lemma prompt_step cfg env st ev sid :
  hook_disabled cfg = false ->
  cat_get cfg "annoyed" = true ->
  is_prompt_of sid ev = true ->
  sid ∉ agent_sessions st ->
  let ts := recent_prompts cfg (now env) sid st in
  let o := main cfg env st (StdinEvent ev) in
  category o =
    (if (threshold_of cfg <=? Z.of_nat (length ts))%Z then "annoyed" else "")
  /\ recorded_prompts sid (disk o) = ts
  /\ agent_sessions (disk o) = agent_sessions st.
Proof.
  intros Hen Hann Hp Hs. cbv zeta.
  apply is_prompt_of_true in Hp as (Hname & Hsid & Hd). subst sid.
  pose proof (agent_detection_passes _ _ Hd Hs) as Ha.
  unfold main. rewrite Hen.
  rewrite <- (handle_event_agent_sessions cfg env st ev Ha).
  destruct (handle_event_passed cfg env st ev Ha)
    as (pack & m1 & _ & _ & Hts & _ & ->).
  assert (all_ts (mem m1) = all_ts st) as Hall by (unfold all_ts; rewrite Hts; reflexivity).
  unfold route. rewrite Hname.
  change (String.eqb "UserPromptSubmit" "SessionStart") with false.
  change (String.eqb "UserPromptSubmit" "UserPromptSubmit") with true.
  lazy iota beta. rewrite Hann. cbv zeta.
  assert (recent_prompts cfg (now env) (session_id ev) (mem m1)
          = recent_prompts cfg (now env) (session_id ev) st) as ->.
  { unfold recent_prompts. rewrite Hall. reflexivity. }
  rewrite Hall.
  set (ts := recent_prompts cfg (now env) (session_id ev) st).
  cbn [r_category r_status r_marker r_notify r_notify_color r_msg mem state_dirty].
  assert (enabled_category cfg
            (if (threshold_of cfg <=? Z.of_nat (length ts))%Z then "annoyed" else "")
          = if (threshold_of cfg <=? Z.of_nat (length ts))%Z then "annoyed" else "")
    as ->.
  { unfold enabled_category. destruct (_ <=? _)%Z; [|reflexivity].
    rewrite Hann. reflexivity. }
  split; [reflexivity|]. split; [|reflexivity].
  unfold recorded_prompts, all_ts.
  destruct (PyStr.truthy _ && negb _);
    [destruct (pick_sound _ _ _ _) as [[s st']|] eqn:Hpk|]; simpl.
  - apply pick_sound_frame in Hpk as (_ & _ & -> & _). simpl.
    rewrite lookup_insert_eq. reflexivity.
  - rewrite lookup_insert_eq. reflexivity.
  - rewrite lookup_insert_eq. reflexivity.
Qed.

Lemma recent_prompts_unfold cfg t sid st :
  recent_prompts cfg t sid st =
  (List.filter (fun t0 => (t - t0 <? window_of cfg)%Z) (recorded_prompts sid st)
   ++ [t])%list.
Proof. reflexivity. Qed.

Lemma filter_all_out (w t : Z) (l : list Z) :
  Forall (fun t0 => (w <= t - t0)%Z) l ->
  List.filter (fun t0 => (t - t0 <? w)%Z) l = [].
Proof.
  induction 1 as [|x l Hx _ IH]; simpl; [reflexivity|].
  destruct (Z.ltb_spec (t - x) w); [lia|exact IH].
Qed.

(** C2, as stated, fails for a session recorded in [agent_sessions]: its
    prompts end at agent detection, are not counted and never give the
    category "annoyed", however fast they follow each other. *)
Lemma rapid_prompts_of_agent_session_are_not_annoyed :
  let cfg := Fixture.DEFAULT_CONFIG in
  let st := set_agent_sessions {["bg1"]} empty_state in
  let ev := Fixture.ev "UserPromptSubmit" "" "bg1" "default" in
  let o1 := main cfg (Fixture.env_at 100) st (StdinEvent ev) in
  let o2 := main cfg (Fixture.env_at 101) (disk o1) (StdinEvent ev) in
  let o3 := main cfg (Fixture.env_at 102) (disk o2) (StdinEvent ev) in
  annoyed_threshold cfg = Some 3%Z
  /\ annoyed_window_seconds cfg = Some 10%Z
  /\ categories cfg !! "annoyed" = Some (JBool true)
  /\ category o3 = ""
  /\ recorded_prompts "bg1" (disk o3) = [].
Proof. cbv zeta. repeat split; vm_compute; reflexivity. Qed.

(** C2, amended.  With [annoyed_threshold] 3, the [annoyed] category
    enabled and [w] the configured [annoyed_window_seconds] (10 when the
    key is absent), for an enabled hook and a session that is not recorded
    in [agent_sessions]: three [UserPromptSubmit] events of the session
    without the delegated marker, each less than [w] after the earlier
    ones, give category "annoyed" on the third; when the session has no
    earlier timestamp less than [w] before the first, the first two give
    the empty category; the three timestamps are kept after triggering; and
    a further [UserPromptSubmit] of the session gives "annoyed" exactly
    when the recorded timestamps less than [w] before it are, with its own,
    three or more. *)
Theorem three_rapid_prompts_are_annoyed cfg st sid w e1 e2 e3 ev1 ev2 ev3 :
  PyStr.lower (py_str (default (JBool true) (enabled cfg))) <> "false" ->
  PyStr.lower (py_str (default (JBool true) (categories cfg !! "annoyed"))) = "true" ->
  annoyed_threshold cfg = Some 3%Z ->
  default 10%Z (annoyed_window_seconds cfg) = w ->
  sid ∉ agent_sessions st ->
  is_prompt_of sid ev1 = true ->
  is_prompt_of sid ev2 = true ->
  is_prompt_of sid ev3 = true ->
  (now e2 - now e1 < w)%Z ->
  (now e3 - now e1 < w)%Z ->
  (now e3 - now e2 < w)%Z ->
  let o1 := main cfg e1 st (StdinEvent ev1) in
  let o2 := main cfg e2 (disk o1) (StdinEvent ev2) in
  let o3 := main cfg e3 (disk o2) (StdinEvent ev3) in
  category o3 = "annoyed"
  /\ (Forall (fun t => (w <= now e1 - t)%Z) (recorded_prompts sid st) ->
      category o1 = "" /\ category o2 = "")
  /\ (exists old,
        recorded_prompts sid (disk o3) = (old ++ [now e1; now e2; now e3])%list)
  /\ (forall e4 ev4,
        is_prompt_of sid ev4 = true ->
        category (main cfg e4 (disk o3) (StdinEvent ev4)) = "annoyed"
        <-> 3 <= length (List.filter (fun t0 => (now e4 - t0 <? w)%Z)
                           (recorded_prompts sid (disk o3))) + 1).
Proof.
  intros Hen0 Hann0 Hthr Hwin Hs Hp1 Hp2 Hp3 H21 H31 H32. cbv zeta.
  assert (hook_disabled cfg = false) as Hen
    by (unfold hook_disabled; apply String.eqb_neq; exact Hen0).
  assert (cat_get cfg "annoyed" = true) as Hann.
  { rewrite cat_get_flag, bool_decide_eq_true_2.
    - unfold flag_of. apply String.eqb_eq. exact Hann0.
    - unfold category_names. do 6 apply list_elem_of_further. apply list_elem_of_here. }
  assert (threshold_of cfg = 3%Z) as Ht by (unfold threshold_of; rewrite Hthr; reflexivity).
  assert (window_of cfg = w) as Hw by exact Hwin.
  pose proof (prompt_step cfg e1 st ev1 sid Hen Hann Hp1 Hs) as S1.
  cbv zeta in S1. destruct S1 as (C1 & R1 & A1).
  set (o1 := main cfg e1 st (StdinEvent ev1)) in *.
  assert (sid ∉ agent_sessions (disk o1)) as Hs1 by (rewrite A1; exact Hs).
  pose proof (prompt_step cfg e2 (disk o1) ev2 sid Hen Hann Hp2 Hs1) as S2.
  cbv zeta in S2. destruct S2 as (C2 & R2 & A2).
  set (o2 := main cfg e2 (disk o1) (StdinEvent ev2)) in *.
  assert (sid ∉ agent_sessions (disk o2)) as Hs2 by (rewrite A2; exact Hs1).
  pose proof (prompt_step cfg e3 (disk o2) ev3 sid Hen Hann Hp3 Hs2) as S3.
  cbv zeta in S3. destruct S3 as (C3 & R3 & A3).
  set (o3 := main cfg e3 (disk o2) (StdinEvent ev3)) in *.
  assert (sid ∉ agent_sessions (disk o3)) as Hs3 by (rewrite A3; exact Hs2).
  rewrite Ht in C1, C2, C3.
  set (old := List.filter (fun t0 => (now e1 - t0 <? w)%Z) (recorded_prompts sid st)).
  assert (recent_prompts cfg (now e1) sid st = (old ++ [now e1])%list) as E1.
  { rewrite recent_prompts_unfold, Hw. reflexivity. }
  assert (recent_prompts cfg (now e2) sid (disk o1)
          = (List.filter (fun t0 => (now e2 - t0 <? w)%Z) old
             ++ [now e1; now e2])%list) as E2.
  { rewrite recent_prompts_unfold, R1, E1, Hw.
    rewrite List.filter_app. simpl.
    destruct (Z.ltb_spec (now e2 - now e1) w); [|lia].
    rewrite <- List.app_assoc. reflexivity. }
  assert (recent_prompts cfg (now e3) sid (disk o2)
          = (List.filter (fun t0 => (now e3 - t0 <? w)%Z)
               (List.filter (fun t0 => (now e2 - t0 <? w)%Z) old)
             ++ [now e1; now e2; now e3])%list) as E3.
  { rewrite recent_prompts_unfold, R2, E2, Hw.
    rewrite List.filter_app. simpl.
    destruct (Z.ltb_spec (now e3 - now e1) w); [|lia].
    destruct (Z.ltb_spec (now e3 - now e2) w); [|lia].
    rewrite <- List.app_assoc. reflexivity. }
  assert (3 <= length (recent_prompts cfg (now e3) sid (disk o2))) as L3.
  { rewrite E3, length_app. simpl. lia. }
  split; [|split; [|split]].
  - rewrite C3. destruct (Z.leb_spec 3 (Z.of_nat (length (recent_prompts cfg (now e3) sid (disk o2)))));
      [reflexivity|lia].
  - intros Hfresh.
    assert (old = []) as Hold by (apply filter_all_out, Hfresh).
    rewrite C1, C2, E1, E2, Hold. split; reflexivity.
  - rewrite R3, E3. eexists. reflexivity.
  - intros e4 ev4 Hp4.
    pose proof (prompt_step cfg e4 (disk o3) ev4 sid Hen Hann Hp4 Hs3) as S4.
    cbv zeta in S4. destruct S4 as (C4 & _). rewrite C4, Ht.
    rewrite recent_prompts_unfold, Hw, length_app. simpl.
    destruct (Z.leb_spec 3
                (Z.of_nat
                   (length (List.filter (fun t0 => (now e4 - t0 <? w)%Z)
                              (recorded_prompts sid (disk o3))) + 1)));
      split; intros Hx; try reflexivity; try lia; discriminate Hx.
Qed.

Lemma three_rapid_prompts_witness :
  let cfg := {| enabled := Some (JBool true); active_pack := Some "peon";
                pack_rotation := []; annoyed_threshold := Some 3%Z;
                annoyed_window_seconds := Some 30%Z;
                categories := categories Fixture.DEFAULT_CONFIG |} in
  let ev := Fixture.ev "UserPromptSubmit" "" "s1" "default" in
  let o1 := main cfg (Fixture.env_at 100) empty_state (StdinEvent ev) in
  let o2 := main cfg (Fixture.env_at 112) (disk o1) (StdinEvent ev) in
  let o3 := main cfg (Fixture.env_at 125) (disk o2) (StdinEvent ev) in
  let o4 := main cfg (Fixture.env_at 145) (disk o3) (StdinEvent ev) in
  PyStr.lower (py_str (default (JBool true) (enabled cfg))) <> "false"
  /\ PyStr.lower (py_str (default (JBool true) (categories cfg !! "annoyed"))) = "true"
  /\ annoyed_threshold cfg = Some 3%Z
  /\ default 10%Z (annoyed_window_seconds cfg) = 30%Z
  /\ ("s1" ∉ agent_sessions empty_state)
  /\ is_prompt_of "s1" ev = true
  /\ (112 - 100 < 30)%Z /\ (125 - 100 < 30)%Z /\ (125 - 112 < 30)%Z
  /\ Forall (fun t => (30 <= 100 - t)%Z) (recorded_prompts "s1" empty_state)
  /\ category o3 = "annoyed" /\ category o1 = "" /\ category o2 = ""
  /\ category o4 = "".
Proof.
  cbv zeta.
  assert ("s1" ∉ agent_sessions empty_state) as Hs by apply not_elem_of_empty.
  assert (Forall (fun t => (30 <= 100 - t)%Z) (recorded_prompts "s1" empty_state))
    as Hf by constructor.
  assert (PyStr.lower (py_str (default (JBool true) (Some (JBool true)))) <> "false")
    as Hen by (vm_compute; discriminate).
  pose proof (three_rapid_prompts_are_annoyed
                {| enabled := Some (JBool true); active_pack := Some "peon";
                   pack_rotation := []; annoyed_threshold := Some 3%Z;
                   annoyed_window_seconds := Some 30%Z;
                   categories := categories Fixture.DEFAULT_CONFIG |}
                empty_state "s1" 30%Z
                (Fixture.env_at 100) (Fixture.env_at 112) (Fixture.env_at 125)
                (Fixture.ev "UserPromptSubmit" "" "s1" "default")
                (Fixture.ev "UserPromptSubmit" "" "s1" "default")
                (Fixture.ev "UserPromptSubmit" "" "s1" "default")
                Hen eq_refl eq_refl eq_refl Hs eq_refl eq_refl eq_refl
                eq_refl eq_refl eq_refl) as H.
  cbv zeta in H. destruct H as (H3 & H12 & _).
  destruct (H12 Hf) as [H1 H2].
  split; [exact Hen|].
  repeat (split; [reflexivity|]). split; [exact Hs|].
  repeat (split; [reflexivity|]). split; [exact Hf|].
  split; [exact H3|]. split; [exact H1|]. split; [exact H2|].
  vm_compute. reflexivity.
Defined.

(** ** Pack rotation *)

(** The two ways out of the pack-rotation step: the pack in force is kept
    and nothing is written, or a pack is drawn and recorded. *)
Lemma pin_pack_cases cfg env sid m pack m1 :
  pin_pack cfg env sid m = Some (pack, m1) ->
  (m1 = m
   /\ (pack_rotation cfg = []
       \/ (session_packs (mem m) !! sid = Some pack /\ pack ∈ pack_rotation cfg)))
  \/ (session_packs (mem m1) = <[sid := pack]> (session_packs (mem m))
      /\ pack ∈ pack_rotation cfg
      /\ ~ (exists p, session_packs (mem m) !! sid = Some p /\ p ∈ pack_rotation cfg)).
Proof.
  unfold pin_pack. destruct (pack_rotation cfg) as [|x l] eqn:Hrot.
  - intros H. inversion H; subst. left. auto.
  - rewrite <- Hrot.
    assert (forall o,
              match PyStr.choice (rnd_pack env) (pack_rotation cfg) with
              | Some drawn =>
                  Some (drawn,
                        {| mem := set_session_packs
                                    (<[sid := drawn]> (session_packs (mem m))) (mem m);
                           state_dirty := true |})
              | None => None
              end = Some (pack, m1) ->
              o = session_packs (mem m) !! sid ->
              ~ (exists p, o = Some p /\ p ∈ pack_rotation cfg) ->
              session_packs (mem m1) = <[sid := pack]> (session_packs (mem m))
              /\ pack ∈ pack_rotation cfg
              /\ ~ (exists p, session_packs (mem m) !! sid = Some p
                              /\ p ∈ pack_rotation cfg)) as Hredraw.
    { intros o H Ho Hno.
      destruct (PyStr.choice _ _) as [drawn|] eqn:Hc; [|discriminate].
      inversion H; subst. apply choice_elem in Hc. simpl. auto. }
    destruct (session_packs (mem m) !! sid) as [p|] eqn:Hsp.
    + case_bool_decide as Hin.
      * intros H. inversion H; subst. left. auto.
      * intros H. right. apply (Hredraw (Some p) H eq_refl).
        intros (q & Hq & Hqin). congruence.
    + intros H. right. apply (Hredraw None H eq_refl).
      intros (q & Hq & _). discriminate.
Qed.

(** One run keeps the pack of session [sid] when it is still in the
    rotation, and picks its sound from that pack. *)
Lemma assigned_pack_step sid p st i :
  session_packs st !! sid = Some p ->
  (forall ev, inv_input i = StdinEvent ev -> session_id ev = sid ->
     pack_rotation (inv_cfg i) <> [] -> p ∈ pack_rotation (inv_cfg i)) ->
  session_packs (disk (invoke st i)) !! sid = Some p
  /\ (forall ev pk f, inv_input i = StdinEvent ev -> session_id ev = sid ->
        pack_rotation (inv_cfg i) <> [] ->
        sound_file (invoke st i) = Some (pk, f) -> pk = p).
Proof.
  intros Hsp Hrot. unfold invoke, main.
  destruct (inv_input i) as [| | | | |ev];
    try (split; [exact Hsp|discriminate]);
    try (destruct (hook_disabled _); split; try exact Hsp; discriminate).
  - destruct (hook_disabled _); [split; [exact Hsp|discriminate]|].
    destruct (agent_detection st ev) as [o|] eqn:Ha.
    + unfold handle_event. rewrite Ha. rewrite agent_detection_cases in Ha.
      destruct (delegate_marked ev).
      * inversion Ha; subst. split; [exact Hsp|discriminate].
      * case_bool_decide; inversion Ha; subst. split; [exact Hsp|discriminate].
    + destruct (handle_event_passed (inv_cfg i) (inv_env i) st ev Ha)
        as (pack & m1 & Hp & _ & _ & _ & ->).
      apply pin_pack_cases in Hp. simpl in Hp.
      assert (session_packs (mem m1) !! sid = Some p
              /\ (session_id ev = sid -> pack_rotation (inv_cfg i) <> [] -> pack = p))
        as [Hsp1 Hpack].
      { destruct Hp as [(-> & Hc)|(Hm1 & Hin & Hno)].
        - split; [exact Hsp|]. intros Hsid Hne.
          destruct Hc as [Hc|[Hc _]]; [contradiction|].
          rewrite Hsid in Hc. congruence.
        - destruct (decide (session_id ev = sid)) as [Hsid|Hsid].
          + destruct (decide (pack_rotation (inv_cfg i) = [])) as [Hnil|Hne].
            * rewrite Hnil in Hin. apply not_elem_of_nil in Hin. contradiction.
            * exfalso. apply Hno. exists p. rewrite Hsid.
              split; [exact Hsp|]. apply (Hrot ev eq_refl Hsid Hne).
          + rewrite Hm1, lookup_insert_ne by exact Hsid.
            split; [exact Hsp|]. intros; contradiction. }
      destruct (route _ _ _ _ _) as [[r m2]|] eqn:Hr;
        [|split; [exact Hsp|discriminate]].
      apply route_frame in Hr as (_ & Hr & _). cbv zeta.
      cbn [disk sound_file].
      destruct (PyStr.truthy _ && negb _);
        [destruct (pick_sound _ _ _ _) as [[s st']|] eqn:Hpk|]; cbn.
      * apply pick_sound_frame in Hpk as (_ & Hpk & _).
        split; [congruence|].
        intros ev' pk f E Hsid Hne H. inversion E; subst ev'.
        inversion H; subst. auto.
      * split; [|discriminate]. destruct (state_dirty m2); congruence.
      * split; [|discriminate]. destruct (state_dirty m2); congruence.
Qed.

Lemma assigned_pack_after sid p invs : forall st,
  session_packs st !! sid = Some p ->
  (forall i ev, i ∈ invs -> inv_input i = StdinEvent ev -> session_id ev = sid ->
     pack_rotation (inv_cfg i) <> [] -> p ∈ pack_rotation (inv_cfg i)) ->
  session_packs (state_after st invs) !! sid = Some p.
Proof.
  induction invs as [|i invs IH]; intros st Hsp Hrot; [exact Hsp|].
  simpl. apply IH.
  - apply assigned_pack_step; [exact Hsp|].
    intros ev. apply Hrot. apply list_elem_of_here.
  - intros j ev Hj. apply Hrot. apply list_elem_of_further, Hj.
Qed.

(** C1, as stated, fails: a session that was assigned a pack gets a new one
    as soon as the assigned pack is no longer in [pack_rotation]. *)
Lemma assigned_pack_redrawn_when_out_of_rotation :
  let cfg1 := Fixture.with_rotation ["peon"] Fixture.DEFAULT_CONFIG in
  let cfg2 := Fixture.with_rotation ["sc_kerrigan"] Fixture.DEFAULT_CONFIG in
  let o1 := main cfg1 (Fixture.env_at 100) empty_state
              (StdinEvent (Fixture.ev "SessionStart" "" "rot" "default")) in
  let o2 := main cfg2 (Fixture.env_at 101) (disk o1)
              (StdinEvent (Fixture.ev "Stop" "" "rot" "default")) in
  session_packs (disk o1) !! "rot" = Some "peon"
  /\ sound_file o1 = Some ("peon", "Hello1.wav")
  /\ sound_file o2 = Some ("sc_kerrigan", "Done1.wav")
  /\ session_packs (disk o2) !! "rot" = Some "sc_kerrigan".
Proof. vm_compute. repeat split; reflexivity. Qed.

(** The record of [session_packs] after an event that went through the
    routing is the one left by the rotation step. *)
Lemma routed_session_packs cfg env st ev pack m1 r m2 :
  pin_pack cfg env (session_id ev) {| mem := st; state_dirty := false |}
    = Some (pack, m1) ->
  (session_packs (mem m1) = session_packs st \/ state_dirty m1 = true) ->
  route cfg env ev (extract_project_name (cwd ev)) m1 = Some (r, m2) ->
  session_packs (disk (assemble cfg env st ev pack r m2)) = session_packs (mem m1)
  /\ (forall pk f, sound_file (assemble cfg env st ev pack r m2) = Some (pk, f) ->
        pk = pack).
Proof.
  intros Hp Hdirty Hr.
  assert (state_dirty m1 = true -> state_dirty m2 = true) as Hkeep.
  { unfold route in Hr. intros Hd.
    repeat (case_eqb; lazy iota beta in Hr);
      try destruct (cat_get cfg "annoyed");
      try discriminate; inversion Hr; subst; auto. }
  apply route_frame in Hr as (_ & Hsp2 & _).
  unfold assemble. cbn [disk sound_file]. split.
  - destruct (PyStr.truthy _ && negb _);
      [destruct (pick_sound _ _ _ _) as [[s st']|] eqn:Hpk|]; cbn.
    + apply pick_sound_frame in Hpk as (_ & -> & _). exact Hsp2.
    + destruct (state_dirty m2) eqn:Hd2; [exact Hsp2|].
      destruct Hdirty as [E|E]; [congruence|]. specialize (Hkeep E). congruence.
    + destruct (state_dirty m2) eqn:Hd2; [exact Hsp2|].
      destruct Hdirty as [E|E]; [congruence|]. specialize (Hkeep E). congruence.
  - intros pk f.
    destruct (PyStr.truthy _ && negb _); [|discriminate].
    destruct (pick_sound _ _ _ _) as [[s st']|]; [|discriminate].
    cbn. intros E. inversion E. reflexivity.
Qed.

(** C1, amended.  Once session [sid] has pack [p] recorded in
    [session_packs], every later invocation for [sid] under a non-empty
    [pack_rotation] that still contains [p] reuses [p]: the rotation step
    returns [p] without writing, the record is still [p] after any sequence
    of such runs (runs of other sessions and runs with an empty rotation in
    between included), and any sound picked for [sid] comes from [p].  An
    event of [sid] handled under a [pack_rotation] that does not contain
    [p] replaces the record by the member of the rotation that
    [random.choice] draws, and takes its sound from that pack, when the
    rotation is not empty and the event goes through the routing (hook
    enabled, event not delegate-marked, session not recorded as an agent,
    event routed); in every other case the record is left as it is. *)
Theorem assigned_pack_kept_while_in_rotation sid p st invs :
  session_packs st !! sid = Some p ->
  (forall i ev, i ∈ invs -> inv_input i = StdinEvent ev -> session_id ev = sid ->
     pack_rotation (inv_cfg i) <> [] -> p ∈ pack_rotation (inv_cfg i)) ->
  (forall cfg env m,
     session_packs (mem m) !! sid = Some p -> pack_rotation cfg <> [] ->
     p ∈ pack_rotation cfg -> pin_pack cfg env sid m = Some (p, m))
  /\ session_packs (state_after st invs) !! sid = Some p
  /\ (forall k i o ev pk f,
        invs !! k = Some i -> run st invs !! k = Some o ->
        inv_input i = StdinEvent ev -> session_id ev = sid ->
        pack_rotation (inv_cfg i) <> [] ->
        sound_file o = Some (pk, f) -> pk = p)
  /\ (forall cfg env ev,
        session_id ev = sid -> p ∉ pack_rotation cfg ->
        let o := main cfg env st (StdinEvent ev) in
        if bool_decide (pack_rotation cfg <> [])
           && negb (hook_disabled cfg) && negb (delegate_marked ev)
           && negb (bool_decide (sid ∈ agent_sessions st)) && negb (unrouted ev)
        then exists drawn,
               PyStr.choice (rnd_pack env) (pack_rotation cfg) = Some drawn
               /\ drawn ∈ pack_rotation cfg /\ drawn <> p
               /\ session_packs (disk o) = <[sid := drawn]> (session_packs st)
               /\ (forall pk f, sound_file o = Some (pk, f) -> pk = drawn)
        else session_packs (disk o) = session_packs st).
Proof.
  intros Hsp Hrot. split; [|split; [|split]].
  - intros cfg env m Hm Hne Hin. unfold pin_pack.
    destruct (pack_rotation cfg) as [|x l] eqn:E; [contradiction|].
    rewrite Hm. rewrite bool_decide_eq_true_2 by exact Hin. reflexivity.
  - apply assigned_pack_after; assumption.
  - intros k i o ev pk f Hk Ho Hi Hsid Hne Hsf.
    rewrite (run_lookup _ _ _ _ Hk) in Ho. inversion Ho; subst o. clear Ho.
    assert (i ∈ invs) as Hin by (eapply list_elem_of_lookup_2, Hk).
    destruct (assigned_pack_step sid p (state_after st (take k invs)) i) as [_ H].
    + apply assigned_pack_after; [exact Hsp|].
      intros j ev' Hj. apply Hrot. eapply subseteq_take, Hj.
    + intros ev'. apply Hrot, Hin.
    + eapply H; eauto.
  - intros cfg env ev Hsid Hout. cbv zeta. subst sid.
    replace (bool_decide (pack_rotation cfg <> [])
             && negb (hook_disabled cfg) && negb (delegate_marked ev)
             && negb (bool_decide (session_id ev ∈ agent_sessions st))
             && negb (unrouted ev))
      with (bool_decide (pack_rotation cfg <> [])
            && (reaches_routing cfg st ev && negb (unrouted ev)))
      by (unfold reaches_routing; rewrite !andb_assoc; reflexivity).
    destruct (reaches_routing cfg st ev) eqn:Hreach.
    2: { rewrite (not_reaching_exits cfg env st ev Hreach), andb_false_r.
         destruct (negb (hook_disabled cfg) && delegate_marked ev); reflexivity. }
    destruct (reaching_passes _ _ _ Hreach) as [Hen Ha].
    unfold main. rewrite Hen.
    destruct (handle_event_passed cfg env st ev Ha) as (pack & m1 & Hp & _ & _ & _ & ->).
    destruct (unrouted ev) eqn:Hu.
    { rewrite (route_unrouted _ _ _ _ _ Hu), andb_false_r. reflexivity. }
    cbn [andb negb]. rewrite andb_true_r.
    destruct (route_routed cfg env ev (extract_project_name (cwd ev)) m1 Hu)
      as (r & m2 & Hr).
    rewrite Hr.
    case_bool_decide as Hne.
    + pose proof Hp as Hp'. unfold pin_pack in Hp'.
      destruct (pack_rotation cfg) as [|x l] eqn:Erot; [contradiction|].
      rewrite <- Erot in *. cbn [mem] in Hp'. rewrite Hsp in Hp'.
      rewrite bool_decide_eq_false_2 in Hp' by exact Hout.
      destruct (PyStr.choice (rnd_pack env) (pack_rotation cfg)) as [drawn|] eqn:Hc;
        [|discriminate Hp'].
      inversion Hp'; subst pack m1. clear Hp'.
      destruct (routed_session_packs cfg env st ev drawn _ r m2 Hp
                  (or_intror eq_refl) Hr) as [Hd Hs].
      exists drawn. split; [reflexivity|].
      pose proof (choice_elem _ _ _ Hc) as Hin.
      split; [exact Hin|]. split; [intros ->; contradiction|].
      split; [exact Hd|exact Hs].
    + pose proof Hp as Hp'. unfold pin_pack in Hp'. rewrite Hne in Hp'.
      inversion Hp'; subst pack m1. clear Hp'.
      destruct (routed_session_packs cfg env st ev _ _ r m2 Hp
                  (or_introl eq_refl) Hr) as [Hd _].
      exact Hd.
Qed.

Lemma assigned_pack_witness :
  let cfg := Fixture.with_rotation ["peon"; "sc_kerrigan"] Fixture.DEFAULT_CONFIG in
  let st := set_session_packs {["rot2" := "sc_kerrigan"]} empty_state in
  let i := {| inv_cfg := cfg; inv_env := Fixture.env_at 100;
              inv_input := StdinEvent (Fixture.ev "Stop" "" "rot2" "default") |} in
  session_packs st !! "rot2" = Some "sc_kerrigan"
  /\ ("sc_kerrigan" ∈ pack_rotation cfg)
  /\ session_packs (state_after st [i]) !! "rot2" = Some "sc_kerrigan".
Proof.
  cbv zeta.
  assert ("sc_kerrigan" ∈ ["peon"; "sc_kerrigan"]) as Hin
    by (apply list_elem_of_further, list_elem_of_here).
  split; [reflexivity|]. split; [exact Hin|].
  apply (assigned_pack_kept_while_in_rotation "rot2" "sc_kerrigan"
           (set_session_packs {["rot2" := "sc_kerrigan"]} empty_state)
           [{| inv_cfg := Fixture.with_rotation ["peon"; "sc_kerrigan"]
                            Fixture.DEFAULT_CONFIG;
               inv_env := Fixture.env_at 100;
               inv_input := StdinEvent (Fixture.ev "Stop" "" "rot2" "default") |}]).
  - reflexivity.
  - intros i ev Hi _ _ _. apply list_elem_of_singleton in Hi. subst i. exact Hin.
Defined.

(** ** Sound selection *)

(** A sound reported by an invocation was picked by the selector for the
    category retained, from a state with the [last_played] of the start. *)
Lemma selection_origin cfg env st input pk f :
  sound_file (main cfg env st input) = Some (pk, f) ->
  exists s st0 st',
    pick_sound env pk (category (main cfg env st input)) st0 = Some (s, st')
    /\ file s = f /\ last_played st0 = last_played st
    /\ last_played (disk (main cfg env st input)) = last_played st'.
Proof.
  unfold main. destruct input as [| | | | |ev]; try discriminate.
  1-3: destruct (hook_disabled cfg); discriminate.
  destruct (hook_disabled cfg); [discriminate|].
  destruct (agent_detection st ev) as [o|] eqn:Ha.
  - unfold handle_event. rewrite Ha. rewrite agent_detection_cases in Ha.
    destruct (delegate_marked ev); [inversion Ha; subst; discriminate|].
    case_bool_decide; inversion Ha; subst; discriminate.
  - destruct (handle_event_passed cfg env st ev Ha)
      as (pack & m1 & _ & _ & _ & Hlp & ->).
    destruct (route _ _ _ _ _) as [[r m2]|] eqn:Hr; [|discriminate].
    apply route_frame in Hr as (_ & _ & Hr). cbv zeta.
    cbn [sound_file category disk].
    destruct (PyStr.truthy _ && negb _); [|discriminate].
    destruct (pick_sound _ _ _ _) as [[s st']|] eqn:Hpk; [|discriminate].
    cbn. intros E. inversion E; subst.
    exists s, (mem m2), st'. repeat split; [exact Hpk|congruence].
Qed.

(** With two sounds or more, the selector never returns the file recorded
    in [last_played] for the category. *)
Lemma pick_sound_not_last env pk c st0 s st' mf sounds :
  pick_sound env pk c st0 = Some (s, st') ->
  manifests env pk = Some mf ->
  mf !! c = Some sounds ->
  2 <= length sounds ->
  file s <> default "" (last_played st0 !! c).
Proof.
  unfold pick_sound. intros H Hmf Hc Hlen. rewrite Hmf, Hc in H. simpl in H.
  destruct sounds as [|x l]; [discriminate|].
  destruct (PyStr.choice _ _) as [pick|] eqn:Hch; [|discriminate].
  inversion H; subst pick st'. clear H.
  apply choice_elem in Hch. unfold candidates in Hch.
  destruct (Nat.leb_spec (length (x :: l)) 1) as [Hle|_]; [lia|].
  apply list_elem_of_In, List.filter_In in Hch as [_ Hch].
  apply negb_true_iff, String.eqb_neq in Hch. exact Hch.
Qed.

(** With exactly one sound, the selector returns it. *)
Lemma pick_sound_single env pk c st0 s mf :
  manifests env pk = Some mf ->
  mf !! c = Some [s] ->
  pick_sound env pk c st0
  = Some (s, set_last_played (<[c := file s]> (last_played st0)) st0).
Proof.
  intros Hmf Hc. unfold pick_sound. rewrite Hmf, Hc.
  change (default [] (Some [s])) with [s]. cbv zeta.
  change (candidates [s] (default "" (last_played st0 !! c))) with [s].
  unfold PyStr.choice. change (length [s]) with 1.
  rewrite Nat.mod_1_r. reflexivity.
Qed.

(** What one run leaves in [last_played] for category [c]. *)
Lemma last_played_step c st i :
  last_played (disk (invoke st i)) !! c =
    match selected c (invoke st i) with
    | Some f => Some f
    | None => last_played st !! c
    end.
Proof.
  unfold invoke, selected.
  destruct (sound_file (main (inv_cfg i) (inv_env i) st (inv_input i)))
    as [[pk f]|] eqn:Hsf.
  - destruct (selection_origin _ _ _ _ _ _ Hsf) as (s & st0 & st' & Hpk & Hf & H0 & ->).
    apply pick_sound_frame in Hpk as (_ & _ & _ & ->). rewrite H0, Hf. simpl.
    destruct (String.eqb_spec (category (main (inv_cfg i) (inv_env i) st (inv_input i))) c)
      as [->|Hne].
    + apply lookup_insert_eq.
    + apply lookup_insert_ne, Hne.
  - assert (last_played (disk (main (inv_cfg i) (inv_env i) st (inv_input i)))
            = last_played st) as ->.
    { revert Hsf. unfold main.
      destruct (inv_input i) as [| | | | |ev]; try reflexivity.
      1-3: destruct (hook_disabled _); reflexivity.
      destruct (hook_disabled _); [reflexivity|].
      destruct (agent_detection st ev) as [o|] eqn:Ha.
      - unfold handle_event. rewrite Ha. rewrite agent_detection_cases in Ha.
        destruct (delegate_marked ev); [inversion Ha; subst; reflexivity|].
        case_bool_decide; inversion Ha; subst; reflexivity.
      - destruct (handle_event_passed (inv_cfg i) (inv_env i) st ev Ha)
          as (pack & m1 & _ & _ & _ & Hlp & ->).
        destruct (route _ _ _ _ _) as [[r m2]|] eqn:Hr; [|reflexivity].
        apply route_frame in Hr as (_ & _ & Hr). cbv zeta.
        cbn [sound_file disk].
        destruct (PyStr.truthy _ && negb _);
          [destruct (pick_sound _ _ _ _) as [[s st']|]; [discriminate|]|];
          intros _; destruct (state_dirty m2); congruence. }
    destruct (String.eqb _ _); reflexivity.
Qed.

(** [last_played] holds, for each category, the file of the most recent
    selection. *)
Lemma last_played_after c invs : forall st,
  last_played (state_after st invs) !! c
  = last_selected c (last_played st !! c) (run st invs).
Proof.
  induction invs as [|i invs IH]; intros st; [reflexivity|].
  simpl. rewrite IH, last_played_step. reflexivity.
Qed.

(** C4.  Along any sequence of invocations, a file selected for a category
    whose sound list (in the manifest of the pack used) has two entries or
    more differs from the file returned by the preceding selection for that
    category, which is the value of [last_played] for it (at the start of
    the sequence: the value found in the state document); and on a list
    with exactly one entry the selector returns that entry. *)
Theorem sound_selector_never_repeats :
  (forall st invs k i o c pk f mf sounds,
     invs !! k = Some i ->
     run st invs !! k = Some o ->
     category o = c ->
     sound_file o = Some (pk, f) ->
     manifests (inv_env i) pk = Some mf ->
     mf !! c = Some sounds ->
     2 <= length sounds ->
     last_selected c (last_played st !! c) (take k (run st invs))
       = last_played (state_after st (take k invs)) !! c
     /\ Some f <> last_selected c (last_played st !! c) (take k (run st invs)))
  /\ (forall env pk c st s mf,
        manifests env pk = Some mf ->
        mf !! c = Some [s] ->
        pick_sound env pk c st
        = Some (s, set_last_played (<[c := file s]> (last_played st)) st)).
Proof.
  split; [|apply pick_sound_single].
  intros st invs k i o c pk f mf sounds Hk Ho Hc Hsf Hmf Hs Hlen.
  rewrite (run_lookup _ _ _ _ Hk) in Ho. inversion Ho; subst o. clear Ho.
  rewrite take_run, <- last_played_after. split; [reflexivity|].
  unfold invoke in *.
  destruct (selection_origin _ _ _ _ _ _ Hsf) as (s & st0 & st' & Hpk & Hf & H0 & _).
  rewrite Hc in Hpk.
  pose proof (pick_sound_not_last _ _ _ _ _ _ _ _ Hpk Hmf Hs Hlen) as Hne.
  rewrite H0, Hf in Hne.
  destruct (last_played _ !! c) as [g|]; [|discriminate].
  simpl in Hne. congruence.
Qed.

Lemma sound_selector_witness :
  let i := {| inv_cfg := Fixture.DEFAULT_CONFIG; inv_env := Fixture.env_at 100;
              inv_input := StdinEvent (Fixture.ev "SessionStart" "" "s1" "default") |} in
  let outs := run empty_state [i; i; i] in
  (sound_file <$> outs)
    = [Some ("peon", "Hello1.wav"); Some ("peon", "Hello2.wav");
       Some ("peon", "Hello1.wav")]
  /\ Some "Hello1.wav" <> last_selected "greeting" None (take 2 outs).
Proof.
  cbv zeta. split; [vm_compute; reflexivity|].
  set (i := {| inv_cfg := Fixture.DEFAULT_CONFIG; inv_env := Fixture.env_at 100;
               inv_input := StdinEvent (Fixture.ev "SessionStart" "" "s1" "default") |}).
  destruct (run empty_state [i; i; i] !! 2) as [o|] eqn:Ho; [|discriminate Ho].
  assert (category o = "greeting" /\ sound_file o = Some ("peon", "Hello1.wav"))
    as [Hc Hsf] by (vm_compute in Ho; inversion Ho; split; reflexivity).
  eapply (proj1 sound_selector_never_repeats empty_state [i; i; i] 2 i o
            "greeting" "peon" "Hello1.wav" Fixture.PEON_MANIFEST);
    [reflexivity|exact Ho|exact Hc|exact Hsf|reflexivity|reflexivity|simpl; lia].
Defined.

(** ** The pack-switch command *)

Lemma append_nil_r (s : string) : s +:+ "" = s.
Proof.
  induction s as [|c s IH]; [reflexivity|]. rewrite append_cons, IH. reflexivity.
Qed.

Lemma elem_of_insert_sorted x y l : y ∈ insert_sorted x l <-> y = x \/ y ∈ l.
Proof.
  induction l as [|z l IH]; simpl.
  - rewrite list_elem_of_singleton. split; [auto|].
    intros [H|H]; [exact H|]. apply not_elem_of_nil in H. contradiction.
  - destruct (String.leb x z).
    + rewrite elem_of_cons. reflexivity.
    + rewrite !elem_of_cons, IH. tauto.
Qed.

Lemma elem_of_sorted y l : y ∈ sorted l <-> y ∈ l.
Proof.
  unfold sorted. induction l as [|x l IH]; simpl; [reflexivity|].
  rewrite elem_of_insert_sorted, elem_of_cons, IH. reflexivity.
Qed.

Lemma join_mentions sep n l : n ∈ l -> mentions n (PyStr.join sep l).
Proof.
  induction l as [|x r IH]; intros Hin; [apply not_elem_of_nil in Hin; contradiction|].
  apply elem_of_cons in Hin as [->|Hin].
  - destruct r as [|y r]; simpl.
    + exists "", "". rewrite append_nil_r. reflexivity.
    + exists "", (sep +:+ PyStr.join sep (y :: r)). reflexivity.
  - destruct r as [|y r]; [apply not_elem_of_nil in Hin; contradiction|].
    destruct (IH Hin) as (pre & post & E).
    exists (x +:+ sep +:+ pre), post.
    change (PyStr.join sep (x :: y :: r)) with (x +:+ sep +:+ PyStr.join sep (y :: r)).
    rewrite E, !append_assoc. reflexivity.
Qed.

(** C8.  A pack-switch that names a pack without an installed manifest
    exits with a non-zero code, prints nothing to the standard output and
    an error to the error stream in which every installed pack is listed
    (the sorted names after "Available packs: "; when no pack is installed
    at all the error is "Error: no packs found"), and leaves the
    configuration document as it was.  A pack-switch that names an
    installed pack writes a configuration whose [active_pack] is that pack
    and whose other fields are those of the configuration read. *)
Theorem pack_switch_updates_or_rejects {value : Type}
    (of_str : string -> value) (to_str : value -> option string)
    (fs : @pack_fs value) (arg : string) :
  let r := cmd_pack of_str to_str fs (Some arg) in
  (arg ∉ installed fs ->
     cli_exit r <> 0%Z
     /\ cli_config r = config_file fs
     /\ cli_stdout r = []
     /\ cli_stderr r <> []
     /\ (forall n, n ∈ installed fs ->
           exists ln, ln ∈ cli_stderr r /\ mentions n ln)
     /\ cli_stderr r =
          match installed fs with
          | [] => ["Error: no packs found"]
          | _ => ["Error: pack " +:+ dquote +:+ arg +:+ dquote +:+ " not found.";
                  "Available packs: " +:+ PyStr.join ", " (sorted (installed fs))]
          end)
  /\ (arg ∈ installed fs ->
        exists cfg',
          cli_config r = Some cfg'
          /\ cfg' !! "active_pack" = Some (of_str arg)
          /\ forall k, k <> "active_pack" ->
               cfg' !! k = default ∅ (config_file fs) !! k).
Proof.
  cbv zeta. unfold cmd_pack. split.
  - intros Hout.
    assert (arg ∉ sorted (installed fs)) as Hout' by (rewrite elem_of_sorted; exact Hout).
    destruct (sorted (installed fs)) as [|first rest] eqn:Hs.
    + assert (installed fs = []) as Hnil.
      { destruct (installed fs) as [|x l]; [reflexivity|].
        assert (x ∈ sorted (x :: l)) as Hx
          by (apply elem_of_sorted, list_elem_of_here).
        rewrite Hs in Hx. apply not_elem_of_nil in Hx. contradiction. }
      rewrite Hnil. cbn. repeat split; try discriminate.
      intros n Hn. apply not_elem_of_nil in Hn. contradiction.
    + rewrite bool_decide_eq_false_2 by exact Hout'. cbn.
      assert (installed fs <> []) as Hne.
      { intros Hnil. rewrite Hnil in Hs. discriminate. }
      repeat split; try discriminate.
      * intros n Hn.
        exists ("Available packs: " +:+ PyStr.join ", " (first :: rest)).
        split; [apply list_elem_of_further, list_elem_of_here|].
        assert (n ∈ first :: rest) as Hn' by (rewrite <- Hs; apply elem_of_sorted, Hn).
        destruct (join_mentions ", " n _ Hn') as (pre & post & E).
        exists ("Available packs: " +:+ pre), post.
        rewrite E, !append_assoc. reflexivity.
      * destruct (installed fs); [contradiction|reflexivity].
  - intros Hin.
    assert (arg ∈ sorted (installed fs)) as Hin' by (rewrite elem_of_sorted; exact Hin).
    destruct (sorted (installed fs)) as [|first rest] eqn:Hs;
      [apply not_elem_of_nil in Hin'; contradiction|].
    rewrite bool_decide_eq_true_2 by exact Hin'.
    exists (<["active_pack" := of_str arg]> (default ∅ (config_file fs))).
    split; [destruct (display_name fs arg); reflexivity|].
    split; [apply lookup_insert_eq|].
    intros k Hk. apply lookup_insert_ne. congruence.
Qed.

Example pack_cycle_wraps_around :
  cli_stdout (cmd_pack JStr PackFixture.as_str PackFixture.peon_dir None)
  = ["peon-ping: switched to sc_kerrigan (Sarah Kerrigan (StarCraft))"].
Proof. vm_compute. reflexivity. Qed.

Lemma pack_switch_witness :
  let r1 := cmd_pack JStr PackFixture.as_str PackFixture.peon_dir (Some "nonexistent") in
  let r2 := cmd_pack JStr PackFixture.as_str PackFixture.peon_dir (Some "sc_kerrigan") in
  ("nonexistent" ∉ installed PackFixture.peon_dir)
  /\ ("sc_kerrigan" ∈ installed PackFixture.peon_dir)
  /\ cli_exit r1 <> 0%Z
  /\ cli_config r1 = Some PackFixture.config_json
  /\ cli_stderr r1 =
       ["Error: pack " +:+ dquote +:+ "nonexistent" +:+ dquote +:+ " not found.";
        "Available packs: peon, sc_kerrigan"]
  /\ (exists cfg', cli_config r2 = Some cfg'
        /\ cfg' !! "active_pack" = Some (JStr "sc_kerrigan")
        /\ cfg' !! "enabled" = Some (JBool true)).
Proof.
  cbv zeta.
  assert ("nonexistent" ∉ installed PackFixture.peon_dir) as Hout.
  { simpl. rewrite !elem_of_cons. intros [H|[H|H]]; try discriminate.
    apply not_elem_of_nil in H. exact H. }
  assert ("sc_kerrigan" ∈ installed PackFixture.peon_dir) as Hin
    by apply list_elem_of_here.
  destruct (pack_switch_updates_or_rejects JStr PackFixture.as_str
              PackFixture.peon_dir "nonexistent") as [H1 _].
  destruct (pack_switch_updates_or_rejects JStr PackFixture.as_str
              PackFixture.peon_dir "sc_kerrigan") as [_ H2].
  destruct (H1 Hout) as (E1 & E2 & _ & _ & _ & E6).
  destruct (H2 Hin) as (cfg' & C1 & C2 & C3).
  split; [exact Hout|]. split; [exact Hin|]. split; [exact E1|].
  split; [exact E2|]. split; [exact E6|].
  exists cfg'. split; [exact C1|]. split; [exact C2|].
  rewrite C3 by discriminate. reflexivity.
Defined.

(** * Further properties of [peon.py] *)

(** ** The ways through [main] *)

(** An invocation either leaves silently, with the state as it was or with
    an agent session recorded, or ends on an exception that is not caught,
    or goes through the routing and puts its outcome together. *)
Lemma main_cases cfg env st input :
  (main cfg env st input = silent_exit 0 st)
  \/ (raising_input input = true /\ hook_disabled cfg = false
      /\ main cfg env st input = uncaught st)
  \/ (exists ev, input = StdinEvent ev /\ hook_disabled cfg = false
        /\ delegate_marked ev = true
        /\ main cfg env st input = silent_exit 0 (record_agent ev st))
  \/ (exists ev pack m1 r m2,
        input = StdinEvent ev /\ hook_disabled cfg = false
        /\ delegate_marked ev = false
        /\ (session_id ev ∉ agent_sessions st)
        /\ pin_pack cfg env (session_id ev) {| mem := st; state_dirty := false |}
           = Some (pack, m1)
        /\ route cfg env ev (extract_project_name (cwd ev)) m1 = Some (r, m2)
        /\ main cfg env st input = assemble cfg env st ev pack r m2).
Proof.
  unfold main. destruct input as [| | | | |ev]; auto.
  1-3: destruct (hook_disabled cfg); auto.
  destruct (hook_disabled cfg) eqn:Hen; [auto|].
  destruct (delegate_marked ev) eqn:Hd.
  { right. right. left. exists ev. repeat split; auto.
    unfold handle_event. rewrite agent_detection_cases, Hd. reflexivity. }
  destruct (decide (session_id ev ∈ agent_sessions st)) as [Hs|Hs].
  { left. unfold handle_event. rewrite agent_detection_cases, Hd.
    rewrite bool_decide_eq_true_2 by exact Hs. reflexivity. }
  pose proof (agent_detection_passes _ _ Hd Hs) as Ha.
  destruct (handle_event_passed cfg env st ev Ha) as (pack & m1 & Hp & _ & _ & _ & ->).
  destruct (route _ _ _ _ _) as [[r m2]|] eqn:Hr; [|auto].
  right. right. right. exists ev, pack, m1, r, m2. repeat split; auto.
Qed.

(** The state in memory after the rotation step and the routing. *)
Lemma routed_memory cfg env st ev pack m1 r m2 :
  pin_pack cfg env (session_id ev) {| mem := st; state_dirty := false |}
    = Some (pack, m1) ->
  route cfg env ev (extract_project_name (cwd ev)) m1 = Some (r, m2) ->
  agent_sessions (mem m2) = agent_sessions st
  /\ last_played (mem m2) = last_played st.
Proof.
  intros Hp Hr.
  destruct (pin_pack_total cfg env (session_id ev) {| mem := st; state_dirty := false |})
    as (pack' & m1' & Hp' & H1 & _ & H3).
  rewrite Hp in Hp'. inversion Hp'; subst pack' m1'.
  apply route_frame in Hr as (R1 & _ & R3). simpl in *. split; congruence.
Qed.

(** What the routing decides for the title and the popup of an event. *)
Lemma route_display cfg env ev m r m' :
  route cfg env ev (extract_project_name (cwd ev)) m = Some (r, m') ->
  title_of ev
    = Some (r_marker r +:+ extract_project_name (cwd ev) +:+ ": " +:+ r_status r)
  /\ r_notify r = (if notifying ev then "1" else "")
  /\ (notifying ev = true ->
      r_msg r = extract_project_name (cwd ev) +:+ dash +:+ label_of ev
      /\ r_notify_color r = color_of ev).
Proof.
  destruct (notifying ev) eqn:Hn.
  - rewrite (route_notifying _ _ _ _ _ Hn). intros H. inversion H; subst. simpl.
    unfold title_of. rewrite Hn.
    revert Hn. unfold notifying.
    repeat (case_eqb_goal; lazy iota beta); simpl; intros Hn;
      try discriminate Hn; try congruence; auto.
  - revert Hn. unfold route, title_of, notifying.
    repeat (case_eqb_goal; lazy iota beta);
      try destruct (cat_get cfg "annoyed");
      simpl; intros Hn H; try discriminate Hn; try discriminate H;
      inversion H; subst; simpl; repeat split; try congruence; auto.
Qed.

(** ** Pause *)

(** X2.  While the pause marker exists, no invocation, whatever its input,
    picks or plays a sound, sends a popup or changes [last_played]. *)
Theorem paused_hook_is_mute cfg env st input :
  paused env = true ->
  let o := main cfg env st input in
  sound_file o = None /\ played o = false /\ notification o = None
  /\ last_played (disk o) = last_played st.
Proof.
  intros Hp. cbv zeta.
  destruct (main_cases cfg env st input)
    as [->|[(_ & _ & ->)|[(ev & _ & _ & _ & ->)|(ev & pack & m1 & r & m2 & _ & _ & _ & _ & Hpin & Hr & ->)]]];
    try (repeat split; reflexivity).
  destruct (routed_memory _ _ _ _ _ _ _ _ Hpin Hr) as [_ Hlp].
  unfold assemble. rewrite Hp. cbn.
  rewrite !andb_false_r. cbn. repeat split; try reflexivity.
  destruct (state_dirty m2); [exact Hlp|reflexivity].
Qed.

Lemma paused_hook_witness :
  let env := {| PLATFORM := Mac; paused := true; now := 100;
                frontmost_is_terminal := false; manifests := Fixture.packs;
                sound_isfile := fun _ _ => true; rnd_pack := 0; rnd_sound := 0;
                updates := Fixture.VERSION_ONLY |} in
  let o := main Fixture.DEFAULT_CONFIG env empty_state
             (StdinEvent (Fixture.ev "SessionStart" "" "s1" "default")) in
  paused env = true /\ sound_file o = None /\ last_played (disk o) = ∅.
Proof.
  cbv zeta. split; [reflexivity|].
  pose proof (paused_hook_is_mute Fixture.DEFAULT_CONFIG
                {| PLATFORM := Mac; paused := true; now := 100;
                   frontmost_is_terminal := false; manifests := Fixture.packs;
                   sound_isfile := fun _ _ => true; rnd_pack := 0; rnd_sound := 0;
                updates := Fixture.VERSION_ONLY |}
                empty_state
                (StdinEvent (Fixture.ev "SessionStart" "" "s1" "default")) eq_refl) as H.
  cbv zeta in H. destruct H as (H1 & _ & _ & H4). split; [exact H1|exact H4].
Defined.

(** X3.  The pause commands: toggling twice restores the marker; pausing
    and resuming give the same result whatever state they find (resuming
    without a marker is not an error); the status command leaves the marker
    alone and reports the state that the last pause or resume left. *)
Theorem pause_commands_compose (marker : bool) :
  marker_after (cmd_toggle (marker_after (cmd_toggle marker))) = marker
  /\ marker_after (cmd_toggle marker) = negb marker
  /\ cmd_pause marker = cmd_pause (negb marker)
  /\ cmd_resume marker = cmd_resume (negb marker)
  /\ marker_after (cmd_resume (marker_after (cmd_pause marker))) = false
  /\ marker_after (cmd_status marker) = marker
  /\ marker_stdout (cmd_status (marker_after (cmd_pause marker)))
     = ["peon-ping: paused"]
  /\ marker_stdout (cmd_status (marker_after (cmd_resume marker)))
     = ["peon-ping: active"].
Proof. destruct marker; repeat split; reflexivity. Qed.

(** ** Title and popup *)

Lemma route_none_title cfg env ev project m :
  route cfg env ev project m = None -> title_of ev = None.
Proof.
  unfold route, title_of, notifying.
  repeat (case_eqb_goal; lazy iota beta);
    try destruct (cat_get cfg "annoyed");
    simpl; intros H; try discriminate H; try congruence; reflexivity.
Qed.

Lemma not_reaching_is_silent cfg env st ev :
  reaches_routing cfg st ev = false ->
  title (main cfg env st (StdinEvent ev)) = None
  /\ notification (main cfg env st (StdinEvent ev)) = None.
Proof.
  unfold reaches_routing, main. intros H.
  destruct (hook_disabled cfg); [split; reflexivity|].
  unfold handle_event. rewrite agent_detection_cases.
  destruct (delegate_marked ev); [split; reflexivity|].
  case_bool_decide; [split; reflexivity|discriminate H].
Qed.

(** X4.  The terminal title is written exactly for the events of the
    routing table that reach the routing (hook enabled, event not
    delegate-marked, session not recorded as an agent): "{project}: ready"
    for SessionStart, "{project}: working" for UserPromptSubmit, and the
    bullet marker followed by "{project}: {status}" for the notifying
    events; for every other input no title is written. *)
Theorem title_written_exactly_when cfg env st input :
  title (main cfg env st input) =
    match input with
    | StdinEvent ev => if reaches_routing cfg st ev then title_of ev else None
    | _ => None
    end.
Proof.
  destruct input as [| | | | |ev]; try reflexivity.
  1-3: unfold main; destruct (hook_disabled cfg); reflexivity.
  destruct (reaches_routing cfg st ev) eqn:Hreach.
  - destruct (reaching_passes _ _ _ Hreach) as [Hen Ha].
    unfold main. rewrite Hen.
    destruct (handle_event_passed cfg env st ev Ha) as (pack & m1 & _ & _ & _ & _ & ->).
    destruct (route _ _ _ _ _) as [[r m2]|] eqn:Hr.
    + apply route_display in Hr as (-> & _). cbv zeta. cbn [title].
      rewrite title_not_blank. reflexivity.
    + apply route_none_title in Hr. rewrite Hr. reflexivity.
  - apply not_reaching_is_silent, Hreach.
Qed.

(** X5.  [send_notification] is called exactly when a notifying event
    reaches the routing while the pause marker is absent, the platform is
    not native Windows and the terminal is not reported in front; the call
    then carries the message, the title written to the terminal and the
    colour of the routing table.  No other input ever sends a popup. *)
Theorem popup_sent_exactly_when cfg env st input :
  notification (main cfg env st input) =
    match input with
    | StdinEvent ev =>
        if popup_due cfg env st input
        then Some {| popup_msg := extract_project_name (cwd ev) +:+ dash +:+ label_of ev;
                     popup_title := bullet +:+ extract_project_name (cwd ev) +:+ ": "
                                    +:+ status_of ev;
                     popup_color := color_of ev |}
        else None
    | _ => None
    end.
Proof.
  destruct input as [| | | | |ev]; try reflexivity.
  1-3: unfold main; destruct (hook_disabled cfg); reflexivity.
  unfold popup_due.
  change (negb (hook_disabled cfg) && negb (delegate_marked ev)
          && negb (bool_decide (session_id ev ∈ agent_sessions st)))
    with (reaches_routing cfg st ev).
  destruct (reaches_routing cfg st ev) eqn:Hreach.
  - destruct (reaching_passes _ _ _ Hreach) as [Hen Ha].
    unfold main. rewrite Hen.
    destruct (notifying ev) eqn:Hn.
    + pose proof (notifying_event_outcome cfg env st ev Ha Hn) as H.
      cbv zeta in H. destruct H as (_ & _ & _ & ->).
      destruct (paused env), (bool_decide (PLATFORM env = Windows)),
        (terminal_is_focused env); reflexivity.
    + destruct (handle_event_passed cfg env st ev Ha) as (pack & m1 & _ & _ & _ & _ & ->).
      destruct (route _ _ _ _ _) as [[r m2]|] eqn:Hr; [|reflexivity].
      apply route_display in Hr as (_ & Hnot & _). rewrite Hn in Hnot.
      cbv zeta. cbn [notification]. rewrite Hnot. reflexivity.
  - apply not_reaching_is_silent, Hreach.
Qed.

(** ** Agent sessions over time *)

Lemma agent_sessions_step st i :
  agent_sessions (disk (invoke st i)) = agent_sessions st
  \/ exists ev, inv_input i = StdinEvent ev /\ delegate_marked ev = true
       /\ hook_disabled (inv_cfg i) = false
       /\ agent_sessions (disk (invoke st i)) = {[session_id ev]} ∪ agent_sessions st.
Proof.
  unfold invoke.
  destruct (main_cases (inv_cfg i) (inv_env i) st (inv_input i))
    as [->|[(_ & _ & ->)|[(ev & Hi & Hen & Hd & ->)|(ev & pack & m1 & r & m2 & Hi & Hen & Hd & Hs & Hp & Hr & E)]]].
  - left. reflexivity.
  - left. reflexivity.
  - right. exists ev. auto.
  - left. rewrite Hi in *. unfold main in *. rewrite Hen in *.
    apply handle_event_agent_sessions, agent_detection_passes; assumption.
Qed.

(** X6.  Over any sequence of invocations [agent_sessions] never loses a
    session id, and the only ids it gains are those of delegate-marked
    events handled while the hook was enabled. *)
Theorem agent_sessions_grow_only_by_delegates st invs sid :
  (sid ∈ agent_sessions st -> sid ∈ agent_sessions (state_after st invs))
  /\ (sid ∈ agent_sessions (state_after st invs) ->
      sid ∈ agent_sessions st
      \/ exists i ev, i ∈ invs /\ inv_input i = StdinEvent ev
           /\ session_id ev = sid /\ delegate_marked ev = true
           /\ hook_disabled (inv_cfg i) = false).
Proof.
  split; [apply agent_sessions_grow_run|].
  revert st. induction invs as [|i invs IH]; intros st H; [left; exact H|].
  simpl in H. apply IH in H as [H|(j & ev & Hj & Hrest)].
  - destruct (agent_sessions_step st i) as [E|(ev & Hi & Hd & Hen & E)];
      rewrite E in H; [left; exact H|].
    apply elem_of_union in H as [H|H]; [|left; exact H].
    apply elem_of_singleton in H. right. exists i, ev.
    split; [apply list_elem_of_here|auto].
  - right. exists j, ev. split; [apply list_elem_of_further, Hj|exact Hrest].
Qed.

(** ** Frame of one invocation *)

Lemma route_timestamps cfg env ev project m r m' :
  route cfg env ev project m = Some (r, m') ->
  forall sid', sid' <> session_id ev ->
    all_ts (mem m') !! sid' = all_ts (mem m) !! sid'.
Proof.
  unfold route. intros H sid' Hne.
  repeat (case_eqb; lazy iota beta in H);
    try destruct (cat_get cfg "annoyed");
    try discriminate; inversion H; subst; try reflexivity.
  unfold all_ts at 1. simpl. apply lookup_insert_ne. congruence.
Qed.

(** X7.  An event changes the pack record and the prompt timestamps of its
    own session only, and [last_played] for the category it retained only:
    the records of every other session and of every other category are
    after the invocation what they were before. *)
Theorem other_sessions_and_categories_untouched cfg env st ev :
  let o := main cfg env st (StdinEvent ev) in
  (forall sid', sid' <> session_id ev ->
     session_packs (disk o) !! sid' = session_packs st !! sid'
     /\ all_ts (disk o) !! sid' = all_ts st !! sid')
  /\ (forall c', c' <> category o ->
        last_played (disk o) !! c' = last_played st !! c').
Proof.
  cbv zeta. split.
  - intros sid' Hne.
    destruct (main_cases cfg env st (StdinEvent ev))
      as [->|[(_ & _ & ->)|[(ev' & _ & _ & _ & ->)|(ev' & pack & m1 & r & m2 & Hi & _ & _ & _ & Hp & Hr & ->)]]];
      try (split; reflexivity).
    inversion Hi; subst ev'. clear Hi.
    pose proof (route_timestamps _ _ _ _ _ _ _ Hr sid' Hne) as Hts.
    apply route_frame in Hr as (_ & Hsp & _).
    pose proof (pin_pack_total cfg env (session_id ev) {| mem := st; state_dirty := false |})
      as (pack' & m1' & Hp' & _ & Hts1 & _).
    rewrite Hp in Hp'. inversion Hp'; subst pack' m1'. clear Hp'.
    assert (session_packs (mem m1) !! sid' = session_packs st !! sid') as Hsp1.
    { apply pin_pack_cases in Hp as [(-> & _)|(-> & _)]; [reflexivity|].
      apply lookup_insert_ne. congruence. }
    assert (all_ts (mem m1) = all_ts st) as Hall
      by (unfold all_ts; rewrite Hts1; reflexivity).
    unfold assemble. cbn [disk].
    destruct (PyStr.truthy _ && negb _);
      [destruct (pick_sound _ _ _ _) as [[s st']|] eqn:Hpk|]; cbn.
    + apply pick_sound_frame in Hpk as (_ & Hpk1 & Hpk2 & _).
      unfold all_ts in *. rewrite Hpk1, Hpk2. split; congruence.
    + destruct (state_dirty m2); split; congruence.
    + destruct (state_dirty m2); split; congruence.
  - intros c' Hne.
    pose proof (last_played_step c' st
                  {| inv_cfg := cfg; inv_env := env; inv_input := StdinEvent ev |}) as H.
    unfold invoke, selected in H. cbn [inv_cfg inv_env inv_input] in H.
    rewrite H.
    destruct (String.eqb_spec (category (main cfg env st (StdinEvent ev))) c');
      [congruence|reflexivity].
Qed.

(** ** Where a sound comes from *)

Lemma pick_sound_some env pk c st0 s st' :
  pick_sound env pk c st0 = Some (s, st') ->
  exists mf sounds,
    manifests env pk = Some mf /\ mf !! c = Some sounds /\ s ∈ sounds.
Proof.
  unfold pick_sound. intros H.
  destruct (manifests env pk) as [mf|]; [|discriminate].
  destruct (mf !! c) as [sounds|] eqn:Hc; [|discriminate]. simpl in H.
  destruct sounds as [|x l]; [discriminate|].
  destruct (PyStr.choice _ _) as [pick|] eqn:Hch; [|discriminate].
  inversion H; subst pick st'. clear H.
  exists mf, (x :: l). split; [reflexivity|]. split; [exact Hc|].
  apply choice_elem in Hch. unfold candidates in Hch.
  destruct (Nat.leb _ _); [exact Hch|].
  apply list_elem_of_In, List.filter_In in Hch as [Hch _].
  apply list_elem_of_In, Hch.
Qed.

(** X8.  Whenever an invocation reports a sound, the pause marker is
    absent, the category retained is not empty, the pack is the configured
    [active_pack] ("peon" when the key is missing) if [pack_rotation] is
    empty and a member of [pack_rotation] otherwise, the file is the [file]
    of an entry of that pack's list for the category, that file is what
    [last_played] holds for the category afterwards, and the player is
    called exactly when the file exists. *)
Theorem reported_sound_comes_from_the_pack cfg env st input pk f :
  let o := main cfg env st input in
  sound_file o = Some (pk, f) ->
  paused env = false
  /\ category o <> ""
  /\ (match pack_rotation cfg with
      | [] => pk = default "peon" (active_pack cfg)
      | _ => pk ∈ pack_rotation cfg
      end)
  /\ (exists mf sounds s,
        manifests env pk = Some mf /\ mf !! category o = Some sounds
        /\ s ∈ sounds /\ file s = f)
  /\ last_played (disk o) !! category o = Some f
  /\ played o = sound_isfile env pk f.
Proof.
  cbv zeta.
  destruct (main_cases cfg env st input)
    as [->|[(_ & _ & ->)|[(ev & _ & _ & _ & ->)|(ev & pack & m1 & r & m2 & _ & _ & _ & _ & Hp & Hr & ->)]]];
    try discriminate.
  unfold assemble. cbn [sound_file category disk played].
  destruct (PyStr.truthy (enabled_category cfg (r_category r))) eqn:Hc;
    [|discriminate].
  destruct (paused env); [discriminate|]. cbn [negb andb].
  destruct (pick_sound _ _ _ _) as [[s st']|] eqn:Hpk; [|discriminate].
  cbn. intros E. inversion E; subst pk f. clear E.
  split; [reflexivity|]. split; [apply truthy_true, Hc|]. split.
  { destruct (pack_rotation cfg) as [|x l] eqn:Hrot.
    - unfold pin_pack in Hp. rewrite Hrot in Hp. inversion Hp. reflexivity.
    - apply pin_pack_cases in Hp as [(_ & [Hnil|[_ Hin]])|(_ & Hin & _)];
        [congruence|rewrite Hrot in Hin; exact Hin..]. }
  destruct (pick_sound_some _ _ _ _ _ _ Hpk) as (mf & sounds & Hmf & Hs & Hin).
  split; [exists mf, sounds, s; auto|].
  apply pick_sound_frame in Hpk as (_ & _ & _ & ->).
  split; [apply lookup_insert_eq|reflexivity].
Qed.

Lemma reported_sound_witness :
  let o := main Fixture.DEFAULT_CONFIG (Fixture.env_at 100) empty_state
             (StdinEvent (Fixture.ev "Stop" "" "s1" "default")) in
  sound_file o = Some ("peon", "Done1.wav")
  /\ last_played (disk o) !! category o = Some "Done1.wav"
  /\ played o = true.
Proof.
  cbv zeta. split; [reflexivity|].
  pose proof (reported_sound_comes_from_the_pack Fixture.DEFAULT_CONFIG
                (Fixture.env_at 100) empty_state
                (StdinEvent (Fixture.ev "Stop" "" "s1" "default"))
                "peon" "Done1.wav" eq_refl) as (_ & _ & _ & _ & H5 & H6).
  split; [exact H5|exact H6].
Defined.

Lemma filter_nil_iff {A} (f : A -> bool) (l : list A) :
  List.filter f l = [] <-> Forall (fun x => f x = false) l.
Proof.
  induction l as [|x l IH]; simpl.
  - split; [constructor|reflexivity].
  - destruct (f x) eqn:E.
    + split; [discriminate|]. intros H. inversion H; congruence.
    + rewrite IH. split; [constructor; assumption|]. intros H. inversion H; assumption.
Qed.

(** X9.  The selector gives no sound exactly in two cases: the list of the
    category is empty (an unreadable manifest or a missing category read as
    the empty list), or the list has two entries or more and every entry
    names the last-played file, in which case the empty candidate pool makes
    [random.choice] raise and the error is swallowed.  In particular a list
    with a single entry always gives a sound. *)
Theorem selector_silent_exactly_when env pk c st0 :
  let sounds :=
    match manifests env pk with
    | Some mf => default [] (mf !! c)
    | None => []
    end in
  let last_file := default "" (last_played st0 !! c) in
  pick_sound env pk c st0 = None
  <-> sounds = []
      \/ (2 <= length sounds /\ Forall (fun s => file s = last_file) sounds).
Proof.
  cbv zeta. unfold pick_sound.
  destruct (manifests env pk) as [mf|]; [|split; auto].
  cbv zeta. destruct (default [] (mf !! c)) as [|x l] eqn:Hs; [split; auto|].
  set (last_file := default "" (last_played st0 !! c)).
  unfold candidates.
  destruct (Nat.leb_spec (length (x :: l)) 1) as [Hle|Hgt].
  - destruct (choice_cons (rnd_sound env) x l) as (y & -> & _).
    split; [discriminate|]. intros [H|[H _]]; [discriminate|simpl in *; lia].
  - split.
    + intros H. right. split; [simpl in *; lia|].
      destruct (List.filter _ (x :: l)) as [|y l'] eqn:Hf.
      * apply filter_nil_iff in Hf.
        eapply Forall_impl; [exact Hf|]. intros s Hsf. simpl in Hsf.
        apply negb_false_iff, String.eqb_eq in Hsf. exact Hsf.
      * destruct (choice_cons (rnd_sound env) y l') as (z & Hz & _).
        rewrite Hz in H. discriminate.
    + intros [H|[_ H]]; [discriminate|].
      assert (List.filter (fun s => negb (String.eqb (file s) last_file)) (x :: l) = [])
        as ->.
      { apply filter_nil_iff. eapply Forall_impl; [exact H|].
        intros s Hsf. simpl. rewrite Hsf, String.eqb_refl. reflexivity. }
      reflexivity.
Qed.

(** ** Prompt timestamps *)

Lemma route_timestamps_cases cfg env ev project m r m' :
  route cfg env ev project m = Some (r, m') ->
  (prompt_timestamps (mem m') = prompt_timestamps (mem m)
   /\ (hook_event_name ev = "UserPromptSubmit" -> cat_get cfg "annoyed" = false))
  \/ (hook_event_name ev = "UserPromptSubmit" /\ cat_get cfg "annoyed" = true
      /\ prompt_timestamps (mem m')
         = TsDict (<[session_id ev := recent_prompts cfg (now env) (session_id ev) (mem m)]>
                     (all_ts (mem m)))).
Proof.
  unfold route. intros H.
  repeat (case_eqb; lazy iota beta in H);
    try destruct (cat_get cfg "annoyed") eqn:Hann;
    try discriminate; inversion H; subst;
    try (left; split; [reflexivity|intros; congruence]).
  right. auto.
Qed.

(** X10.  [prompt_timestamps] is rewritten by exactly one kind of
    invocation: a [UserPromptSubmit] that reaches the routing while the
    [annoyed] category is enabled, which stores for its session the pruned
    list followed by the current time (a legacy list-shaped value being
    replaced by a dictionary).  Every other invocation, in particular every
    prompt handled with [annoyed] disabled, leaves the field as it was. *)
Theorem timestamps_change_only_on_counted_prompts cfg env st input :
  let o := main cfg env st input in
  prompt_timestamps (disk o) = prompt_timestamps st
  \/ exists ev,
       input = StdinEvent ev
       /\ hook_event_name ev = "UserPromptSubmit"
       /\ cat_get cfg "annoyed" = true
       /\ reaches_routing cfg st ev = true
       /\ prompt_timestamps (disk o)
          = TsDict (<[session_id ev := recent_prompts cfg (now env) (session_id ev) st]>
                      (all_ts st)).
Proof.
  cbv zeta.
  destruct (main_cases cfg env st input)
    as [->|[(_ & _ & ->)|[(ev & _ & _ & _ & ->)|(ev & pack & m1 & r & m2 & Hi & Hen & Hd & Hs & Hp & Hr & ->)]]];
    try (left; reflexivity).
  pose proof (pin_pack_total cfg env (session_id ev) {| mem := st; state_dirty := false |})
    as (pack' & m1' & Hp' & _ & Hts1 & _).
  rewrite Hp in Hp'. inversion Hp'; subst pack' m1'. clear Hp'. simpl in Hts1.
  assert (prompt_timestamps
            (disk (assemble cfg env st ev pack r m2))
          = (if state_dirty m2 then prompt_timestamps (mem m2) else prompt_timestamps st)
          \/ prompt_timestamps (disk (assemble cfg env st ev pack r m2))
             = prompt_timestamps (mem m2)) as Hdisk.
  { unfold assemble. cbn [disk].
    destruct (PyStr.truthy _ && negb _);
      [destruct (pick_sound _ _ _ _) as [[s st']|] eqn:Hpk|]; cbn.
    - right. apply pick_sound_frame in Hpk as (_ & _ & -> & _). reflexivity.
    - left. destruct (state_dirty m2); reflexivity.
    - left. destruct (state_dirty m2); reflexivity. }
  apply route_timestamps_cases in Hr as Hcase.
  destruct Hcase as [[Hsame _]|(Hname & Hann & Hnew)].
  - left. destruct Hdisk as [->| ->]; [destruct (state_dirty m2)|]; congruence.
  - right. exists ev.
    assert (state_dirty m2 = true) as Hdirty.
    { revert Hr. unfold route. rewrite Hname.
      change (String.eqb "UserPromptSubmit" "SessionStart") with false.
      change (String.eqb "UserPromptSubmit" "UserPromptSubmit") with true.
      lazy iota beta. rewrite Hann. intros E. inversion E. reflexivity. }
    assert (all_ts (mem m1) = all_ts st) as Hall
      by (unfold all_ts; rewrite Hts1; reflexivity).
    assert (recent_prompts cfg (now env) (session_id ev) (mem m1)
            = recent_prompts cfg (now env) (session_id ev) st) as Hrec
      by (unfold recent_prompts; rewrite Hall; reflexivity).
    rewrite Hall, Hrec in Hnew.
    repeat split; auto.
    + unfold reaches_routing. rewrite Hen, Hd.
      rewrite bool_decide_eq_false_2 by exact Hs. reflexivity.
    + destruct Hdisk as [->| ->]; [rewrite Hdirty|]; exact Hnew.
Qed.

(** X11.  After a counted prompt the list stored for the session ends with
    the current time; every timestamp before it was already recorded and is
    inside the window; no recorded timestamp inside the window is dropped;
    the list is at most one longer than the one found; and the category is
    "annoyed" exactly when the length of the stored list reaches the
    threshold (3 when the key is missing). *)
Theorem stored_prompts_are_pruned cfg env st ev sid :
  hook_disabled cfg = false ->
  cat_get cfg "annoyed" = true ->
  is_prompt_of sid ev = true ->
  sid ∉ agent_sessions st ->
  let o := main cfg env st (StdinEvent ev) in
  let old := recorded_prompts sid st in
  exists kept,
    recorded_prompts sid (disk o) = (kept ++ [now env])%list
    /\ (forall t, t ∈ kept <-> t ∈ old /\ (now env - t < window_of cfg)%Z)
    /\ length kept <= length old
    /\ (category o = "annoyed"
        <-> (default 3 (annoyed_threshold cfg) <= Z.of_nat (S (length kept)))%Z).
Proof.
  intros Hen Hann Hp Hs. cbv zeta.
  pose proof (prompt_step cfg env st ev sid Hen Hann Hp Hs) as H.
  cbv zeta in H. destruct H as (Hc & Hr & _).
  exists (List.filter (fun t0 => (now env - t0 <? window_of cfg)%Z) (recorded_prompts sid st)).
  split; [rewrite Hr; apply recent_prompts_unfold|]. split; [|split].
  - intros t. rewrite !list_elem_of_In, List.filter_In, Z.ltb_lt. reflexivity.
  - apply List.filter_length_le.
  - rewrite Hc, recent_prompts_unfold, length_app. simpl.
    replace (length (List.filter (fun t0 => (now env - t0 <? window_of cfg)%Z)
                       (recorded_prompts sid st)) + 1)
      with (S (length (List.filter (fun t0 => (now env - t0 <? window_of cfg)%Z)
                         (recorded_prompts sid st)))) by lia.
    unfold threshold_of.
    destruct (Z.leb_spec (default 3%Z (annoyed_threshold cfg))
                (Z.of_nat (S (length (List.filter
                   (fun t0 => (now env - t0 <? window_of cfg)%Z)
                   (recorded_prompts sid st)))))); split; intros; try lia;
      try reflexivity; discriminate.
Qed.

Lemma stored_prompts_witness :
  let st := set_prompt_timestamps {["s1" := [50; 95; 97]%Z]} empty_state in
  let ev := Fixture.ev "UserPromptSubmit" "" "s1" "default" in
  let o := main Fixture.DEFAULT_CONFIG (Fixture.env_at 100) st (StdinEvent ev) in
  hook_disabled Fixture.DEFAULT_CONFIG = false
  /\ cat_get Fixture.DEFAULT_CONFIG "annoyed" = true
  /\ is_prompt_of "s1" ev = true
  /\ ("s1" ∉ agent_sessions st)
  /\ recorded_prompts "s1" (disk o) = [95; 97; 100]%Z
  /\ exists kept, recorded_prompts "s1" (disk o) = (kept ++ [100%Z])%list
                  /\ length kept <= 3.
Proof.
  cbv zeta.
  assert ("s1" ∉ agent_sessions
            (set_prompt_timestamps {["s1" := [50; 95; 97]%Z]} empty_state)) as Hs
    by apply not_elem_of_empty.
  destruct (stored_prompts_are_pruned Fixture.DEFAULT_CONFIG (Fixture.env_at 100)
              (set_prompt_timestamps {["s1" := [50; 95; 97]%Z]} empty_state)
              (Fixture.ev "UserPromptSubmit" "" "s1" "default") "s1"
              eq_refl eq_refl eq_refl Hs) as (kept & H1 & _ & H3 & _).
  repeat (split; [reflexivity|]). split; [exact Hs|]. split; [reflexivity|].
  exists kept. split; [exact H1|exact H3].
Defined.

(** ** The project name and the text of the popups *)

Lemma sub_outside_class_all_in_class s :
  Forall (fun c => PyStr.in_class c = true)
         (list_ascii_of_string (PyStr.sub_outside_class s)).
Proof.
  induction s as [|c r IH]; simpl; [constructor|].
  destruct (PyStr.in_class c) eqn:E; [|exact IH].
  simpl. constructor; assumption.
Qed.

Lemma sub_outside_class_fixed s :
  Forall (fun c => PyStr.in_class c = true) (list_ascii_of_string s) ->
  PyStr.sub_outside_class s = s.
Proof.
  induction s as [|c r IH]; simpl; intros H; [reflexivity|].
  inversion H as [|? ? Hc Hr]; subst. rewrite Hc, (IH Hr). reflexivity.
Qed.

Lemma after_last_no_slash s : forall acc,
  Forall (fun c => PyStr.in_class c = true) (list_ascii_of_string s) ->
  after_last acc s = acc.
Proof.
  induction s as [|c r IH]; simpl; intros acc H; [reflexivity|].
  inversion H as [|? ? Hc Hr]; subst.
  destruct (Ascii.eqb_spec c "/") as [->|_]; [discriminate Hc|].
  apply IH, Hr.
Qed.

Lemma project_name_cases cwd :
  extract_project_name cwd = "claude"
  \/ (extract_project_name cwd = PyStr.sub_outside_class (PyStr.basename cwd)
      /\ extract_project_name cwd <> "").
Proof.
  unfold extract_project_name.
  destruct (PyStr.truthy cwd); simpl; [|auto].
  destruct (PyStr.truthy (PyStr.basename cwd)); simpl; [|auto].
  destruct (PyStr.truthy (PyStr.sub_outside_class (PyStr.basename cwd))) eqn:E; [|auto].
  right. split; [reflexivity|]. apply truthy_true, E.
Qed.

Lemma project_name_all_in_class cwd :
  Forall (fun c => PyStr.in_class c = true)
         (list_ascii_of_string (extract_project_name cwd)).
Proof.
  destruct (project_name_cases cwd) as [->|[-> _]].
  - repeat constructor.
  - apply sub_outside_class_all_in_class.
Qed.

(** X12.  The project name is never empty, consists of characters of
    [A-Za-z0-9 ._-] only (so it holds no slash, quote or backslash), and is
    a fixed point of [extract_project_name]. *)
Theorem project_name_is_clean cwd :
  let p := extract_project_name cwd in
  p <> ""
  /\ Forall (fun c => PyStr.in_class c = true) (list_ascii_of_string p)
  /\ extract_project_name p = p.
Proof.
  cbv zeta. pose proof (project_name_all_in_class cwd) as Hall.
  assert (extract_project_name cwd <> "") as Hne.
  { destruct (project_name_cases cwd) as [->|[_ H]]; [discriminate|exact H]. }
  split; [exact Hne|]. split; [exact Hall|].
  set (p := extract_project_name cwd) in *.
  unfold extract_project_name.
  apply truthy_true in Hne. rewrite Hne. simpl.
  rewrite basename_after_last, (after_last_no_slash p p Hall).
  rewrite Hne. simpl. rewrite (sub_outside_class_fixed p Hall), Hne. reflexivity.
Qed.

Lemma count_char_app c (a b : string) :
  count_char c (a +:+ b) = count_char c a + count_char c b.
Proof.
  induction a as [|x a IH]; [reflexivity|].
  rewrite append_cons. simpl. rewrite IH. lia.
Qed.

Lemma count_char_outside_class c s :
  PyStr.in_class c = false ->
  Forall (fun x => PyStr.in_class x = true) (list_ascii_of_string s) ->
  count_char c s = 0.
Proof.
  intros Hc. induction s as [|x r IH]; simpl; intros H; [reflexivity|].
  inversion H as [|? ? Hx Hr]; subst.
  destruct (Ascii.eqb_spec x c) as [->|_]; [congruence|]. apply IH, Hr.
Qed.

Lemma double_single_quotes_fixed s :
  count_char "'" s = 0 -> double_single_quotes s = s.
Proof.
  induction s as [|x r IH]; simpl; intros H; [reflexivity|].
  destruct (Ascii.eqb x "'"); [discriminate|]. rewrite IH by exact H. reflexivity.
Qed.

(** The popup of an invocation, when there is one. *)
Lemma popup_shape cfg env st input p :
  notification (main cfg env st input) = Some p ->
  exists ev,
    input = StdinEvent ev /\ notifying ev = true
    /\ popup_msg p = extract_project_name (cwd ev) +:+ dash +:+ label_of ev
    /\ popup_title p
       = bullet +:+ extract_project_name (cwd ev) +:+ ": " +:+ status_of ev.
Proof.
  destruct (main_cases cfg env st input)
    as [->|[(_ & _ & ->)|[(ev & _ & _ & _ & ->)|(ev & pack & m1 & r & m2 & Hi & Hen & Hd & Hs & Hp & Hr & E)]]];
    try discriminate.
  subst input. unfold main in *. rewrite Hen in *.
  destruct (notifying ev) eqn:Hn.
  - pose proof (notifying_event_outcome cfg env st ev
                  (agent_detection_passes _ _ Hd Hs) Hn) as H.
    cbv zeta in H. destruct H as (_ & _ & _ & ->).
    destruct (_ && _); [|discriminate].
    intros H. inversion H; subst p. exists ev. auto.
  - rewrite E. apply route_display in Hr as (_ & Hnot & _). rewrite Hn in Hnot.
    unfold assemble. cbn [notification]. rewrite Hnot. discriminate.
Qed.

(** X13.  Whatever [cwd] holds, the message and the title of a popup sent
    by [main] contain no double quote and no single quote: the AppleScript
    line built from them has exactly its own four double quotes, and the
    PowerShell escaping leaves the message as it is, between its own two
    single quotes. *)
Theorem popup_text_cannot_break_the_script cfg env st input p :
  notification (main cfg env st input) = Some p ->
  count_char (ascii_of_nat 34) (mac_script (popup_msg p) (popup_title p)) = 4
  /\ double_single_quotes (popup_msg p) = popup_msg p
  /\ count_char "'" (ps_label_text (popup_msg p)) = 2.
Proof.
  intros H. destruct (popup_shape _ _ _ _ _ H) as (ev & _ & _ & Hm & Ht).
  pose proof (project_name_all_in_class (cwd ev)) as Hall.
  assert (forall c, PyStr.in_class c = false ->
            count_char c dash = 0 -> count_char c (label_of ev) = 0 ->
            count_char c (popup_msg p) = 0) as Hmsg.
  { intros c Hc Hd Hl. rewrite Hm, !count_char_app, Hd, Hl.
    rewrite (count_char_outside_class c _ Hc Hall). reflexivity. }
  assert (forall c, count_char c (label_of ev) = 0 \/ PyStr.in_class c = true) as Hlab.
  { intros c. unfold label_of.
    destruct (String.eqb _ _); [|destruct (is_idle_prompt ev)];
      destruct c as [[] [] [] [] [] [] [] []]; vm_compute; auto. }
  assert (count_char (ascii_of_nat 34) (popup_msg p) = 0) as Hq.
  { apply Hmsg; [reflexivity|reflexivity|].
    destruct (Hlab (ascii_of_nat 34)) as [E|E]; [exact E|discriminate E]. }
  assert (count_char "'" (popup_msg p) = 0) as Hsq.
  { apply Hmsg; [reflexivity|reflexivity|].
    destruct (Hlab "'"%char) as [E|E]; [exact E|discriminate E]. }
  assert (count_char (ascii_of_nat 34) (popup_title p) = 0) as Hqt.
  { rewrite Ht, !count_char_app.
    rewrite (count_char_outside_class (ascii_of_nat 34) _ eq_refl Hall).
    unfold status_of.
    destruct (String.eqb _ _); [|destruct (is_idle_prompt ev)]; reflexivity. }
  split; [|split].
  - unfold mac_script. rewrite !count_char_app, Hq, Hqt. reflexivity.
  - apply double_single_quotes_fixed, Hsq.
  - unfold ps_label_text. rewrite (double_single_quotes_fixed _ Hsq).
    rewrite !count_char_app, Hsq. reflexivity.
Qed.

Lemma popup_text_witness :
  let ev := {| hook_event_name := "Stop"; notification_type := "";
               cwd := "/tmp/it's " +:+ dquote +:+ "quoted"; session_id := "s1";
               permission_mode := "default" |} in
  exists p,
    notification (main Fixture.DEFAULT_CONFIG (Fixture.env_at 100) empty_state
                    (StdinEvent ev)) = Some p
    /\ popup_msg p = "its quoted  —  Task complete"
    /\ count_char (ascii_of_nat 34) (mac_script (popup_msg p) (popup_title p)) = 4.
Proof.
  cbv zeta.
  destruct (notification _) as [p|] eqn:E; [|discriminate E].
  exists p. split; [reflexivity|].
  split; [inversion E; reflexivity|].
  apply (popup_text_cannot_break_the_script _ _ _ _ p E).
Defined.

(** ** Update check *)

Lemma check_throttled t fetch fs :
  (t - match last_update_check fs with Some (Some n) => n | _ => 0%Z end <= 86400)%Z ->
  check_for_updates t fetch fs = (fs, false).
Proof.
  intros H. unfold check_for_updates.
  destruct (Z.leb_spec
              (t - match last_update_check fs with Some (Some n) => n | _ => 0%Z end)
              86400); [reflexivity|lia].
Qed.

Lemma check_runs t fetch fs :
  (86400 < t - match last_update_check fs with Some (Some n) => n | _ => 0%Z end)%Z ->
  check_for_updates t fetch fs =
    match fetch with
    | FetchFailed => (stamp t fs, true)
    | Fetched remote =>
        if PyStr.truthy remote && PyStr.truthy (default "" (VERSION fs))
           && negb (String.eqb remote (default "" (VERSION fs)))
        then (set_update_available (Some remote) (stamp t fs), true)
        else (set_update_available None (stamp t fs), true)
    end.
Proof.
  intros H. unfold check_for_updates.
  destruct (Z.leb_spec
              (t - match last_update_check fs with Some (Some n) => n | _ => 0%Z end)
              86400); [lia|reflexivity].
Qed.

(** X14.  The update check is throttled: when the last recorded check is
    at most 86400 seconds old nothing is requested and no file is touched;
    a missing or unreadable record counts as time 0.  When the check runs
    it stamps the current time, so that a second check within the next
    86400 seconds is a no-op whatever the first one fetched, also when the
    request failed. *)
Theorem update_check_at_most_daily t t' fetch fetch' fs :
  let last := match last_update_check fs with Some (Some n) => n | _ => 0%Z end in
  ((t - last <= 86400)%Z -> check_for_updates t fetch fs = (fs, false))
  /\ ((86400 < t - last)%Z ->
      snd (check_for_updates t fetch fs) = true
      /\ last_update_check (fst (check_for_updates t fetch fs)) = Some (Some t)
      /\ ((t' - t <= 86400)%Z ->
          check_for_updates t' fetch' (fst (check_for_updates t fetch fs))
          = (fst (check_for_updates t fetch fs), false))).
Proof.
  cbv zeta. split; [apply check_throttled|].
  intros Hgt. rewrite (check_runs _ _ _ Hgt).
  destruct fetch as [|remote]; [|destruct (_ && _)];
    (split; [reflexivity|]; split; [reflexivity|];
     intros Hle; apply check_throttled; simpl; exact Hle).
Qed.

Lemma update_check_daily_witness :
  let fs := {| last_update_check := Some (Some 1000%Z); VERSION := Some "1.0.0";
               update_available := None |} in
  (86400 < 91000 - 1000)%Z
  /\ (91100 - 91000 <= 86400)%Z
  /\ snd (check_for_updates 91000 (Fetched "1.1.0") fs) = true
  /\ check_for_updates 91100 (Fetched "1.2.0")
       (fst (check_for_updates 91000 (Fetched "1.1.0") fs))
     = (fst (check_for_updates 91000 (Fetched "1.1.0") fs), false).
Proof.
  cbv zeta. split; [lia|]. split; [lia|].
  pose proof (update_check_at_most_daily 91000 91100 (Fetched "1.1.0") (Fetched "1.2.0")
                {| last_update_check := Some (Some 1000%Z); VERSION := Some "1.0.0";
                   update_available := None |}) as [_ H].
  cbv zeta in H. destruct H as (H1 & _ & H3); [simpl; lia|].
  split; [exact H1|]. apply H3. lia.
Defined.

(** X15.  A check that runs leaves the flag file holding the remote
    version exactly when the remote and the local version are both
    non-empty and differ; in every other case with an answer the flag file
    is removed; a failed request leaves the flag file as it was.  The
    [VERSION] file is never written. *)
Theorem update_flag_tracks_version_difference t fetch fs :
  let last := match last_update_check fs with Some (Some n) => n | _ => 0%Z end in
  (86400 < t - last)%Z ->
  let fs' := fst (check_for_updates t fetch fs) in
  VERSION fs' = VERSION fs
  /\ match fetch with
     | FetchFailed => update_available fs' = update_available fs
     | Fetched remote =>
         (remote <> "" /\ default "" (VERSION fs) <> ""
          /\ remote <> default "" (VERSION fs) ->
          update_available fs' = Some remote)
         /\ (remote = "" \/ default "" (VERSION fs) = ""
             \/ remote = default "" (VERSION fs) ->
             update_available fs' = None)
     end.
Proof.
  cbv zeta. intros Hgt. rewrite (check_runs _ _ _ Hgt).
  destruct fetch as [|remote]; [split; reflexivity|].
  unfold PyStr.truthy.
  destruct (String.eqb_spec remote "") as [Hr|Hr];
    destruct (String.eqb_spec (default "" (VERSION fs)) "") as [Hl|Hl];
    destruct (String.eqb_spec remote (default "" (VERSION fs))) as [He|He];
    simpl; (split; [reflexivity|]); split; intros H; try reflexivity;
    try (destruct H as (? & ? & ?); congruence);
    try (destruct H as [?|[?|?]]; congruence).
Qed.

Lemma update_flag_witness :
  let fs := {| last_update_check := None; VERSION := Some "1.0.0";
               update_available := None |} in
  (86400 < 1700000000 - 0)%Z
  /\ update_available (fst (check_for_updates 1700000000 (Fetched "1.1.0") fs))
     = Some "1.1.0"
  /\ update_available (fst (check_for_updates 1700000000 (Fetched "1.0.0") fs)) = None.
Proof.
  cbv zeta. split; [lia|].
  pose proof (update_flag_tracks_version_difference 1700000000 (Fetched "1.1.0")
                {| last_update_check := None; VERSION := Some "1.0.0";
                   update_available := None |}) as H1.
  pose proof (update_flag_tracks_version_difference 1700000000 (Fetched "1.0.0")
                {| last_update_check := None; VERSION := Some "1.0.0";
                   update_available := None |}) as H2.
  cbv zeta in H1, H2.
  destruct H1 as (_ & H1 & _); [simpl; lia|].
  destruct H2 as (_ & _ & H2); [simpl; lia|].
  split; [apply H1; repeat split; discriminate|].
  apply H2. right. right. reflexivity.
Defined.

Lemma flag_after_check t remote fs :
  (86400 < t - match last_update_check fs with Some (Some n) => n | _ => 0%Z end)%Z ->
  VERSION (fst (check_for_updates t (Fetched remote) fs)) = VERSION fs
  /\ update_available (fst (check_for_updates t (Fetched remote) fs))
     = if PyStr.truthy remote && PyStr.truthy (default "" (VERSION fs))
          && negb (String.eqb remote (default "" (VERSION fs)))
       then Some remote else None.
Proof.
  intros Hgt. rewrite (check_runs _ _ _ Hgt).
  destruct (_ && _); split; reflexivity.
Qed.

Lemma route_session_start cfg env ev project m :
  hook_event_name ev = "SessionStart" ->
  exists r, route cfg env ev project m = Some (r, m).
Proof. intros H. unfold route. rewrite H. eexists. reflexivity. Qed.

Lemma notices_other_event ev env :
  hook_event_name ev <> "SessionStart" -> session_start_notices ev env = [].
Proof.
  intros H. unfold session_start_notices.
  destruct (String.eqb_spec (hook_event_name ev) "SessionStart"); [congruence|].
  reflexivity.
Qed.

(** X16.  The error stream after an update check that ran.  When the files
    that [main] reads are those left by the check, a [SessionStart] that
    gets past the kill switch and agent detection prints the update notice,
    naming the local and the remote version, exactly when the check found
    two non-empty versions that differ, and after it the pause notice
    exactly when the pause marker exists; an input that raises an uncaught
    exception prints the traceback; every other invocation, a
    [SessionStart] stopped by the kill switch or by agent detection
    included, prints nothing. *)
Theorem update_notice_follows_check t remote fs cfg env st input :
  let last := match last_update_check fs with Some (Some n) => n | _ => 0%Z end in
  (86400 < t - last)%Z ->
  updates env = fst (check_for_updates t (Fetched remote) fs) ->
  let local_version := default "" (VERSION fs) in
  stderr (main cfg env st input) =
    if routed_session_start cfg st input then
      ((if PyStr.truthy remote && PyStr.truthy local_version
           && negb (String.eqb remote local_version)
        then ["peon-ping update available: " +:+ local_version +:+ " → " +:+ remote
              +:+ " — run: curl -fsSL https://raw.githubusercontent.com/tonyyont/peon-ping/main/install.sh | bash"]
        else [])
       ++ (if paused env
           then ["peon-ping: sounds paused — run 'peon --resume' or '/peon-ping-toggle' to unpause"]
           else []))%list
    else if raising_input input && negb (hook_disabled cfg) then [traceback]
    else [].
Proof.
  cbv zeta. intros Hgt Hupd.
  destruct (flag_after_check t remote fs Hgt) as [Hv Hflag].
  rewrite <- Hupd in Hv, Hflag.
  destruct input as [| | | | |ev]; try reflexivity.
  1-3: unfold main; destruct (hook_disabled cfg); reflexivity.
  cbn [routed_session_start raising_input]. rewrite andb_false_l.
  destruct (reaches_routing cfg st ev) eqn:Hreach.
  - destruct (reaching_passes _ _ _ Hreach) as [Hen Ha].
    unfold main. rewrite Hen.
    destruct (handle_event_passed cfg env st ev Ha) as (pack & m1 & _ & _ & _ & _ & ->).
    rewrite andb_true_r.
    destruct (String.eqb_spec (hook_event_name ev) "SessionStart") as [He|He].
    + destruct (route_session_start cfg env ev (extract_project_name (cwd ev)) m1 He)
        as [r ->].
      cbv zeta. cbn [stderr]. unfold session_start_notices, update_notice.
      rewrite He, Hflag, Hv.
      change (String.eqb "SessionStart" "SessionStart") with true.
      cbn [andb].
      destruct (PyStr.truthy remote) eqn:Hr; [|reflexivity].
      destruct (PyStr.truthy (default "" (VERSION fs))) eqn:Hl; [|reflexivity].
      destruct (negb (String.eqb remote (default "" (VERSION fs)))); [|reflexivity].
      cbn [andb]. rewrite Hr.
      assert (default "?" (VERSION fs) = default "" (VERSION fs)) as ->.
      { destruct (VERSION fs) as [v|]; [reflexivity|discriminate Hl]. }
      reflexivity.
    + destruct (route _ _ _ _ _) as [[r m2]|]; [|reflexivity].
      cbv zeta. cbn [stderr]. apply notices_other_event, He.
  - rewrite andb_false_r.
    rewrite (not_reaching_exits cfg env st ev Hreach). reflexivity.
Qed.

Lemma update_notice_witness :
  let fs := Fixture.VERSION_ONLY in
  let env := {| PLATFORM := Linux; paused := true; now := 100;
                frontmost_is_terminal := false; manifests := Fixture.packs;
                sound_isfile := fun _ _ => true; rnd_pack := 0; rnd_sound := 0;
                updates := fst (check_for_updates 1700000000 (Fetched "1.1.0") fs) |} in
  let notice :=
    "peon-ping update available: 1.0.0 → 1.1.0 — run: curl -fsSL https://raw.githubusercontent.com/tonyyont/peon-ping/main/install.sh | bash" in
  (86400 < 1700000000 - 0)%Z
  /\ stderr (main Fixture.DEFAULT_CONFIG env empty_state
               (StdinEvent (Fixture.ev "SessionStart" "" "s1" "default")))
     = [notice;
        "peon-ping: sounds paused — run 'peon --resume' or '/peon-ping-toggle' to unpause"]
  /\ stderr (main Fixture.DEFAULT_CONFIG env empty_state
               (StdinEvent (Fixture.ev "SessionStart" "" "s1" "delegate")))
     = [].
Proof.
  cbv zeta. split; [lia|].
  split.
  - rewrite (update_notice_follows_check 1700000000 "1.1.0" Fixture.VERSION_ONLY);
      [reflexivity|simpl; lia|reflexivity].
  - rewrite (update_notice_follows_check 1700000000 "1.1.0" Fixture.VERSION_ONLY);
      [reflexivity|simpl; lia|reflexivity].
Defined.

(** ** Popup slots *)

Lemma find_slot_from_some fuel d : forall slot s,
  find_slot_from fuel d slot = Some s ->
  mkdir_ok d s = true /\ slot <= s < slot + fuel
  /\ forall k, slot <= k < s -> mkdir_ok d k = false.
Proof.
  induction fuel as [|fuel IH]; intros slot s H; [discriminate|].
  simpl in H. destruct (mkdir_ok d slot) eqn:Hok.
  - inversion H; subst. split; [exact Hok|]. split; [lia|]. intros k Hk. lia.
  - apply IH in H as (H1 & H2 & H3). split; [exact H1|]. split; [lia|].
    intros k Hk. destruct (decide (k = slot)) as [->|Hne]; [exact Hok|].
    apply H3. lia.
Qed.

Lemma find_slot_from_none fuel d : forall slot,
  find_slot_from fuel d slot = None ->
  forall k, slot <= k < slot + fuel -> mkdir_ok d k = false.
Proof.
  induction fuel as [|fuel IH]; intros slot H k Hk; [lia|].
  simpl in H. destruct (mkdir_ok d slot) eqn:Hok; [discriminate|].
  destruct (decide (k = slot)) as [->|Hne]; [exact Hok|].
  apply (IH (S slot) H). lia.
Qed.

Lemma find_slot_from_least fuel d : forall slot s,
  mkdir_ok d s = true ->
  (forall k, slot <= k < s -> mkdir_ok d k = false) ->
  slot <= s < slot + fuel ->
  find_slot_from fuel d slot = Some s.
Proof.
  induction fuel as [|fuel IH]; intros slot s Hok Hlow Hs; [lia|].
  simpl. destruct (decide (s = slot)) as [->|Hne].
  - rewrite Hok. reflexivity.
  - rewrite (Hlow slot) by lia. apply IH; [exact Hok| |lia].
    intros k Hk. apply Hlow. lia.
Qed.

(** X17.  The slot loop of [send_notification].  When it ends, the slot it
    ends on is the least one whose [os.mkdir] returns, and it ends on that
    slot whatever the number of iterations allowed beyond it.  It ends as
    soon as some [os.mkdir] can return, and never when none can (a popup
    directory that cannot be written keeps the loop running for ever).  In
    a directory where [os.mkdir] fails on the existing slots only, it ends
    within as many iterations as there are slots, plus one.  A popup opened
    while the slot of an earlier one exists gets a different slot, so that
    the two are at least 90 pixels apart. *)
Theorem popup_slot_is_least_free (d : slot_dir) :
  (forall fuel s, find_slot fuel d = Some s ->
     mkdir_ok d s = true /\ (forall k, k < s -> mkdir_ok d k = false)
     /\ s < fuel /\ (forall fuel', s < fuel' -> find_slot fuel' d = Some s))
  /\ (forall n, mkdir_ok d n = true ->
        exists s, s <= n /\ find_slot (S n) d = Some s)
  /\ ((forall n, mkdir_ok d n = false) -> forall fuel, find_slot fuel d = None)
  /\ ((forall n, refused d n = false) ->
        exists s, find_slot (S (size (taken d))) d = Some s /\ s <= size (taken d))
  /\ (forall fuel fuel' s s',
        find_slot fuel d = Some s -> find_slot fuel' (with_slot s d) = Some s' ->
        s' <> s
        /\ (y_offset s + 90 <= y_offset s' \/ y_offset s' + 90 <= y_offset s)).
Proof.
  unfold find_slot. split; [|split; [|split; [|split]]].
  - intros fuel s H. apply find_slot_from_some in H as (H1 & H2 & H3).
    split; [exact H1|]. split; [intros k Hk; apply H3; lia|]. split; [lia|].
    intros fuel' Hf. apply find_slot_from_least; [exact H1|exact H3|lia].
  - intros n Hn. destruct (find_slot_from (S n) d 0) as [s|] eqn:Hf.
    + exists s. split; [|reflexivity].
      apply find_slot_from_some in Hf as (_ & H2 & _). lia.
    + rewrite (find_slot_from_none _ _ _ Hf n) in Hn by lia. discriminate Hn.
  - intros Hnone fuel. destruct (find_slot_from fuel d 0) as [s|] eqn:Hf; [|reflexivity].
    apply find_slot_from_some in Hf as (H1 & _). rewrite Hnone in H1. discriminate H1.
  - intros Hfree.
    assert (forall k, mkdir_ok d k = false -> k ∈ taken d) as Htaken.
    { intros k Hk. unfold mkdir_ok in Hk. rewrite Hfree, andb_true_r in Hk.
      apply negb_false_iff, bool_decide_eq_true in Hk. exact Hk. }
    destruct (find_slot_from (S (size (taken d))) d 0) as [s|] eqn:Hf.
    + exists s. split; [reflexivity|].
      apply find_slot_from_some in Hf as (_ & H2 & _). lia.
    + exfalso.
      assert (set_seq 0 (S (size (taken d))) ⊆ taken d) as Hsub.
      { intros k Hk. apply elem_of_set_seq in Hk. apply Htaken.
        apply (find_slot_from_none _ _ _ Hf). lia. }
      apply subseteq_size in Hsub. rewrite size_set_seq in Hsub. lia.
  - intros fuel fuel' s s' _ Hs'.
    apply find_slot_from_some in Hs' as (Hok & _).
    assert (s' <> s) as Hne.
    { intros ->. unfold mkdir_ok, with_slot in Hok. cbn [taken] in Hok.
      rewrite bool_decide_eq_true_2 in Hok; [discriminate Hok|].
      apply elem_of_union_l, elem_of_singleton. reflexivity. }
    split; [exact Hne|]. unfold y_offset. lia.
Qed.

Example popup_slot_fills_the_gap :
  find_slot 4 {| taken := {[0; 1; 3]}; refused := fun _ => false |} = Some 2
  /\ y_offset 2 = 220
  /\ find_slot 1000 {| taken := ∅; refused := fun _ => true |} = None.
Proof. split; [|split]; vm_compute; reflexivity. Qed.

(** ** Cycling through the packs *)

Lemma insert_sorted_length x l : length (insert_sorted x l) = S (length l).
Proof.
  induction l as [|y l IH]; simpl; [reflexivity|].
  destruct (String.leb x y); simpl; congruence.
Qed.

Lemma sorted_length l : length (sorted l) = length l.
Proof.
  unfold sorted. induction l as [|x l IH]; simpl; [reflexivity|].
  rewrite insert_sorted_length. congruence.
Qed.

Lemma insert_sorted_NoDup x l : x ∉ l -> NoDup l -> NoDup (insert_sorted x l).
Proof.
  induction l as [|y l IH]; simpl; intros Hx Hl.
  - apply NoDup_singleton.
  - destruct (String.leb x y).
    + apply NoDup_cons. split; assumption.
    + apply NoDup_cons in Hl as [Hy Hl]. apply NoDup_cons. split.
      * rewrite elem_of_insert_sorted. intros [->|H]; [|contradiction].
        apply Hx, list_elem_of_here.
      * apply IH; [|exact Hl]. intros H. apply Hx, list_elem_of_further, H.
Qed.

Lemma sorted_NoDup l : NoDup l -> NoDup (sorted l).
Proof.
  unfold sorted. induction l as [|x l IH]; simpl; intros H; [constructor|].
  apply NoDup_cons in H as [Hx Hl].
  apply insert_sorted_NoDup; [|apply IH, Hl].
  fold (sorted l). rewrite elem_of_sorted. exact Hx.
Qed.

Lemma index_nth l : forall j d,
  NoDup l -> j < length l -> index (List.nth j l d) l = Some j.
Proof.
  induction l as [|x l IH]; intros j d Hnd Hj; [simpl in Hj; lia|].
  apply NoDup_cons in Hnd as [Hx Hl].
  destruct j as [|j]; simpl.
  - rewrite String.eqb_refl. reflexivity.
  - destruct (String.eqb_spec x (List.nth j l d)) as [E|_].
    + exfalso. apply Hx. rewrite E. apply list_elem_of_In, List.nth_In.
      simpl in Hj. lia.
    + rewrite IH; [reflexivity|exact Hl|simpl in Hj; lia].
Qed.

Lemma index_some x l : forall j d,
  index x l = Some j -> j < length l /\ List.nth j l d = x.
Proof.
  induction l as [|y l IH]; intros j d H; [discriminate|].
  simpl in H. destruct (String.eqb_spec y x) as [->|_].
  - inversion H; subst. simpl. split; [lia|reflexivity].
  - destruct (index x l) as [k|] eqn:E; [|discriminate].
    simpl in H. inversion H; subst.
    destruct (IH k d eq_refl) as [H1 H2]. simpl. split; [lia|exact H2].
Qed.

Lemma index_elem x l : x ∈ l -> exists j, index x l = Some j.
Proof.
  induction l as [|y l IH]; intros H; [apply not_elem_of_nil in H; contradiction|].
  simpl. destruct (String.eqb_spec y x) as [->|Hne]; [eauto|].
  apply elem_of_cons in H as [->|H]; [contradiction|].
  destruct (IH H) as [j ->]. simpl. eauto.
Qed.

Section Cycle.

Context {value : Type}.
Variable of_str : string -> value.
Variable to_str : value -> option string.
Hypothesis to_of : forall s, to_str (of_str s) = Some s.

(** One run of [peon --pack] moves the active pack to the next position of
    the sorted list. *)
Lemma cycle_step (fs : @pack_fs value) j d :
  NoDup (installed fs) ->
  j < length (installed fs) ->
  active_name to_str fs = Some (List.nth j (sorted (installed fs)) d) ->
  active_name to_str (after_cmd_pack fs (cmd_pack of_str to_str fs None))
  = Some (List.nth ((j + 1) mod length (installed fs)) (sorted (installed fs)) d)
  /\ installed (after_cmd_pack fs (cmd_pack of_str to_str fs None)) = installed fs.
Proof.
  intros Hnd Hj Hact. split; [|reflexivity].
  pose proof (sorted_NoDup _ Hnd) as Hnds.
  pose proof (sorted_length (installed fs)) as Hlen.
  unfold cmd_pack.
  destruct (sorted (installed fs)) as [|first rest] eqn:Hs;
    [simpl in Hlen; lia|].
  assert (to_str (default (of_str "peon") (default ∅ (config_file fs) !! "active_pack"))
          = Some (List.nth j (first :: rest) d)) as Hto.
  { unfold active_name in Hact.
    destruct (default ∅ (config_file fs) !! "active_pack") as [v|];
      [exact Hact|]. simpl. rewrite to_of. exact Hact. }
  rewrite Hto. cbn [mbind option_bind].
  rewrite (index_nth (first :: rest) j d Hnds) by lia.
  rewrite Hlen.
  set (nxt := List.nth ((j + 1) mod length (installed fs)) (first :: rest) first).
  assert (active_name to_str
            {| config_file := Some (<["active_pack" := of_str nxt]>
                                      (default ∅ (config_file fs)));
               installed := installed fs; display_name := display_name fs |}
          = Some nxt) as Hnew.
  { unfold active_name. simpl. rewrite lookup_insert_eq. apply to_of. }
  assert (nxt = List.nth ((j + 1) mod length (installed fs)) (first :: rest) d) as Hd.
  { unfold nxt. apply List.nth_indep. rewrite Hlen.
    apply Nat.mod_upper_bound. lia. }
  rewrite <- Hd.
  destruct (display_name fs nxt); exact Hnew.
Qed.

Lemma cycle_steps k : forall (fs : @pack_fs value) j d,
  NoDup (installed fs) ->
  j < length (installed fs) ->
  active_name to_str fs = Some (List.nth j (sorted (installed fs)) d) ->
  active_name to_str (cycle_packs of_str to_str k fs)
  = Some (List.nth ((j + k) mod length (installed fs)) (sorted (installed fs)) d).
Proof.
  induction k as [|k IH]; intros fs j d Hnd Hj Hact.
  - simpl. rewrite Nat.add_0_r, Nat.mod_small by exact Hj. exact Hact.
  - simpl.
    destruct (cycle_step fs j d Hnd Hj Hact) as [Hstep Hinst].
    set (fs' := after_cmd_pack fs (cmd_pack of_str to_str fs None)) in *.
    assert (sorted (installed fs') = sorted (installed fs)) as Hs by (rewrite Hinst; reflexivity).
    rewrite <- Hs, <- Hinst in Hstep.
    rewrite (IH fs' ((j + 1) mod length (installed fs')) d).
    + rewrite Hs, Hinst. f_equal. f_equal.
      rewrite Nat.Div0.add_mod_idemp_l. f_equal. lia.
    + rewrite Hinst. exact Hnd.
    + apply Nat.mod_upper_bound. rewrite Hinst. lia.
    + exact Hstep.
Qed.

End Cycle.

(** The pack chosen by [cmd_pack], when it chooses one, is installed. *)
Lemma cmd_pack_cases {value : Type} (of_str : string -> value)
    (to_str : value -> option string) (fs : @pack_fs value) (arg : option string) :
  let r := cmd_pack of_str to_str fs arg in
  (cli_exit r = 1%Z /\ cli_config r = config_file fs /\ cli_stdout r = []
   /\ cli_stderr r <> []
   /\ (installed fs = [] \/ exists a, arg = Some a /\ a ∉ installed fs))
  \/ (exists p,
        p ∈ installed fs
        /\ (arg = None \/ arg = Some p)
        /\ cli_config r
           = Some (<["active_pack" := of_str p]> (default ∅ (config_file fs)))
        /\ match display_name fs p with
           | Some d =>
               cli_exit r = 0%Z /\ cli_stderr r = []
               /\ cli_stdout r = ["peon-ping: switched to " +:+ p +:+ " ("
                                  +:+ default p d +:+ ")"]
           | None => cli_exit r = 1%Z /\ cli_stdout r = [] /\ cli_stderr r <> []
           end).
Proof.
  cbv zeta. unfold cmd_pack.
  destruct (sorted (installed fs)) as [|first rest] eqn:Hs.
  { left. repeat split; try discriminate. left.
    destruct (installed fs) as [|x l]; [reflexivity|].
    assert (x ∈ sorted (x :: l)) as Hx by (apply elem_of_sorted, list_elem_of_here).
    rewrite Hs in Hx. apply not_elem_of_nil in Hx. contradiction. }
  assert (forall p, p ∈ first :: rest -> p ∈ installed fs) as Hin.
  { intros p Hp. apply elem_of_sorted. rewrite Hs. exact Hp. }
  assert (forall p, p ∈ installed fs -> (arg = None \/ arg = Some p) ->
            let r := match display_name fs p with
                     | Some d =>
                         {| cli_exit := 0;
                            cli_config := Some (<["active_pack" := of_str p]>
                                                  (default ∅ (config_file fs)));
                            cli_stdout := ["peon-ping: switched to " +:+ p +:+ " ("
                                           +:+ default p d +:+ ")"];
                            cli_stderr := [] |}
                     | None =>
                         {| cli_exit := 1;
                            cli_config := Some (<["active_pack" := of_str p]>
                                                  (default ∅ (config_file fs)));
                            cli_stdout := [];
                            cli_stderr := ["Traceback (most recent call last):"] |}
                     end in
            exists q, q ∈ installed fs /\ (arg = None \/ arg = Some q)
              /\ cli_config r
                 = Some (<["active_pack" := of_str q]> (default ∅ (config_file fs)))
              /\ match display_name fs q with
                 | Some d =>
                     cli_exit r = 0%Z /\ cli_stderr r = []
                     /\ cli_stdout r = ["peon-ping: switched to " +:+ q +:+ " ("
                                        +:+ default q d +:+ ")"]
                 | None => cli_exit r = 1%Z /\ cli_stdout r = [] /\ cli_stderr r <> []
                 end) as Hok.
  { intros p Hp Ha. cbv zeta. exists p.
    destruct (display_name fs p); repeat split; auto; discriminate. }
  destruct arg as [a|].
  - case_bool_decide as Ha.
    + right. apply (Hok a); [apply Hin, Ha|auto].
    + left. repeat split; try discriminate. right. exists a. split; [reflexivity|].
      intros H. apply Ha. rewrite <- Hs. apply elem_of_sorted, H.
  - right.
    destruct (to_str _ ≫= _) as [idx|].
    + apply Hok; [|auto]. apply Hin, list_elem_of_In, List.nth_In.
      apply Nat.mod_upper_bound. discriminate.
    + apply Hok; [|auto]. apply Hin, list_elem_of_here.
Qed.

(** X18.  [cmd_pack], with or without a name, only ever writes an
    installed pack as [active_pack]: whenever the configuration file is
    changed, and whenever the exit code is 0, the pack written is one of
    the installed packs and the output names it with its display name.
    Cycling (no name given) is rejected only when no pack is installed.
    The configuration is written before the manifest of the chosen pack is
    read: when that manifest is unreadable the command fails with the
    configuration already switched. *)
Theorem pack_command_writes_only_installed_packs {value : Type}
    (of_str : string -> value) (to_str : value -> option string)
    (fs : @pack_fs value) (arg : option string) :
  let r := cmd_pack of_str to_str fs arg in
  (cli_exit r = 0%Z \/ cli_config r <> config_file fs ->
     exists p, p ∈ installed fs
       /\ cli_config r
          = Some (<["active_pack" := of_str p]> (default ∅ (config_file fs))))
  /\ (cli_exit r = 0%Z ->
      exists p d, display_name fs p = Some d
        /\ cli_stdout r = ["peon-ping: switched to " +:+ p +:+ " ("
                           +:+ default p d +:+ ")"]
        /\ cli_stderr r = [])
  /\ (arg = None -> installed fs <> [] ->
      exists p, p ∈ installed fs
        /\ cli_config r
           = Some (<["active_pack" := of_str p]> (default ∅ (config_file fs))))
  /\ (forall p, arg = Some p -> p ∈ installed fs -> display_name fs p = None ->
        cli_exit r = 1%Z
        /\ cli_config r
           = Some (<["active_pack" := of_str p]> (default ∅ (config_file fs)))).
Proof.
  cbv zeta.
  destruct (cmd_pack_cases of_str to_str fs arg)
    as [(He & Hc & _ & _ & Hwhy)|(p & Hp & Harg & Hc & Hd)].
  - split; [|split; [|split]].
    + intros [H|H]; [rewrite He in H; discriminate|contradiction].
    + intros H. rewrite He in H. discriminate.
    + intros -> Hne. destruct Hwhy as [?|(a & ? & _)]; [contradiction|discriminate].
    + intros p -> Hin _. destruct Hwhy as [Hnil|(a & Ha & Hout)].
      * rewrite Hnil in Hin. apply not_elem_of_nil in Hin. contradiction.
      * inversion Ha; subst a. contradiction.
  - split; [|split; [|split]].
    + intros _. exists p. auto.
    + intros H. destruct (display_name fs p) as [d|] eqn:Edn.
      * destruct Hd as (_ & H2 & H3). exists p, d. auto.
      * destruct Hd as (H1 & _). rewrite H1 in H. discriminate.
    + intros _ _. exists p. auto.
    + intros q -> Hq Hnone. destruct Harg as [?|E]; [discriminate|].
      inversion E; subst q. rewrite Hnone in Hd. destruct Hd as (H1 & _).
      split; [exact H1|exact Hc].
Qed.

Lemma pack_command_witness :
  let r := cmd_pack JStr PackFixture.as_str PackFixture.peon_dir None in
  cli_exit r = 0%Z
  /\ exists p, p ∈ installed PackFixture.peon_dir
       /\ cli_config r
          = Some (<["active_pack" := JStr p]> PackFixture.config_json).
Proof.
  cbv zeta. split; [reflexivity|].
  destruct (pack_command_writes_only_installed_packs JStr PackFixture.as_str
              PackFixture.peon_dir None) as (H & _).
  apply H. left. reflexivity.
Defined.

(** X19.  Cycling with [peon --pack] walks the sorted list of installed
    packs in a circle: starting from an installed active pack, as many runs
    as there are packs bring the active pack back to where it was, no
    smaller positive number of runs does, and every installed pack is
    active after some number of runs below that. *)
Theorem pack_cycle_visits_every_pack {value : Type}
    (of_str : string -> value) (to_str : value -> option string)
    (fs : @pack_fs value) (a : string) :
  (forall s, to_str (of_str s) = Some s) ->
  NoDup (installed fs) ->
  active_name to_str fs = Some a ->
  a ∈ installed fs ->
  let n := length (installed fs) in
  active_name to_str (cycle_packs of_str to_str n fs) = Some a
  /\ (forall k, 0 < k < n ->
        active_name to_str (cycle_packs of_str to_str k fs) <> Some a)
  /\ (forall p, p ∈ installed fs ->
        exists k, k < n /\ active_name to_str (cycle_packs of_str to_str k fs) = Some p).
Proof.
  intros Hto Hnd Hact Ha. cbv zeta.
  pose proof (sorted_NoDup _ Hnd) as Hnds.
  pose proof (sorted_length (installed fs)) as Hlen.
  assert (a ∈ sorted (installed fs)) as Has by (apply elem_of_sorted, Ha).
  destruct (index_elem _ _ Has) as [i Hi].
  destruct (index_some _ _ _ a Hi) as [Hil Hnth]. rewrite Hlen in Hil.
  assert (forall k,
            active_name to_str (cycle_packs of_str to_str k fs)
            = Some (List.nth ((i + k) mod length (installed fs))
                      (sorted (installed fs)) a)) as Hk.
  { intros k. apply (cycle_steps of_str to_str Hto); [exact Hnd|exact Hil|].
    rewrite Hnth. exact Hact. }
  assert (forall j1 j2, j1 < length (installed fs) -> j2 < length (installed fs) ->
            List.nth j1 (sorted (installed fs)) a = List.nth j2 (sorted (installed fs)) a ->
            j1 = j2) as Hinj.
  { intros j1 j2 H1 H2 E.
    pose proof (index_nth (sorted (installed fs)) j1 a Hnds) as I1.
    pose proof (index_nth (sorted (installed fs)) j2 a Hnds) as I2.
    rewrite Hlen in I1, I2. rewrite E in I1. rewrite I2 in I1 by exact H2.
    specialize (I1 H1). congruence. }
  assert (forall m, m < length (installed fs) ->
            (m + length (installed fs)) mod length (installed fs) = m) as Hwrap.
  { intros m Hm.
    replace (m + length (installed fs)) with (m + 1 * length (installed fs)) by lia.
    rewrite Nat.Div0.mod_add. apply Nat.mod_small, Hm. }
  split; [|split].
  - rewrite Hk, (Hwrap i Hil). rewrite Hnth. reflexivity.
  - intros k [Hk0 Hkn]. rewrite Hk. intros E. inversion E as [E0].
    assert (List.nth ((i + k) mod length (installed fs)) (sorted (installed fs)) a
            = List.nth i (sorted (installed fs)) a) as E'
      by (rewrite Hnth; exact E0).
    apply Hinj in E'; [|apply Nat.mod_upper_bound; lia|exact Hil].
    destruct (le_lt_dec (length (installed fs)) (i + k)) as [Hge|Hlt].
    + replace (i + k) with ((i + k - length (installed fs)) + length (installed fs))
        in E' by lia.
      rewrite Hwrap in E' by lia. lia.
    + rewrite Nat.mod_small in E' by exact Hlt. lia.
  - intros p Hp.
    assert (p ∈ sorted (installed fs)) as Hps by (apply elem_of_sorted, Hp).
    destruct (index_elem _ _ Hps) as [j Hj].
    destruct (index_some _ _ _ a Hj) as [Hjl Hjn]. rewrite Hlen in Hjl.
    destruct (le_lt_dec i j) as [Hij|Hji].
    + exists (j - i). split; [lia|]. rewrite Hk.
      replace (i + (j - i)) with j by lia.
      rewrite Nat.mod_small by exact Hjl. rewrite Hjn. reflexivity.
    + exists (j + length (installed fs) - i). split; [lia|]. rewrite Hk.
      replace (i + (j + length (installed fs) - i)) with (j + length (installed fs))
        by lia.
      rewrite (Hwrap j Hjl), Hjn. reflexivity.
Qed.

Lemma pack_cycle_witness :
  (forall s, PackFixture.as_str (JStr s) = Some s)
  /\ NoDup (installed PackFixture.peon_dir)
  /\ active_name PackFixture.as_str PackFixture.peon_dir = Some "peon"
  /\ ("peon" ∈ installed PackFixture.peon_dir)
  /\ active_name PackFixture.as_str
       (cycle_packs JStr PackFixture.as_str 2 PackFixture.peon_dir) = Some "peon"
  /\ active_name PackFixture.as_str
       (cycle_packs JStr PackFixture.as_str 1 PackFixture.peon_dir) <> Some "peon".
Proof.
  assert (forall s, PackFixture.as_str (JStr s) = Some s) as Hto by reflexivity.
  assert (NoDup (installed PackFixture.peon_dir)) as Hnd.
  { simpl. apply NoDup_cons. split.
    - rewrite list_elem_of_singleton. discriminate.
    - apply NoDup_singleton. }
  assert ("peon" ∈ installed PackFixture.peon_dir) as Hin
    by (apply list_elem_of_further, list_elem_of_here).
  destruct (pack_cycle_visits_every_pack JStr PackFixture.as_str PackFixture.peon_dir
              "peon" Hto Hnd eq_refl Hin) as (H1 & H2 & _).
  split; [exact Hto|]. split; [exact Hnd|]. split; [reflexivity|].
  split; [exact Hin|]. split; [exact H1|]. apply H2. simpl. lia.
Defined.


(** ** The values of the switches *)

Lemma pretty_N_go_digits x : forall s,
  Forall (fun c => digit_or_dash c = true) (list_ascii_of_string s) ->
  Forall (fun c => digit_or_dash c = true) (list_ascii_of_string (pretty_N_go x s)).
Proof.
  induction (N.lt_wf_0 x) as [x _ IH]. intros s Hs.
  destruct (decide (x = 0)%N) as [->|Hx]; [rewrite pretty_N_go_0; exact Hs|].
  rewrite pretty_N_go_step by lia. apply IH.
  - apply N.div_lt; lia.
  - cbn [list_ascii_of_string]. constructor; [|exact Hs].
    generalize (x `mod` 10)%N. intros y. unfold pretty_N_char.
    repeat case_match; reflexivity.
Qed.

Lemma pretty_Z_digits (n : Z) :
  Forall (fun c => digit_or_dash c = true) (list_ascii_of_string (pretty n)).
Proof.
  assert (forall p : positive,
            Forall (fun c => digit_or_dash c = true)
                   (list_ascii_of_string (pretty (Npos p)))) as Hpos.
  { intros p. unfold pretty, pretty_N. case_decide; [repeat constructor|].
    apply pretty_N_go_digits. constructor. }
  destruct n as [|p|p]; unfold pretty, pretty_Z.
  - repeat constructor.
  - apply Hpos.
  - change ("-" +:+ pretty p) with (String "-" (pretty p)).
    cbn [list_ascii_of_string].
    constructor; [reflexivity|apply Hpos].
Qed.

Lemma lower_ascii_digit c : digit_or_dash c = true -> PyStr.lower_ascii c = c.
Proof.
  unfold digit_or_dash, PyStr.lower_ascii. intros H.
  apply orb_true_iff in H as [H|H].
  - apply andb_true_iff in H as [H1 H2].
    apply Nat.leb_le in H1, H2.
    destruct (Nat.leb_spec 65 (nat_of_ascii c)); [lia|reflexivity].
  - apply Ascii.eqb_eq in H. subst c. reflexivity.
Qed.

Lemma digits_are_no_keyword s :
  Forall (fun c => digit_or_dash c = true) (list_ascii_of_string s) ->
  PyStr.lower s <> "true" /\ PyStr.lower s <> "false".
Proof.
  destruct s as [|c r]; [split; discriminate|].
  cbn [list_ascii_of_string PyStr.lower]. intros H.
  inversion H as [|? ? Hc _]; subst.
  rewrite (lower_ascii_digit c Hc).
  split; intros E; injection E as Hl _; subst c; discriminate Hc.
Qed.

(** X20.  The two kinds of switch read their values differently.  The hook
    is disabled exactly when [enabled] is the boolean false or a string
    equal to "false" up to case; a category of the list is enabled exactly
    when its flag is absent, the boolean true, or a string equal to "true"
    up to case.  So a null or an integer under [enabled] leaves the hook
    enabled, while a null or an integer under a category flag disables the
    category; a category outside the list is always enabled. *)
Theorem switch_values cfg c :
  (hook_disabled cfg = true
   <-> enabled cfg = Some (JBool false)
       \/ exists s, enabled cfg = Some (JStr s) /\ PyStr.lower s = "false")
  /\ (c ∈ category_names ->
      (cat_get cfg c = true
       <-> categories cfg !! c = None
           \/ categories cfg !! c = Some (JBool true)
           \/ exists s, categories cfg !! c = Some (JStr s) /\ PyStr.lower s = "true"))
  /\ (c ∉ category_names -> cat_get cfg c = true).
Proof.
  split; [|split].
  - unfold hook_disabled. rewrite String.eqb_eq.
    destruct (enabled cfg) as [[|[]|n|s]|]; cbn [default py_str].
    + split; [discriminate|]. intros [H|(s' & H & _)]; discriminate.
    + split; [discriminate|]. intros [H|(s' & H & _)]; discriminate.
    + split; [auto|reflexivity].
    + split.
      * intros H. destruct (digits_are_no_keyword _ (pretty_Z_digits n)) as [_ Hf].
        contradiction.
      * intros [H|(s' & H & _)]; discriminate.
    + split; [intros H; right; eauto|].
      intros [H|(s' & H & Hl)]; [discriminate|]. inversion H; subst. exact Hl.
    + split; [discriminate|]. intros [H|(s' & H & _)]; discriminate.
  - intros Hin. rewrite cat_get_flag, bool_decide_eq_true_2 by exact Hin.
    unfold flag_of. rewrite String.eqb_eq.
    destruct (categories cfg !! c) as [[|[]|n|s]|]; cbn [default py_str].
    + split; [discriminate|]. intros [H|[H|(s' & H & _)]]; discriminate.
    + split; [auto|reflexivity].
    + split; [discriminate|]. intros [H|[H|(s' & H & _)]]; discriminate.
    + split.
      * intros H. destruct (digits_are_no_keyword _ (pretty_Z_digits n)) as [Ht _].
        contradiction.
      * intros [H|[H|(s' & H & _)]]; discriminate.
    + split; [intros H; right; right; eauto|].
      intros [H|[H|(s' & H & Hl)]]; try discriminate. inversion H; subst. exact Hl.
    + split; [auto|reflexivity].
  - intros Hout. rewrite cat_get_flag, bool_decide_eq_false_2 by exact Hout.
    reflexivity.
Qed.

Example number_flags :
  hook_disabled (Fixture.with_enabled (JNum 0) Fixture.DEFAULT_CONFIG) = false
  /\ cat_get (with_category_flag "greeting" (JNum 1) Fixture.DEFAULT_CONFIG) "greeting"
     = false.
Proof. split; vm_compute; reflexivity. Qed.

(** ** Idle prompts *)

(** X21.  A [Notification] of subtype [idle_prompt] never selects a sound
    and never changes [last_played], whatever the configuration, the state
    and the environment are: the category it retains is empty. *)
Theorem idle_prompt_never_plays cfg env st ev :
  is_idle_prompt ev = true ->
  let o := main cfg env st (StdinEvent ev) in
  category o = "" /\ sound_file o = None /\ played o = false
  /\ last_played (disk o) = last_played st.
Proof.
  intros Hidle. cbv zeta.
  destruct (main_cases cfg env st (StdinEvent ev))
    as [->|[(_ & _ & ->)|[(ev' & _ & _ & _ & ->)|(ev' & pack & m1 & r & m2 & Hi & _ & _ & _ & Hp & Hr & ->)]]];
    try (repeat split; reflexivity).
  inversion Hi; subst ev'. clear Hi.
  destruct (routed_memory _ _ _ _ _ _ _ _ Hp Hr) as [_ Hlp].
  assert (hook_event_name ev = "Notification"
          /\ notification_type ev = "idle_prompt") as [He Ht].
  { pose proof Hidle as H. unfold is_idle_prompt in H.
    apply andb_true_iff in H as [H1 H2]. apply String.eqb_eq in H1, H2. auto. }
  assert (notifying ev = true) as Hn
    by (unfold notifying; rewrite He, Ht; reflexivity).
  assert (String.eqb (hook_event_name ev) "Stop" = false) as Hstop
    by (rewrite He; reflexivity).
  rewrite (route_notifying _ _ _ _ _ Hn) in Hr. inversion Hr; subst r m2. clear Hr.
  unfold assemble, routed_category_of. rewrite Hstop, Hidle.
  cbn. repeat split; try reflexivity.
  destruct (state_dirty m1); [exact Hlp|reflexivity].
Qed.

Lemma idle_prompt_witness :
  let ev := Fixture.ev "Notification" "idle_prompt" "s1" "default" in
  let o := main Fixture.DEFAULT_CONFIG (Fixture.env_at 100) empty_state (StdinEvent ev) in
  is_idle_prompt ev = true /\ last_played (disk o) = ∅ /\ sound_file o = None.
Proof.
  cbv zeta. split; [reflexivity|].
  pose proof (idle_prompt_never_plays Fixture.DEFAULT_CONFIG (Fixture.env_at 100)
                empty_state (Fixture.ev "Notification" "idle_prompt" "s1" "default")
                eq_refl) as H.
  cbv zeta in H. destruct H as (_ & H2 & _ & H4). split; [exact H4|exact H2].
Defined.

(** ** The order of the pack names *)

Lemma insert_sorted_ascending x l :
  StronglySorted String.le l -> StronglySorted String.le (insert_sorted x l).
Proof.
  induction l as [|y l IH]; simpl; intros Hl.
  - repeat constructor.
  - inversion Hl as [|? ? Hl' Hy]; subst.
    destruct (String.leb x y) eqn:E.
    + constructor; [exact Hl|]. constructor.
      * unfold String.le. rewrite E. exact I.
      * eapply Forall_impl; [exact Hy|]. intros z Hz.
        transitivity y; [|exact Hz]. unfold String.le. rewrite E. exact I.
    + assert (String.le y x) as Hyx.
      { destruct (total String.le x y) as [H|H]; [|exact H].
        unfold String.le in H. rewrite E in H. contradiction. }
      constructor; [apply IH, Hl'|].
      apply Forall_forall. intros z Hz.
      apply elem_of_insert_sorted in Hz as [->|Hz]; [exact Hyx|].
      rewrite Forall_forall in Hy. apply Hy, Hz.
Qed.

(** X22.  The names that [cmd_pack] reports and cycles through are the
    installed packs in ascending order: sorting neither drops nor adds a
    name, keeps the number of names, keeps them distinct, and every name is
    below or equal to all the names after it. *)
Theorem pack_names_are_sorted (l : list string) :
  StronglySorted String.le (sorted l)
  /\ (forall x, x ∈ sorted l <-> x ∈ l)
  /\ length (sorted l) = length l
  /\ (NoDup l -> NoDup (sorted l)).
Proof.
  split; [|split; [|split]].
  - unfold sorted. induction l as [|x l IH]; simpl; [constructor|].
    apply insert_sorted_ascending, IH.
  - intros x. apply elem_of_sorted.
  - apply sorted_length.
  - apply sorted_NoDup.
Qed.

Example pack_names_sorted_example :
  sorted ["sc_kerrigan"; "peon_fr"; "peon"; "peasant"]
  = ["peasant"; "peon"; "peon_fr"; "sc_kerrigan"].
Proof. reflexivity. Qed.

(** ** What the rotation records *)

Lemma pin_pack_rotating cfg env sid st pack m1 :
  pack_rotation cfg <> [] ->
  pin_pack cfg env sid {| mem := st; state_dirty := false |} = Some (pack, m1) ->
  pack ∈ pack_rotation cfg
  /\ session_packs (mem m1) !! sid = Some pack
  /\ (session_packs (mem m1) = session_packs st \/ state_dirty m1 = true)
  /\ (forall q, session_packs st !! sid = Some q -> q ∈ pack_rotation cfg -> pack = q).
Proof.
  intros Hne. unfold pin_pack.
  destruct (pack_rotation cfg) as [|x l] eqn:Hrot; [contradiction|].
  rewrite <- Hrot. cbn [mem].
  assert (match PyStr.choice (rnd_pack env) (pack_rotation cfg) with
          | Some drawn =>
              Some (drawn,
                    {| mem := set_session_packs (<[sid := drawn]> (session_packs st)) st;
                       state_dirty := true |})
          | None => None
          end = Some (pack, m1) ->
          pack ∈ pack_rotation cfg
          /\ session_packs (mem m1) !! sid = Some pack
          /\ (session_packs (mem m1) = session_packs st \/ state_dirty m1 = true)) as Hdraw.
  { destruct (PyStr.choice _ _) as [drawn|] eqn:Hc; [|discriminate].
    intros H. inversion H; subst. apply choice_elem in Hc.
    split; [exact Hc|]. split; [apply lookup_insert_eq|right; reflexivity]. }
  destruct (session_packs st !! sid) as [p|] eqn:Hsp.
  - case_bool_decide as Hin.
    + intros H. inversion H; subst. cbn [mem].
      split; [exact Hin|]. split; [exact Hsp|]. split; [left; reflexivity|].
      intros q Hq _. congruence.
    + intros H. destruct (Hdraw H) as (H1 & H2 & H3).
      repeat split; auto. intros q Hq Hqin. congruence.
  - intros H. destruct (Hdraw H) as (H1 & H2 & H3).
    repeat split; auto. intros q Hq. discriminate.
Qed.

Lemma route_keeps_dirty cfg env ev project m r m' :
  route cfg env ev project m = Some (r, m') ->
  state_dirty m = true -> state_dirty m' = true.
Proof.
  unfold route. intros H Hd.
  repeat (case_eqb; lazy iota beta in H);
    try destruct (cat_get cfg "annoyed");
    try discriminate; inversion H; subst; auto.
Qed.

(** X23.  With a non-empty [pack_rotation], every event that is routed
    leaves in [session_packs], for its session, a pack that is a member of
    the rotation; that pack is the one any sound of the invocation comes
    from, and it is the pack found there whenever that one is still a
    member.  The draw is only kept when the event is routed: an invocation
    that stops before the end of the routing leaves [session_packs] as it
    was. *)
Theorem rotation_records_a_member cfg env st ev :
  let o := main cfg env st (StdinEvent ev) in
  (forall r, routed cfg env st (StdinEvent ev) = Some r ->
     pack_rotation cfg <> [] ->
     exists p,
       session_packs (disk o) !! session_id ev = Some p
       /\ p ∈ pack_rotation cfg
       /\ (forall pk f, sound_file o = Some (pk, f) -> pk = p)
       /\ (forall q, session_packs st !! session_id ev = Some q ->
             q ∈ pack_rotation cfg -> p = q))
  /\ (routed cfg env st (StdinEvent ev) = None ->
      session_packs (disk o) = session_packs st).
Proof.
  cbv zeta. unfold routed, main.
  destruct (hook_disabled cfg); [split; [discriminate|reflexivity]|].
  destruct (agent_detection st ev) as [o|] eqn:Ha.
  { split; [discriminate|]. intros _. unfold handle_event. rewrite Ha.
    rewrite agent_detection_cases in Ha.
    destruct (delegate_marked ev); [inversion Ha; reflexivity|].
    case_bool_decide; inversion Ha; reflexivity. }
  destruct (handle_event_passed cfg env st ev Ha) as (pack & m1 & Hp & _ & _ & _ & ->).
  rewrite Hp.
  destruct (route cfg env ev _ m1) as [[r m2]|] eqn:Hr;
    [|split; [discriminate|reflexivity]].
  split; [|discriminate].
  intros r' _ Hne.
  destruct (pin_pack_rotating _ _ _ _ _ _ Hne Hp) as (Hin & Hsp & Hdirty & Hsame).
  pose proof (route_keeps_dirty _ _ _ _ _ _ _ Hr) as Hkeep.
  apply route_frame in Hr as (_ & Hsp2 & _).
  exists pack. cbv zeta. cbn [disk sound_file].
  split; [|split; [exact Hin|split; [|exact Hsame]]].
  - destruct (PyStr.truthy _ && negb _);
      [destruct (pick_sound _ _ _ _) as [[s st']|] eqn:Hpk|]; cbn.
    + apply pick_sound_frame in Hpk as (_ & -> & _). congruence.
    + destruct (state_dirty m2) eqn:Hd2; [congruence|].
      destruct Hdirty as [E|E]; [congruence|]. specialize (Hkeep E). congruence.
    + destruct (state_dirty m2) eqn:Hd2; [congruence|].
      destruct Hdirty as [E|E]; [congruence|]. specialize (Hkeep E). congruence.
  - intros pk f.
    destruct (PyStr.truthy _ && negb _); [|discriminate].
    destruct (pick_sound _ _ _ _) as [[s st']|]; [|discriminate].
    cbn. intros E. inversion E. reflexivity.
Qed.

Lemma rotation_witness :
  let cfg := Fixture.with_rotation ["sc_kerrigan"] Fixture.DEFAULT_CONFIG in
  let ev := Fixture.ev "SessionStart" "" "rot1" "default" in
  let o := main cfg (Fixture.env_at 100) empty_state (StdinEvent ev) in
  is_Some (routed cfg (Fixture.env_at 100) empty_state (StdinEvent ev))
  /\ pack_rotation cfg <> []
  /\ exists p, session_packs (disk o) !! "rot1" = Some p /\ p ∈ pack_rotation cfg.
Proof.
  cbv zeta.
  destruct (routed (Fixture.with_rotation ["sc_kerrigan"] Fixture.DEFAULT_CONFIG)
              (Fixture.env_at 100) empty_state
              (StdinEvent (Fixture.ev "SessionStart" "" "rot1" "default")))
    as [r|] eqn:Hr; [|discriminate Hr].
  split; [eexists; reflexivity|]. split; [discriminate|].
  destruct (rotation_records_a_member
              (Fixture.with_rotation ["sc_kerrigan"] Fixture.DEFAULT_CONFIG)
              (Fixture.env_at 100) empty_state
              (Fixture.ev "SessionStart" "" "rot1" "default")) as [H _].
  destruct (H r Hr) as (p & H1 & H2 & _); [discriminate|].
  exists p. split; [exact H1|exact H2].
Defined.
